(** * DARWIN: adaptive mutation-operator selection (afl_darwin.c)

    A shallow embedding of the operator-selection engine of
    [src/afl_darwin.c] and the proofs of its specification.

    The embedding:
    - C [unsigned]/[int] values are integers in [Z] with the conversions
      written out ([to_uint], [to_int]); [int] has 32 bits and 4 bytes.
    - C arrays are lists indexed by [Z]; an access outside the allocated
      range is undefined behaviour and is modelled by [None].  [malloc]
      succeeds and returns memory of arbitrary contents ([uninit]).
    - [double] is IEEE binary64, modelled by the executable specification
      [SpecFloat] of the standard library (round to nearest even, every
      operation rounded to binary64).
    - The global arrays indexed by seed are the fields of the record
      [darwin], one list per C global, as in the source.
    - The random number generators ([rand], [rand_32_int],
      [rand_32_double]) are external; they are parameters threaded
      through an abstract generator state.  [printf] is not modelled.

    The development:
    - the engine ([DARWIN_init], [DARWIN_SelectOperator],
      [DARWIN_NotifyFeedback], [DARWIN_get_parent_repr]), the calls of the
      fuzzer loop and the states they reach;
    - the rows of one seed ([seed_view]) and the blocks of the engine read
      on these rows, to which the blocks on the globals are reduced
      ([lift_] lemmas);
    - error bounds for binary64 multiplication and addition, and the
      interval kept by the smoothing rule ([smooth_ok]);
    - the invariant [wf] of the reachable states;
    - the claims of the specification, [C1] to [C10];
    - further properties of the engine, [X1] to [X14]: the state left by
      [DARWIN_init], what a call of [DARWIN_NotifyFeedback] writes and
      what it leaves alone, the candidate it draws, the elite of a bucket
      and the range of the probabilities. *)

From Stdlib Require Import ZArith Lia Floats.SpecFloat.
From stdpp Require Import base tactics option list list_numbers relations.

Local Open Scope Z_scope.

(* ================================================================= *)
(** * Machine integers *)

(** Conversion to [unsigned] (32 bits, wraps around). *)
Definition to_uint (z : Z) : Z := z mod 2 ^ 32.

(** Conversion to [int] (32 bits, two's complement). *)
Definition to_int (z : Z) : Z := (z + 2 ^ 31) mod 2 ^ 32 - 2 ^ 31.

Definition sizeof_int : Z := 4.

(* ================================================================= *)
(** * IEEE binary64 *)

Definition double : Type := spec_float.
Definition prec : Z := 53.
Definition emax : Z := 1024.

(** Conversion of an integer to [double]. *)
Definition Z2D (z : Z) : double := binary_normalize prec emax z 0 false.

Definition dadd : double → double → double := SFadd prec emax.
Definition dsub : double → double → double := SFsub prec emax.
Definition dmul : double → double → double := SFmul prec emax.
Definition ddiv : double → double → double := SFdiv prec emax.
Definition dlt : double → double → bool := SFltb.
Definition dle : double → double → bool := SFleb.

(** A decimal literal [n/10] denotes the binary64 number nearest to it,
    which is what the correctly rounded quotient computes. *)
Definition tenths (n : Z) : double := ddiv (Z2D n) (Z2D 10).

(* ================================================================= *)
(** * C arrays *)

(** [a[i]] as an rvalue. *)
Definition rd {A} (a : list A) (i : Z) : option A :=
  if decide (0 ≤ i) then a !! Z.to_nat i else None.

(** [a[i] = v]. *)
Definition wr {A} (a : list A) (i : Z) (v : A) : option (list A) :=
  if decide (0 ≤ i < Z.of_nat (length a)) then Some (<[Z.to_nat i := v]> a) else None.

Definition rd2 {A} (a : list (list A)) (i j : Z) : option A :=
  row ← rd a i; rd row j.

Definition wr2 {A} (a : list (list A)) (i j : Z) (v : A) : option (list (list A)) :=
  row ← rd a i; row' ← wr row j v; wr a i row'.

Definition rd3 {A} (a : list (list (list A))) (i j k : Z) : option A :=
  plane ← rd a i; rd2 plane j k.

Definition wr3 {A} (a : list (list (list A))) (i j k : Z) (v : A)
    : option (list (list (list A))) :=
  plane ← rd a i; plane' ← wr2 plane j k v; wr a i plane'.

(** [malloc] of [n] elements: the block [junk 0, ..., junk (n-1)] of
    indeterminate contents. *)
Definition malloc {A} (n : Z) (junk : Z → A) : list A := junk <$> seqZ 0 n.

(** [memset(a, 0, n)] on an array of [int]: [n] counts bytes.  The
    [n / sizeof(int)] elements wholly covered become 0; an element covered
    in part keeps its upper bytes (little endian). *)
Definition memset0 (a : list Z) (n : Z) : option (list Z) :=
  if decide (0 ≤ n ≤ sizeof_int * Z.of_nat (length a)) then
    let q := Z.to_nat (n / sizeof_int) in
    let r := n mod sizeof_int in
    Some (replicate q 0 ++
          match drop q a with
          | [] => []
          | x :: rest =>
              (if decide (r = 0) then x
               else to_int (to_uint x / 2 ^ (8 * r) * 2 ^ (8 * r))) :: rest
          end)
  else None.

(** [for (i = start; ...; i++) body], executed [n] times. *)
Fixpoint for_ {St} (n : nat) (i : Z) (body : Z → St → option St) (s : St) : option St :=
  match n with
  | O => Some s
  | S n' => s' ← body i s; for_ n' (i + 1) body s'
  end.

(* ================================================================= *)
(** * Constants and global state *)

Definition M : Z := 20.
Definition N : Z := 4.
Definition LEARNING_RATE : double := tenths 3.

(** The globals of the file.  [_currentRelativeProb[seed]] is a pointer to
    a row of [_individual[seed]]; it is represented by the index of that
    row, so that a write through the pointer is a write to the row. *)
Record darwin : Type := {
  MutationOperatorsNum : Z;
  _Fitness : list (list Z);
  _bestIndex : list (list Z);
  _nextToEvaluate : list Z;
  _individual : list (list (list bool));
  _currentRelativeProb : list Z;
  p : list (list double)
}.

Definition set_Fitness (v : list (list Z)) (st : darwin) : darwin :=
  {| MutationOperatorsNum := MutationOperatorsNum st; _Fitness := v;
     _bestIndex := _bestIndex st; _nextToEvaluate := _nextToEvaluate st;
     _individual := _individual st;
     _currentRelativeProb := _currentRelativeProb st; p := p st |}.

Definition set_bestIndex (v : list (list Z)) (st : darwin) : darwin :=
  {| MutationOperatorsNum := MutationOperatorsNum st; _Fitness := _Fitness st;
     _bestIndex := v; _nextToEvaluate := _nextToEvaluate st;
     _individual := _individual st;
     _currentRelativeProb := _currentRelativeProb st; p := p st |}.

Definition set_nextToEvaluate (v : list Z) (st : darwin) : darwin :=
  {| MutationOperatorsNum := MutationOperatorsNum st; _Fitness := _Fitness st;
     _bestIndex := _bestIndex st; _nextToEvaluate := v;
     _individual := _individual st;
     _currentRelativeProb := _currentRelativeProb st; p := p st |}.

Definition set_individual (v : list (list (list bool))) (st : darwin) : darwin :=
  {| MutationOperatorsNum := MutationOperatorsNum st; _Fitness := _Fitness st;
     _bestIndex := _bestIndex st; _nextToEvaluate := _nextToEvaluate st;
     _individual := v;
     _currentRelativeProb := _currentRelativeProb st; p := p st |}.

Definition set_currentRelativeProb (v : list Z) (st : darwin) : darwin :=
  {| MutationOperatorsNum := MutationOperatorsNum st; _Fitness := _Fitness st;
     _bestIndex := _bestIndex st; _nextToEvaluate := _nextToEvaluate st;
     _individual := _individual st;
     _currentRelativeProb := v; p := p st |}.

Definition set_p (v : list (list double)) (st : darwin) : darwin :=
  {| MutationOperatorsNum := MutationOperatorsNum st; _Fitness := _Fitness st;
     _bestIndex := _bestIndex st; _nextToEvaluate := _nextToEvaluate st;
     _individual := _individual st;
     _currentRelativeProb := _currentRelativeProb st; p := v |}.

(** Contents of freshly allocated memory, by seed and index. *)
Record uninit : Type := {
  junk_Fitness : Z → Z → Z;
  junk_bestIndex : Z → Z → Z;
  junk_nextToEvaluate : Z → Z;
  junk_individual : Z → Z → Z → bool;
  junk_currentRelativeProb : Z → Z;
  junk_p : Z → Z → double
}.

(** [DARWIN_get_parent_repr]: the state is passed through untouched. *)
Definition DARWIN_get_parent_repr {W : Type} (seed : Z) (w : W) : Z * W :=
  let value := 0 in (value, w).

(* ================================================================= *)
(** * The engine, over an external random number generator *)

Section Engine.

(** Modelled from the spec: [rand.h] is not part of the sources.  Section 6
    gives the generator as a supplied capability: [rand_32_int n] is a
    uniform integer in [[0, n)], [rand_32_double] a uniform double in
    [[0, 1)], [rand_init] seeds it.  [rand] and [RAND_MAX] are those of
    the C library.  [RNG] is the hidden state of the generators. *)
Variable RNG : Type.
Variable rand_init : RNG → RNG.
Variable rand : RNG → Z * RNG.
Variable RAND_MAX : Z.
Variable rand_32_int : Z → RNG → Z * RNG.
Variable rand_32_double : RNG → double * RNG.

Definition world : Type := darwin * RNG.

(** ** DARWIN_init *)

Definition init_individual_row (junk : uninit) (seed i : Z) (st : darwin)
    : option darwin :=
  I ← wr2 (_individual st) seed i
        (malloc (MutationOperatorsNum st) (junk_individual junk seed i));
  Some (set_individual I st).

Definition init_p (seed i : Z) (st : darwin) : option darwin :=
  P ← wr2 (p st) seed i (tenths 5);
  Some (set_p P st).

Definition seed_bestIndex (seed i : Z) (st : darwin) : option darwin :=
  B ← wr2 (_bestIndex st) seed i (to_uint (5 * i));
  Some (set_bestIndex B st).

Definition init_random_bit (seed i : Z) (w : world) : option world :=
  let '(st, g) := w in
  let '(r, g) := rand g in
  I ← wr3 (_individual st) seed 0 i (bool_decide (RAND_MAX / 2 < r));
  Some (set_individual I st, g).

Definition memset_Fitness (seed : Z) (st : darwin) : option darwin :=
  row ← rd (_Fitness st) seed;
  row' ← memset0 row M;
  F ← wr (_Fitness st) seed row';
  Some (set_Fitness F st).

Definition init_seed (junk : uninit) (seed : Z) (w : world) : option world :=
  let '(st, g) := w in
  NE ← wr (_nextToEvaluate st) seed 0;
  let st := set_nextToEvaluate NE st in
  F ← wr (_Fitness st) seed (malloc M (junk_Fitness junk seed));
  let st := set_Fitness F st in
  B ← wr (_bestIndex st) seed (malloc N (junk_bestIndex junk seed));
  let st := set_bestIndex B st in
  P ← wr (p st) seed (malloc (MutationOperatorsNum st) (junk_p junk seed));
  let st := set_p P st in
  I ← wr (_individual st) seed (malloc M (λ _, []));
  let st := set_individual I st in
  st ← for_ (Z.to_nat M) 0 (init_individual_row junk seed) st;
  st ← memset_Fitness seed st;
  st ← for_ (Z.to_nat (MutationOperatorsNum st)) 0 (init_p seed) st;
  st ← for_ (Z.to_nat N) 0 (seed_bestIndex seed) st;
  '(st, g) ← for_ (Z.to_nat (MutationOperatorsNum st)) 0 (init_random_bit seed) (st, g);
  nxt ← rd (_nextToEvaluate st) seed;
  _ ← rd2 (_individual st) seed nxt;
  C ← wr (_currentRelativeProb st) seed nxt;
  Some (set_currentRelativeProb C st, g).

Definition DARWIN_init (junk : uninit) (nr_seeds nr_mutations : Z) (g : RNG)
    : option world :=
  let g := rand_init g in
  let st :=
    {| MutationOperatorsNum := nr_mutations;
       _Fitness := malloc nr_seeds (λ _, []);
       _bestIndex := malloc nr_seeds (λ _, []);
       _nextToEvaluate := malloc nr_seeds (junk_nextToEvaluate junk);
       _individual := malloc nr_seeds (λ _, []);
       _currentRelativeProb := malloc nr_seeds (junk_currentRelativeProb junk);
       p := malloc nr_seeds (λ _, []) |} in
  (* the loop counter [seed] is an [int] *)
  if decide (nr_seeds < 2 ^ 31)
  then for_ (Z.to_nat nr_seeds) 0 (init_seed junk) (st, g)
  else None.

(** ** DARWIN_SelectOperator *)

(** The [while] loop; [fuel] bounds the number of evaluations of its
    condition. *)
Fixpoint select_loop (fuel : nat) (cur : list bool) (K operatorId nTries : Z)
    : option Z :=
  match fuel with
  | O => None
  | S fuel' =>
      c ← rd cur operatorId;
      if negb c && bool_decide (nTries < K)
      then select_loop fuel' cur K (to_uint (operatorId + 1) mod K)
                       (to_uint (nTries + 1))
      else Some operatorId
  end.

Definition DARWIN_SelectOperator (fuel : nat) (seed : Z) (w : world)
    : option (Z * world) :=
  let '(st, g) := w in
  let '(r, g) := rand_32_int (MutationOperatorsNum st) g in
  let operatorId := to_uint r in
  c ← rd (_currentRelativeProb st) seed;
  cur ← rd2 (_individual st) seed c;
  operatorId ← select_loop fuel cur (MutationOperatorsNum st) operatorId 0;
  Some (to_int operatorId, (st, g)).

(** ** DARWIN_NotifyFeedback *)

(** Lines 110-117: record the fitness, update the elite of the bucket,
    move to the next candidate. *)
Definition evaluate_candidate (seed numPaths : Z) (st : darwin) : option darwin :=
  nxt ← rd (_nextToEvaluate st) seed;
  F ← wr2 (_Fitness st) seed nxt (to_int numPaths);
  let st := set_Fitness F st in
  nxt ← rd (_nextToEvaluate st) seed;
  fx ← rd2 (_Fitness st) seed nxt;
  bi ← rd2 (_bestIndex st) seed (to_uint (nxt * N) / M);
  fb ← rd2 (_Fitness st) seed bi;
  st ← (if decide (fb < fx) then
          B ← wr2 (_bestIndex st) seed (to_uint (nxt * N) / M) nxt;
          Some (set_bestIndex B st)
        else Some st);
  nxt ← rd (_nextToEvaluate st) seed;
  NE ← wr (_nextToEvaluate st) seed (to_uint (nxt + 1));
  Some (set_nextToEvaluate NE st).

Definition elite_sum (seed i : Z) (st : darwin) (j : Z) (sum : Z) : option Z :=
  bj ← rd2 (_bestIndex st) seed j;
  v ← rd3 (_individual st) seed bj i;
  Some (to_int (sum + Z.b2z v)).

Definition clamp_sum (sum : Z) : Z :=
  let sum := if decide (to_uint sum = N) then to_int (sum - 1) else sum in
  if decide (sum = 0) then to_int (sum + 1) else sum.

Definition smooth (pi : double) (sum : Z) : double :=
  dadd (dmul (dsub (Z2D 1) LEARNING_RATE) pi)
       (ddiv (dmul LEARNING_RATE (Z2D sum)) (Z2D N)).

Definition update_p (seed i : Z) (st : darwin) : option darwin :=
  sum ← for_ (Z.to_nat N) 0 (elite_sum seed i st) 0;
  let sum := clamp_sum sum in
  pi ← rd2 (p st) seed i;
  P ← wr2 (p st) seed i (smooth pi sum);
  Some (set_p P st).

(** Lines 121-142: the block run when all children are evaluated. *)
Definition generation_boundary (seed : Z) (st : darwin) : option darwin :=
  st ← for_ (Z.to_nat (MutationOperatorsNum st)) 0 (update_p seed) st;
  NE ← wr (_nextToEvaluate st) seed 0;
  let st := set_nextToEvaluate NE st in
  st ← for_ (Z.to_nat N) 0 (seed_bestIndex seed) st;
  memset_Fitness seed st.

Definition sample_bit (seed i : Z) (w : world) : option world :=
  let '(st, g) := w in
  let '(r, g) := rand_32_double g in
  pi ← rd2 (p st) seed i;
  c ← rd (_currentRelativeProb st) seed;
  I ← wr3 (_individual st) seed c i (dlt r pi);
  Some (set_individual I st, g).

(** Lines 146-152: generate the next candidate. *)
Definition next_candidate (seed : Z) (w : world) : option world :=
  let '(st, g) := w in
  nxt ← rd (_nextToEvaluate st) seed;
  if decide (nxt < M) then
    _ ← rd2 (_individual st) seed nxt;
    C ← wr (_currentRelativeProb st) seed nxt;
    let st := set_currentRelativeProb C st in
    for_ (Z.to_nat (MutationOperatorsNum st)) 0 (sample_bit seed) (st, g)
  else Some (st, g).

Definition DARWIN_NotifyFeedback (seed numPaths : Z) (w : world) : option world :=
  let '(st, g) := w in
  st ← evaluate_candidate seed numPaths st;
  nxt ← rd (_nextToEvaluate st) seed;
  st ← (if decide (nxt = M) then generation_boundary seed st else Some st);
  next_candidate seed (st, g).

(** ** Calls made by the fuzzer loop *)

Inductive call : Type :=
  | Select (fuel : nat) (seed : Z)
  | Notify (seed numPaths : Z).

Inductive step : call → world → world → Prop :=
  | step_select fuel seed w op w' :
      DARWIN_SelectOperator fuel seed w = Some (op, w') →
      step (Select fuel seed) w w'
  | step_notify seed numPaths w w' :
      DARWIN_NotifyFeedback seed numPaths w = Some w' →
      step (Notify seed numPaths) w w'.

(** [steps w cs w']: the calls [cs], in order, lead from [w] to [w']. *)
Inductive steps : world → list call → world → Prop :=
  | steps_nil w : steps w [] w
  | steps_snoc w cs w1 c w2 : steps w cs w1 → step c w1 w2 → steps w (cs ++ [c]) w2.

(** Number of [DARWIN_NotifyFeedback] calls for [seed] among [cs]. *)
Fixpoint notified (seed : Z) (cs : list call) : Z :=
  match cs with
  | [] => 0
  | Notify s _ :: cs' => (if decide (s = seed) then 1 else 0) + notified seed cs'
  | Select _ _ :: cs' => notified seed cs'
  end.

End Engine.

Arguments world RNG : clear implicits.
Arguments init_random_bit {RNG} rand RAND_MAX seed i w.
Arguments init_seed {RNG} rand RAND_MAX junk seed w.
Arguments DARWIN_init {RNG} rand_init rand RAND_MAX junk nr_seeds nr_mutations g.
Arguments DARWIN_SelectOperator {RNG} rand_32_int fuel seed w.
Arguments sample_bit {RNG} rand_32_double seed i w.
Arguments next_candidate {RNG} rand_32_double seed w.
Arguments DARWIN_NotifyFeedback {RNG} rand_32_double seed numPaths w.
Arguments step {RNG} rand_32_int rand_32_double c w w'.
Arguments steps {RNG} rand_32_int rand_32_double w cs w'.

(* ================================================================= *)
(** * The state of one seed *)

(** The rows that the globals hold for one seed.  The operations on one
    seed only touch these rows; [v_]-prefixed functions below are the
    engine's blocks read on the rows of the seed. *)
Record seed_view : Type := {
  vFitness : list Z;
  vBest : list Z;
  vNext : Z;
  vInd : list (list bool);
  vCur : Z;
  vP : list double
}.

Definition get_seed (st : darwin) (seed : Z) : option seed_view :=
  F ← rd (_Fitness st) seed;
  B ← rd (_bestIndex st) seed;
  n ← rd (_nextToEvaluate st) seed;
  I ← rd (_individual st) seed;
  c ← rd (_currentRelativeProb st) seed;
  P ← rd (p st) seed;
  Some {| vFitness := F; vBest := B; vNext := n; vInd := I; vCur := c; vP := P |}.

Definition put_seed (st : darwin) (seed : Z) (v : seed_view) : darwin :=
  {| MutationOperatorsNum := MutationOperatorsNum st;
     _Fitness := <[Z.to_nat seed := vFitness v]> (_Fitness st);
     _bestIndex := <[Z.to_nat seed := vBest v]> (_bestIndex st);
     _nextToEvaluate := <[Z.to_nat seed := vNext v]> (_nextToEvaluate st);
     _individual := <[Z.to_nat seed := vInd v]> (_individual st);
     _currentRelativeProb := <[Z.to_nat seed := vCur v]> (_currentRelativeProb st);
     p := <[Z.to_nat seed := vP v]> (p st) |}.

(** [seed] indexes every global array. *)
Definition seed_ok (st : darwin) (seed : Z) : Prop :=
  0 ≤ seed ∧
  seed < Z.of_nat (length (_Fitness st)) ∧
  seed < Z.of_nat (length (_bestIndex st)) ∧
  seed < Z.of_nat (length (_nextToEvaluate st)) ∧
  seed < Z.of_nat (length (_individual st)) ∧
  seed < Z.of_nat (length (_currentRelativeProb st)) ∧
  seed < Z.of_nat (length (p st)).

Definition vset_Fitness (x : list Z) (v : seed_view) : seed_view :=
  {| vFitness := x; vBest := vBest v; vNext := vNext v; vInd := vInd v;
     vCur := vCur v; vP := vP v |}.
Definition vset_Best (x : list Z) (v : seed_view) : seed_view :=
  {| vFitness := vFitness v; vBest := x; vNext := vNext v; vInd := vInd v;
     vCur := vCur v; vP := vP v |}.
Definition vset_Next (x : Z) (v : seed_view) : seed_view :=
  {| vFitness := vFitness v; vBest := vBest v; vNext := x; vInd := vInd v;
     vCur := vCur v; vP := vP v |}.
Definition vset_Ind (x : list (list bool)) (v : seed_view) : seed_view :=
  {| vFitness := vFitness v; vBest := vBest v; vNext := vNext v; vInd := x;
     vCur := vCur v; vP := vP v |}.
Definition vset_Cur (x : Z) (v : seed_view) : seed_view :=
  {| vFitness := vFitness v; vBest := vBest v; vNext := vNext v; vInd := vInd v;
     vCur := x; vP := vP v |}.
Definition vset_P (x : list double) (v : seed_view) : seed_view :=
  {| vFitness := vFitness v; vBest := vBest v; vNext := vNext v; vInd := vInd v;
     vCur := vCur v; vP := x |}.

Definition v_evaluate_candidate (numPaths : Z) (v : seed_view) : option seed_view :=
  F ← wr (vFitness v) (vNext v) (to_int numPaths);
  let v := vset_Fitness F v in
  fx ← rd (vFitness v) (vNext v);
  bi ← rd (vBest v) (to_uint (vNext v * N) / M);
  fb ← rd (vFitness v) bi;
  v ← (if decide (fb < fx) then
         B ← wr (vBest v) (to_uint (vNext v * N) / M) (vNext v);
         Some (vset_Best B v)
       else Some v);
  Some (vset_Next (to_uint (vNext v + 1)) v).

Definition v_elite_sum (i : Z) (v : seed_view) (j : Z) (sum : Z) : option Z :=
  bj ← rd (vBest v) j;
  x ← rd2 (vInd v) bj i;
  Some (to_int (sum + Z.b2z x)).

Definition v_update_p (i : Z) (v : seed_view) : option seed_view :=
  sum ← for_ (Z.to_nat N) 0 (v_elite_sum i v) 0;
  pi ← rd (vP v) i;
  P ← wr (vP v) i (smooth pi (clamp_sum sum));
  Some (vset_P P v).

Definition v_seed_bestIndex (i : Z) (v : seed_view) : option seed_view :=
  B ← wr (vBest v) i (to_uint (5 * i));
  Some (vset_Best B v).

Definition v_memset_Fitness (v : seed_view) : option seed_view :=
  F ← memset0 (vFitness v) M;
  Some (vset_Fitness F v).

Definition v_generation_boundary (K : Z) (v : seed_view) : option seed_view :=
  v ← for_ (Z.to_nat K) 0 v_update_p v;
  let v := vset_Next 0 v in
  v ← for_ (Z.to_nat N) 0 v_seed_bestIndex v;
  v_memset_Fitness v.

Definition v_sample_bit {RNG} (rand_32_double : RNG → double * RNG)
    (i : Z) (w : seed_view * RNG) : option (seed_view * RNG) :=
  let '(v, g) := w in
  let '(r, g) := rand_32_double g in
  pi ← rd (vP v) i;
  I ← wr2 (vInd v) (vCur v) i (dlt r pi);
  Some (vset_Ind I v, g).

Definition v_next_candidate {RNG} (rand_32_double : RNG → double * RNG)
    (K : Z) (w : seed_view * RNG) : option (seed_view * RNG) :=
  let '(v, g) := w in
  if decide (vNext v < M) then
    _ ← rd (vInd v) (vNext v);
    let v := vset_Cur (vNext v) v in
    for_ (Z.to_nat K) 0 (v_sample_bit rand_32_double) (v, g)
  else Some (v, g).

Definition v_NotifyFeedback {RNG} (rand_32_double : RNG → double * RNG)
    (K numPaths : Z) (w : seed_view * RNG) : option (seed_view * RNG) :=
  let '(v, g) := w in
  v ← v_evaluate_candidate numPaths v;
  v ← (if decide (vNext v = M) then v_generation_boundary K v else Some v);
  v_next_candidate rand_32_double K (v, g).

Definition v_init_random_bit {RNG} (rand : RNG → Z * RNG) (RAND_MAX : Z)
    (i : Z) (w : seed_view * RNG) : option (seed_view * RNG) :=
  let '(v, g) := w in
  let '(r, g) := rand g in
  I ← wr2 (vInd v) 0 i (bool_decide (RAND_MAX / 2 < r));
  Some (vset_Ind I v, g).

Definition v_init_individual_row (junk : uninit) (K seed i : Z) (v : seed_view)
    : option seed_view :=
  I ← wr (vInd v) i (malloc K (junk_individual junk seed i));
  Some (vset_Ind I v).

Definition v_init_p (i : Z) (v : seed_view) : option seed_view :=
  P ← wr (vP v) i (tenths 5);
  Some (vset_P P v).

Definition v_init_seed {RNG} (rand : RNG → Z * RNG) (RAND_MAX : Z)
    (junk : uninit) (K seed : Z) (w : seed_view * RNG) : option (seed_view * RNG) :=
  let '(v, g) := w in
  let v := vset_Next 0 v in
  let v := vset_Fitness (malloc M (junk_Fitness junk seed)) v in
  let v := vset_Best (malloc N (junk_bestIndex junk seed)) v in
  let v := vset_P (malloc K (junk_p junk seed)) v in
  let v := vset_Ind (malloc M (λ _, [])) v in
  v ← for_ (Z.to_nat M) 0 (v_init_individual_row junk K seed) v;
  v ← v_memset_Fitness v;
  v ← for_ (Z.to_nat K) 0 v_init_p v;
  v ← for_ (Z.to_nat N) 0 v_seed_bestIndex v;
  '(v, g) ← for_ (Z.to_nat K) 0 (v_init_random_bit rand RAND_MAX) (v, g);
  _ ← rd (vInd v) (vNext v);
  Some (vset_Cur (vNext v) v, g).

(** The rows of a seed put back into the state, next to the generator. *)
Definition put_world {RNG} (st : darwin) (seed : Z) (w : seed_view * RNG) : world RNG :=
  (put_seed st seed w.1, w.2).

(* ================================================================= *)
(** * The random draws of a candidate *)

(** The bits of a candidate drawn against the probabilities [ps], one
    [rand_32_double] draw per operator, in order. *)
Fixpoint sample_row {RNG} (rand_32_double : RNG → double * RNG)
    (ps : list double) (g : RNG) : list bool * RNG :=
  match ps with
  | [] => ([], g)
  | pi :: ps' =>
      let '(r, g) := rand_32_double g in
      let '(row, g) := sample_row rand_32_double ps' g in
      (dlt r pi :: row, g)
  end.

(** The flags of the first candidate of a seed (lines 73-76): one draw of
    [rand] per operator, in order; a flag is on when the draw is above
    [RAND_MAX / 2]. *)
Fixpoint init_flags {RNG} (rand : RNG → Z * RNG) (RAND_MAX : Z) (k : nat) (g : RNG)
    : list bool * RNG :=
  match k with
  | O => ([], g)
  | S k' =>
      let '(r, g) := rand g in
      let '(row, g) := init_flags rand RAND_MAX k' g in
      (bool_decide (RAND_MAX / 2 < r) :: row, g)
  end.

(** The generator when [DARWIN_init] reaches [seed]: [rand_init], then the
    draws of the seeds before it. *)
Definition init_generator {RNG} (rand_init : RNG → RNG) (rand : RNG → Z * RNG)
    (RAND_MAX : Z) (K : Z) (g : RNG) (seed : Z) : RNG :=
  Nat.iter (Z.to_nat seed) (λ g, (init_flags rand RAND_MAX (Z.to_nat K) g).2) (rand_init g).

(* ================================================================= *)
(** * Invariants *)

Definition normal_mant (m : positive) : Prop := 2 ^ 52 ≤ Zpos m < 2 ^ 53.

(** Value of a positive finite double, scaled by [2^200]. *)
Definition dval (m : positive) (e : Z) : Z := Zpos m * 2 ^ (e + 200).

(** A normal double in [[1/8, 1]]. *)
Definition prob_ok (x : double) : Prop :=
  ∃ m e, x = S754_finite false m e ∧ normal_mant m ∧ -56 ≤ e ≤ -52 ∧
         2 ^ 197 ≤ dval m e ≤ 2 ^ 200.

(** [x] is a double in [[0, 1]]. *)
Definition in_unit_interval (x : double) : Prop :=
  dle (Z2D 0) x = true ∧ dle x (Z2D 1) = true.

(** A normal double in [[0.2, 0.8]] (the doubles nearest to 0.2 and 0.8). *)
Definition prob_tight (x : double) : Prop :=
  ∃ m e, x = S754_finite false m e ∧ normal_mant m ∧ -56 ≤ e ≤ -52 ∧
         dval 7205759403792794 (-55) ≤ dval m e ≤ dval 7205759403792794 (-53).

(** Rows of a seed between the blocks of [DARWIN_NotifyFeedback]. *)
Record wf_mid (K : Z) (v : seed_view) : Prop := {
  wf_Fitness : length (vFitness v) = 20%nat;
  wf_Best_len : length (vBest v) = 4%nat;
  wf_Best : ∀ (b : nat) x, vBest v !! b = Some x → 5 * Z.of_nat b ≤ x < 5 * Z.of_nat b + 5;
  wf_Next : 0 ≤ vNext v ≤ 20;
  wf_Ind_len : length (vInd v) = 20%nat;
  wf_Ind : ∀ (j : nat) row, vInd v !! j = Some row → length row = Z.to_nat K;
  wf_P_len : length (vP v) = Z.to_nat K;
  wf_P : ∀ (i : nat) x, vP v !! i = Some x → prob_ok x
}.

(** Rows of a seed between two calls. *)
Record wf_view (K : Z) (v : seed_view) : Prop := {
  wf_view_mid : wf_mid K v;
  wf_view_Next : vNext v < 20;
  wf_view_Cur : vCur v = vNext v
}.

Definition wf (st : darwin) : Prop :=
  0 ≤ MutationOperatorsNum st < 2 ^ 32 ∧
  (∃ n : nat, length (_Fitness st) = n ∧ length (_bestIndex st) = n ∧
     length (_nextToEvaluate st) = n ∧ length (_individual st) = n ∧
     length (_currentRelativeProb st) = n ∧ length (p st) = n) ∧
  ∀ seed v, get_seed st seed = Some v → wf_view (MutationOperatorsNum st) v.

(** Elites of the seed that have operator [i] on. *)
Definition elite_count (v : seed_view) (i : Z) : Z :=
  foldr (λ bj acc, Z.b2z (default false (rd2 (vInd v) bj i)) + acc) 0 (vBest v).

(** The clamp of section 4.3 of the specification. *)
Definition spec_clamp (sum : Z) : Z :=
  if decide (sum = N) then N - 1 else if decide (sum = 0) then 1 else sum.

(** The elite of every bucket that has evaluated individuals is the first
    evaluated individual of the bucket with the greatest recorded fitness;
    the other buckets hold their placeholder.  The evaluated individuals
    are those below the cursor. *)
Definition elite_best (v : seed_view) : Prop :=
  ∀ (b : nat) bi, vBest v !! b = Some bi →
    if decide (5 * Z.of_nat b < vNext v) then
      5 * Z.of_nat b ≤ bi ∧ bi < vNext v ∧ bi < 5 * Z.of_nat b + 5 ∧
      ∀ (j : nat) fj fb,
        5 * Z.of_nat b ≤ Z.of_nat j → Z.of_nat j < vNext v →
        Z.of_nat j < 5 * Z.of_nat b + 5 →
        vFitness v !! j = Some fj → vFitness v !! Z.to_nat bi = Some fb →
        fj ≤ fb ∧ (Z.of_nat j < bi → fj < fb)
    else bi = 5 * Z.of_nat b.

(** What the loop over the operators has done after [j] iterations. *)
Record p_updated (v : seed_view) (j : Z) (v' : seed_view) : Prop := {
  pu_Fitness : vFitness v' = vFitness v;
  pu_Best : vBest v' = vBest v;
  pu_Next : vNext v' = vNext v;
  pu_Ind : vInd v' = vInd v;
  pu_Cur : vCur v' = vCur v;
  pu_len : length (vP v') = length (vP v);
  pu_done : ∀ (i : nat) x, Z.of_nat i < j → vP v !! i = Some x →
      vP v' !! i = Some (smooth x (spec_clamp (elite_count v (Z.of_nat i))));
  pu_todo : ∀ i : nat, j ≤ Z.of_nat i → vP v' !! i = vP v !! i
}.

(** What [DARWIN_init] has established for the seeds below [j]. *)
Record initialised (junk : uninit) (n K : Z) (j : Z) (st : darwin) : Prop := {
  in_K : MutationOperatorsNum st = K;
  in_len : length (_Fitness st) = Z.to_nat n ∧ length (_bestIndex st) = Z.to_nat n ∧
           length (_nextToEvaluate st) = Z.to_nat n ∧ length (_individual st) = Z.to_nat n ∧
           length (_currentRelativeProb st) = Z.to_nat n ∧ length (p st) = Z.to_nat n;
  in_seed : ∀ seed, 0 ≤ seed < j →
    ∃ v, get_seed st seed = Some v ∧ wf_view K v ∧ vNext v = 0 ∧
         vBest v = [0; 5; 10; 15] ∧ vP v = replicate (Z.to_nat K) (tenths 5) ∧
         vFitness v = replicate 5 0 ++ drop 5 (malloc M (junk_Fitness junk seed))
}.

(** What every reachable state satisfies. *)
Record reached (n K : Z) (cs : list call) (st : darwin) : Prop := {
  re_wf : wf st;
  re_K : MutationOperatorsNum st = K;
  re_len : length (_nextToEvaluate st) = Z.to_nat n;
  re_cursor : ∀ seed v, get_seed st seed = Some v → vNext v = notified seed cs mod M;
  re_init : cs = [] → ∀ seed v, get_seed st seed = Some v →
      vBest v = [0; 5; 10; 15] ∧ vP v = replicate (Z.to_nat K) (tenths 5)
}.

(** States reached from [DARWIN_init] by calls of the fuzzer loop. *)
Definition reachable {RNG} (rand_init : RNG → RNG) (rand : RNG → Z * RNG)
    (RAND_MAX : Z) (rand_32_int : Z → RNG → Z * RNG)
    (rand_32_double : RNG → double * RNG) (nr_seeds K : Z) (cs : list call)
    (w : world RNG) : Prop :=
  0 ≤ nr_seeds < 2 ^ 31 ∧ 0 ≤ K < 2 ^ 32 ∧
  ∃ junk g0 w0,
    DARWIN_init rand_init rand RAND_MAX junk nr_seeds K g0 = Some w0 ∧
    steps rand_32_int rand_32_double w0 cs w.

(* ================================================================= *)
(** * Running the engine *)

(** One call, as a function. *)
Definition exec {RNG} (rand_32_int : Z → RNG → Z * RNG)
    (rand_32_double : RNG → double * RNG) (c : call) (w : world RNG)
    : option (world RNG) :=
  match c with
  | Select fuel seed => snd <$> DARWIN_SelectOperator rand_32_int fuel seed w
  | Notify seed numPaths => DARWIN_NotifyFeedback rand_32_double seed numPaths w
  end.

Fixpoint run {RNG} (rand_32_int : Z → RNG → Z * RNG)
    (rand_32_double : RNG → double * RNG) (cs : list call) (w : world RNG)
    : option (world RNG) :=
  match cs with
  | [] => Some w
  | c :: cs' => w' ← exec rand_32_int rand_32_double c w;
                run rand_32_int rand_32_double cs' w'
  end.

(** A linear congruential generator standing for the external one. *)
Module Lcg.
Definition next (g : Z) : Z := (1103515245 * g + 12345) mod 2 ^ 31.
Definition rand_init (g : Z) : Z := g mod 2 ^ 31.
Definition RAND_MAX : Z := 2 ^ 31 - 1.
Definition rand (g : Z) : Z * Z := (g, next g).
Definition rand_32_int (n g : Z) : Z * Z := (g mod n, next g).
Definition rand_32_double (g : Z) : double * Z :=
  (binary_normalize prec emax g (-31) false, next g).
End Lcg.

Definition demo_junk : uninit :=
  {| junk_Fitness := λ _ _, 7;
     junk_bestIndex := λ _ _, 99;
     junk_nextToEvaluate := λ _, 99;
     junk_individual := λ _ _ _, true;
     junk_currentRelativeProb := λ _, 99;
     junk_p := λ _ _, S754_nan |}.

Definition no_world : world Z :=
  ({| MutationOperatorsNum := 0; _Fitness := []; _bestIndex := [];
      _nextToEvaluate := []; _individual := []; _currentRelativeProb := [];
      p := [] |}, 0).

Definition demo_init (nr_seeds K g : Z) : option (world Z) :=
  DARWIN_init Lcg.rand_init Lcg.rand Lcg.RAND_MAX demo_junk nr_seeds K g.

Definition demo_run (cs : list call) (w : world Z) : option (world Z) :=
  run Lcg.rand_32_int Lcg.rand_32_double cs w.

(** States of two seeds and three operators: after [DARWIN_init], after a
    few calls, one call before the end of the first generation of seed 0,
    and after that generation. *)
Definition demo_w0 : world Z := Eval vm_compute in default no_world (demo_init 2 3 1).
Definition demo_calls3 : list call := [Notify 0 1; Notify 0 5; Select 4 0; Notify 0 2].
Definition demo_w3 : world Z :=
  Eval vm_compute in default no_world (demo_run demo_calls3 demo_w0).
Definition demo_calls19 : list call := replicate 19 (Notify 0 1).
Definition demo_w19 : world Z :=
  Eval vm_compute in default no_world (demo_run demo_calls19 demo_w0).
Definition demo_calls : list call := replicate 20 (Notify 0 1).
Definition demo_w20 : world Z :=
  Eval vm_compute in default no_world (demo_run demo_calls demo_w0).

(** One seed, one operator; the candidate drawn by [DARWIN_init] is all
    off. *)
Definition demo_off : world Z := Eval vm_compute in default no_world (demo_init 1 1 1).

(** No operators: one seed, [DARWIN_init(1, 0)]. *)
Definition demo_none : world Z := Eval vm_compute in default no_world (demo_init 1 0 1).

(** One seed, one operator, one call before the end of the first
    generation. *)
Definition demo_calls_off19 : list call := replicate 19 (Notify 0 3).
Definition demo_off19 : world Z :=
  Eval vm_compute in default no_world (demo_run demo_calls_off19 demo_off).

(* ================================================================= *)
(** * Rounding in binary64 *)

Lemma digits2_pos_size m : digits2_pos m = Pos.size m.
Proof. induction m; simpl; congruence. Qed.

Lemma Zdigits2_log2 m : Zdigits2 (Zpos m) = Z.log2 (Zpos m) + 1.
Proof.
  simpl. rewrite digits2_pos_size. destruct m; simpl; lia.
Qed.

Lemma Zdigits2_unique m d :
  2 ^ (d - 1) <= Zpos m < 2 ^ d -> Zdigits2 (Zpos m) = d.
Proof.
  intros H. rewrite Zdigits2_log2.
  assert (0 <= d - 1).
  { destruct (Z_lt_le_dec (d - 1) 0) as [Hn|Hn]; [|lia].
    destruct (Z_lt_le_dec d 0) as [Hd|Hd].
    - rewrite (Z.pow_neg_r 2 d) in H by lia. lia.
    - replace d with 0 in H by lia. simpl in H. lia. }
  rewrite (Z.log2_unique (Zpos m) (d - 1)); [lia|lia|].
  replace (Z.succ (d - 1)) with d by lia. exact H.
Qed.

Lemma shr_1_m mrs : 0 <= shr_m mrs -> shr_m (shr_1 mrs) = shr_m mrs / 2.
Proof.
  destruct mrs as [m r s]. simpl. intros Hm.
  destruct m as [|q|q]; [done| |lia].
  destruct q; simpl.
  - rewrite Pos2Z.inj_xI. apply Z.div_unique with 1; lia.
  - rewrite Pos2Z.inj_xO. apply Z.div_unique with 0; lia.
  - done.
Qed.

Lemma iter_shr_1_m n mrs :
  0 <= shr_m mrs -> shr_m (SpecFloat.iter_pos shr_1 n mrs) = shr_m mrs / 2 ^ Zpos n.
Proof.
  revert mrs. induction n as [n IH|n IH|]; intros mrs Hm; simpl SpecFloat.iter_pos.
  - assert (H1 : 0 <= shr_m (shr_1 mrs)).
    { rewrite shr_1_m by done. apply Z.div_pos; lia. }
    assert (H2 : 0 <= shr_m (SpecFloat.iter_pos shr_1 n (shr_1 mrs))).
    { rewrite IH by done. apply Z.div_pos; lia. }
    rewrite IH, IH, shr_1_m by done.
    rewrite !Z.div_div by lia.
    f_equal. rewrite Pos2Z.inj_xI.
    replace (2 * Z.pos n + 1) with (1 + Z.pos n + Z.pos n) by lia.
    rewrite !Z.pow_add_r by lia. change (2 ^ 1) with 2. ring.
  - assert (H2 : 0 <= shr_m (SpecFloat.iter_pos shr_1 n mrs)).
    { rewrite IH by done. apply Z.div_pos; lia. }
    rewrite IH, IH by done.
    rewrite !Z.div_div by lia.
    f_equal. rewrite <- Z.pow_add_r by lia. f_equal. lia.
  - rewrite shr_1_m by done. done.
Qed.

Lemma shr_m_shift mrs e n :
  0 <= shr_m mrs -> 0 <= n ->
  shr_m (shr mrs e n).1 = shr_m mrs / 2 ^ n /\ (shr mrs e n).2 = e + n.
Proof.
  intros Hm Hn. destruct n as [|n|n]; simpl.
  - rewrite Z.div_1_r. split; [done|lia].
  - split; [|done]. by apply iter_shr_1_m.
  - lia.
Qed.

Lemma round_nearest_even_cases m l :
  round_nearest_even m l = m \/ round_nearest_even m l = m + 1.
Proof.
  destruct l as [|[]]; simpl; auto. destruct (Z.even m); auto.
Qed.

(** Faithful rounding of a positive integer mantissa with at least [prec]
    binary digits, away from the subnormal and overflow ranges. *)
Lemma binary_round_aux_faithful (M : positive) (E d : Z) :
  2 ^ (d - 1) <= Zpos M < 2 ^ d ->
  53 <= d -> -1074 <= d + E - 53 -> d + E <= 1023 ->
  exists (m' : positive) (e' : Z),
    binary_round_aux prec emax false (Zpos M) E loc_Exact = S754_finite false m' e' /\
    2 ^ 52 <= Zpos m' < 2 ^ 53 /\
    E + d - 53 <= e' <= E + d - 52 /\
    Zpos M - 2 ^ (d - 53) < Zpos m' * 2 ^ (e' - E) <= Zpos M + 2 ^ (d - 53).
Proof.
  intros HM Hd Hlo Hhi.
  unfold binary_round_aux, shr_fexp.
  rewrite (Zdigits2_unique M d HM).
  assert (Hk : fexp prec emax (d + E) - E = d - 53).
  { unfold fexp, emin, prec, emax. lia. }
  rewrite Hk. simpl shr_record_of_loc.
  set (r0 := {| shr_m := Zpos M; shr_r := false; shr_s := false |}).
  destruct (shr_m_shift r0 E (d - 53)) as [Hm1 He1]; [simpl; lia|lia|].
  destruct (shr r0 E (d - 53)) as [mrs1 e1]. simpl in Hm1, He1. subst e1.
  assert (Hpow : 2 ^ (d - 1) = 2 ^ 52 * 2 ^ (d - 53)).
  { rewrite <- Z.pow_add_r by lia. f_equal. lia. }
  assert (Hpow' : 2 ^ d = 2 ^ 53 * 2 ^ (d - 53)).
  { rewrite <- Z.pow_add_r by lia. f_equal. lia. }
  assert (Hpos : 0 < 2 ^ (d - 53)) by (apply Z.pow_pos_nonneg; lia).
  set (P := 2 ^ (d - 53)) in *.
  assert (Hq : 2 ^ 52 <= shr_m mrs1 < 2 ^ 53).
  { rewrite Hm1. split.
    - apply Z.div_le_lower_bound; lia.
    - apply Z.div_lt_upper_bound; lia. }
  assert (Hqm : Zpos M - P < shr_m mrs1 * P <= Zpos M).
  { rewrite Hm1. pose proof (Z.mul_div_le (Zpos M) P Hpos).
    pose proof (Z.mod_pos_bound (Zpos M) P Hpos).
    pose proof (Z.div_mod (Zpos M) P). lia. }
  set (m1 := round_nearest_even (shr_m mrs1) (loc_of_shr_record mrs1)).
  assert (Hm1' : m1 = shr_m mrs1 \/ m1 = shr_m mrs1 + 1)
    by apply round_nearest_even_cases.
  destruct (Z_lt_le_dec m1 (2 ^ 53)) as [Hlt|Hge].
  - (* no carry *)
    assert (Hdig : Zdigits2 m1 = 53).
    { destruct m1 as [|q|q]; try lia. apply Zdigits2_unique. lia. }
    rewrite Hdig.
    assert (Hk2 : fexp prec emax (53 + (E + (d - 53))) - (E + (d - 53)) = 0).
    { unfold fexp, emin, prec, emax. lia. }
    rewrite Hk2. simpl.
    destruct m1 as [|q|q] eqn:Eq; try lia.
    assert (Hle : (E + (d - 53) <=? emax - prec) = true).
    { unfold emax, prec. apply Z.leb_le. lia. }
    rewrite Hle. exists q, (E + (d - 53)).
    split; [done|]. split; [lia|]. split; [lia|].
    replace (E + (d - 53) - E) with (d - 53) by lia. fold P. lia.
  - (* carry into the next binade *)
    assert (Hm2 : m1 = 2 ^ 53) by lia.
    rewrite Hm2.
    change (Zdigits2 (2 ^ 53)) with 54.
    assert (Hk2 : fexp prec emax (54 + (E + (d - 53))) - (E + (d - 53)) = 1).
    { unfold fexp, emin, prec, emax. lia. }
    rewrite Hk2.
    change (shr_record_of_loc (2 ^ 53) loc_Exact)
      with {| shr_m := 2 ^ 53; shr_r := false; shr_s := false |}.
    cbn [shr SpecFloat.iter_pos].
    change (shr_1 {| shr_m := 2 ^ 53; shr_r := false; shr_s := false |})
      with {| shr_m := 2 ^ 52; shr_r := false; shr_s := false |}.
    cbn [shr_m]. change (2 ^ 52) with (Z.pos (2 ^ 52)) at 1.
    cbv iota beta.
    assert (Hle : (E + (d - 53) + 1 <=? emax - prec) = true).
    { unfold emax, prec. apply Z.leb_le. lia. }
    rewrite Hle. exists (2 ^ 52)%positive, (E + (d - 53) + 1).
    split; [done|]. split; [lia|]. split; [lia|].
    replace (E + (d - 53) + 1 - E) with (1 + (d - 53)) by lia.
    rewrite Z.pow_add_r by lia. fold P.
    change (2 ^ 1) with 2. lia.
Qed.

Lemma binary_round_aux_rel (M : positive) (E d : Z) :
  2 ^ (d - 1) <= Zpos M < 2 ^ d ->
  53 <= d -> -200 <= E -> d + E <= 1023 ->
  exists (m' : positive) (e' : Z),
    binary_round_aux prec emax false (Zpos M) E loc_Exact = S754_finite false m' e' /\
    normal_mant m' /\
    E + d - 53 <= e' <= E + d - 52 /\
    (2 ^ 52 - 1) * (Zpos M * 2 ^ (E + 200)) <= 2 ^ 52 * dval m' e'
      <= (2 ^ 52 + 1) * (Zpos M * 2 ^ (E + 200)).
Proof.
  intros HM Hd HE Hhi.
  destruct (binary_round_aux_faithful M E d HM Hd) as (m' & e' & Heq & Hn & He & Hv);
    [lia|lia|].
  exists m', e'. split; [done|]. split; [done|]. split; [done|].
  unfold dval.
  replace (e' + 200) with ((e' - E) + (E + 200)) by lia.
  rewrite (Z.pow_add_r 2 (e' - E) (E + 200)) by lia.
  assert (HT : 0 < 2 ^ (E + 200)) by (apply Z.pow_pos_nonneg; lia).
  assert (HP : 2 ^ 52 * 2 ^ (d - 53) <= Zpos M).
  { rewrite <- Z.pow_add_r by lia. replace (52 + (d - 53)) with (d - 1) by lia. lia. }
  set (T := 2 ^ (E + 200)) in *. set (R := Zpos m' * 2 ^ (e' - E)) in *.
  set (P := 2 ^ (d - 53)) in *.
  replace (Zpos m' * (2 ^ (e' - E) * T)) with (R * T) by (unfold R; ring).
  split.
  - replace ((2 ^ 52 - 1) * (Z.pos M * T)) with (((2 ^ 52 - 1) * Z.pos M) * T) by ring.
    replace (2 ^ 52 * (R * T)) with ((2 ^ 52 * R) * T) by ring.
    apply Z.mul_le_mono_nonneg_r; lia.
  - replace ((2 ^ 52 + 1) * (Z.pos M * T)) with (((2 ^ 52 + 1) * Z.pos M) * T) by ring.
    replace (2 ^ 52 * (R * T)) with ((2 ^ 52 * R) * T) by ring.
    apply Z.mul_le_mono_nonneg_r; lia.
Qed.

Lemma Zdigits2_spec (M : positive) :
  2 ^ (Zdigits2 (Zpos M) - 1) <= Zpos M < 2 ^ Zdigits2 (Zpos M).
Proof.
  rewrite Zdigits2_log2.
  replace (Z.log2 (Z.pos M) + 1 - 1) with (Z.log2 (Z.pos M)) by lia.
  apply Z.log2_spec. lia.
Qed.

Lemma Zdigits2_ge (M : positive) n : 0 <= n -> 2 ^ n <= Zpos M -> n + 1 <= Zdigits2 (Zpos M).
Proof.
  intros Hn H. rewrite Zdigits2_log2.
  apply Z.log2_le_mono in H. rewrite Z.log2_pow2 in H by lia. lia.
Qed.

Lemma Zdigits2_le (M : positive) n : 0 <= n -> Zpos M < 2 ^ n -> Zdigits2 (Zpos M) <= n.
Proof.
  intros Hn H. rewrite Zdigits2_log2.
  apply Z.log2_lt_pow2 in H; lia.
Qed.

Lemma SFmul_rel m1 e1 m2 e2 :
  normal_mant m1 -> normal_mant m2 ->
  -100 <= e1 <= 0 -> -100 <= e2 <= 0 ->
  exists m' e',
    SFmul prec emax (S754_finite false m1 e1) (S754_finite false m2 e2)
      = S754_finite false m' e' /\
    normal_mant m' /\ e1 + e2 + 52 <= e' <= e1 + e2 + 54 /\
    (2 ^ 52 - 1) * (dval m1 e1 * dval m2 e2) <= 2 ^ 252 * dval m' e'
      <= (2 ^ 52 + 1) * (dval m1 e1 * dval m2 e2).
Proof.
  unfold normal_mant. intros H1 H2 He1 He2.
  cbn [SFmul xorb].
  assert (HM : 2 ^ 104 <= Zpos (m1 * m2) < 2 ^ 106).
  { rewrite Pos2Z.inj_mul. change (2 ^ 104) with (2 ^ 52 * 2 ^ 52).
    change (2 ^ 106) with (2 ^ 53 * 2 ^ 53). split.
    - apply Z.mul_le_mono_nonneg; lia.
    - apply Z.mul_lt_mono_nonneg; lia. }
  pose proof (Zdigits2_spec (m1 * m2)) as Hd.
  pose proof (Zdigits2_ge (m1 * m2) 104 ltac:(lia) ltac:(lia)) as Hd1.
  pose proof (Zdigits2_le (m1 * m2) 106 ltac:(lia) ltac:(lia)) as Hd2.
  set (d := Zdigits2 (Zpos (m1 * m2))) in *.
  destruct (binary_round_aux_rel (m1 * m2) (e1 + e2) d Hd) as (m' & e' & Heq & Hn & He & Hv);
    [lia|lia|lia|].
  exists m', e'. split; [done|]. split; [done|]. split; [lia|].
  assert (Hs : dval m1 e1 * dval m2 e2 = Zpos (m1 * m2) * 2 ^ (e1 + e2 + 200) * 2 ^ 200).
  { unfold dval. rewrite Pos2Z.inj_mul.
    assert (Hp : 2 ^ (e1 + 200) * 2 ^ (e2 + 200) = 2 ^ (e1 + e2 + 200) * 2 ^ 200).
    { rewrite <- !Z.pow_add_r by lia. f_equal. lia. }
    transitivity (Zpos m1 * Zpos m2 * (2 ^ (e1 + 200) * 2 ^ (e2 + 200))); [ring|].
    rewrite Hp. ring. }
  rewrite Hs. change (2 ^ 252) with (2 ^ 200 * 2 ^ 52). lia.
Qed.

Lemma Pos_iter_xO (m d : positive) : Zpos (Pos.iter xO m d) = Zpos m * 2 ^ Zpos d.
Proof.
  induction d as [|d IH] using Pos.peano_ind.
  - simpl. lia.
  - rewrite Pos.iter_succ, Pos2Z.inj_xO, IH, Pos2Z.inj_succ, Z.pow_succ_r by lia. ring.
Qed.

Lemma shl_align_fst mx ex ez :
  ez <= ex -> Zpos (shl_align mx ex ez).1 = Zpos mx * 2 ^ (ex - ez).
Proof.
  intros H. unfold shl_align.
  destruct (ez - ex) as [|q|q] eqn:E; simpl.
  - replace (ex - ez) with 0 by lia. lia.
  - lia.
  - rewrite Pos_iter_xO. f_equal. f_equal. lia.
Qed.

Lemma SFadd_rel m1 e1 m2 e2 :
  normal_mant m1 -> normal_mant m2 ->
  -150 <= e1 <= 0 -> -150 <= e2 <= 0 ->
  exists m' e',
    SFadd prec emax (S754_finite false m1 e1) (S754_finite false m2 e2)
      = S754_finite false m' e' /\
    normal_mant m' /\ Z.min e1 e2 <= e' <= Z.max e1 e2 + 2 /\
    (2 ^ 52 - 1) * (dval m1 e1 + dval m2 e2) <= 2 ^ 52 * dval m' e'
      <= (2 ^ 52 + 1) * (dval m1 e1 + dval m2 e2).
Proof.
  unfold normal_mant. intros H1 H2 He1 He2.
  cbn [SFadd cond_Zopp].
  set (ez := Z.min e1 e2).
  pose proof (shl_align_fst m1 e1 ez ltac:(lia)) as Ha1.
  pose proof (shl_align_fst m2 e2 ez ltac:(lia)) as Ha2.
  set (a1 := (shl_align m1 e1 ez).1) in *.
  set (a2 := (shl_align m2 e2 ez).1) in *.
  change (Z.pos a1 + Z.pos a2) with (Z.pos (a1 + a2)).
  cbn [binary_normalize]. unfold binary_round.
  assert (Hp1 : 1 <= 2 ^ (e1 - ez)) by (apply (Z.pow_le_mono_r 2 0); lia).
  assert (Hp2 : 1 <= 2 ^ (e2 - ez)) by (apply (Z.pow_le_mono_r 2 0); lia).
  assert (Hq1 : 2 ^ (e1 - ez) <= 2 ^ (Z.max e1 e2 - ez)) by (apply Z.pow_le_mono_r; lia).
  assert (Hq2 : 2 ^ (e2 - ez) <= 2 ^ (Z.max e1 e2 - ez)) by (apply Z.pow_le_mono_r; lia).
  assert (HS : 2 ^ 52 <= Zpos (a1 + a2) < 2 ^ (54 + (Z.max e1 e2 - ez))).
  { rewrite Pos2Z.inj_add, Ha1, Ha2, Z.pow_add_r by lia.
    set (X := 2 ^ (Z.max e1 e2 - ez)) in *. nia. }
  pose proof (Zdigits2_spec (a1 + a2)) as Hd.
  pose proof (Zdigits2_ge (a1 + a2) 52 ltac:(lia) ltac:(lia)) as Hd1.
  pose proof (Zdigits2_le (a1 + a2) (54 + (Z.max e1 e2 - ez)) ltac:(lia) ltac:(lia)) as Hd2.
  change (Z.pos (digits2_pos (a1 + a2))) with (Zdigits2 (Zpos (a1 + a2))).
  set (d := Zdigits2 (Zpos (a1 + a2))) in *.
  assert (Hal : shl_align (a1 + a2) ez (fexp prec emax (d + ez)) = ((a1 + a2)%positive, ez)).
  { unfold shl_align. 
    assert (0 <= fexp prec emax (d + ez) - ez) by (unfold fexp, emin, prec, emax; lia).
    destruct (fexp prec emax (d + ez) - ez); try done; lia. }
  rewrite Hal.
  destruct (binary_round_aux_rel (a1 + a2) ez d Hd) as (m' & e' & Heq & Hn & He & Hv);
    [lia|lia|lia|].
  exists m', e'. split; [done|]. split; [done|]. split; [lia|].
  assert (Hs : dval m1 e1 + dval m2 e2 = Zpos (a1 + a2) * 2 ^ (ez + 200)).
  { unfold dval. rewrite Pos2Z.inj_add, Ha1, Ha2.
    replace (e1 + 200) with ((e1 - ez) + (ez + 200)) by lia.
    replace (e2 + 200) with ((e2 - ez) + (ez + 200)) by lia.
    rewrite (Z.pow_add_r 2 (e1 - ez)), (Z.pow_add_r 2 (e2 - ez)) by lia. ring. }
  rewrite Hs. done.
Qed.

Lemma dval_exponent m e :
  normal_mant m -> -150 <= e <= 10 -> 2 ^ 197 <= dval m e <= 2 ^ 200 -> -56 <= e <= -52.
Proof.
  unfold normal_mant, dval. intros Hm He Hv.
  destruct (Z_lt_le_dec e (-56)) as [Hlo|Hlo].
  { assert (2 ^ (e + 200) <= 2 ^ 143) by (apply Z.pow_le_mono_r; lia).
    assert (0 < 2 ^ (e + 200)) by (apply Z.pow_pos_nonneg; lia).
    assert (Z.pos m * 2 ^ (e + 200) <= 2 ^ 53 * 2 ^ 143) by (apply Z.mul_le_mono_nonneg; lia).
    change (2 ^ 53 * 2 ^ 143) with (2 ^ 196) in *. lia. }
  destruct (Z_lt_le_dec (-52) e) as [Hhi|Hhi]; [|lia].
  assert (2 ^ 149 <= 2 ^ (e + 200)) by (apply Z.pow_le_mono_r; lia).
  assert (2 ^ 52 * 2 ^ 149 <= Z.pos m * 2 ^ (e + 200)) by (apply Z.mul_le_mono_nonneg; lia).
  change (2 ^ 52 * 2 ^ 149) with (2 ^ 201) in *. lia.
Qed.

Lemma smooth_ok x s : prob_ok x -> 1 <= s <= 3 -> prob_ok (smooth x s).
Proof.
  intros (m & e & -> & Hm & He & Hv) Hs. unfold smooth.
  set (c := ddiv (dmul LEARNING_RATE (Z2D s)) (Z2D N)).
  change (dsub (Z2D 1) LEARNING_RATE) with (S754_finite false 6305039478318694 (-53)).
  unfold dmul, dadd.
  destruct (SFmul_rel 6305039478318694 (-53) m e) as (m1 & e1 & Hq1 & Hm1 & He1 & Hv1);
    [unfold normal_mant; lia|done|lia|lia|].
  rewrite Hq1. clear Hq1.
  assert (Hc : exists mc ec, c = S754_finite false mc ec
              /\ normal_mant mc /\ -56 <= ec <= -55 /\
              2 ^ 200 * 3 <= 40 * dval mc ec + 2 ^ 150 /\ 40 * dval mc ec <= 2 ^ 200 * 9 + 2 ^ 150).
  { assert (s = 1 \/ s = 2 \/ s = 3) as [ -> | [ -> | -> ] ] by lia;
      subst c; eexists _, _; (split; [vm_compute; reflexivity|]); unfold normal_mant, dval;
      repeat split; vm_compute; first [reflexivity | discriminate]. }
  destruct Hc as (mc & ec & Hqc & Hmc & Hec & Hvc). rewrite Hqc. clear Hqc.
  destruct (SFadd_rel m1 e1 mc ec) as (m2 & e2 & Hq2 & Hm2 & He2 & Hv2);
    [done|done|lia|lia|].
  rewrite Hq2. clear Hq2.
  exists m2, e2. split; [done|]. split; [done|].
  change (dval 6305039478318694 (-53)) with (6305039478318694 * 2 ^ 147) in Hv1.
  assert (Hv' : 2 ^ 197 <= dval m2 e2 <= 2 ^ 200).
  { set (v := dval m e) in *. set (v1 := dval m1 e1) in *. set (vc := dval mc ec) in *.
    set (v2 := dval m2 e2) in *. lia. }
  split; [|done].
  apply (dval_exponent m2); [done|lia|done].
Qed.

(* ================================================================= *)
(** * Arrays, loops and the rows of a seed *)

Section ArrayLemmas.
Context {A : Type}.
Implicit Types (a : list A) (i : Z) (x : A).

Lemma rd_Some a i x :
  rd a i = Some x ↔ 0 ≤ i ∧ a !! Z.to_nat i = Some x.
Proof.
  unfold rd. destruct (decide (0 ≤ i)) as [Hi|Hi].
  - split; [by intros ?|by intros [_ ?]].
  - split; [done|by intros [? _]].
Qed.

Lemma rd_bound a i x : rd a i = Some x → 0 ≤ i < Z.of_nat (length a).
Proof.
  intros [H0 H]%rd_Some. apply lookup_lt_Some in H. lia.
Qed.

Lemma rd_is_Some a i : 0 ≤ i < Z.of_nat (length a) → is_Some (rd a i).
Proof.
  intros H. unfold rd. rewrite decide_True by lia.
  apply lookup_lt_is_Some. lia.
Qed.

Lemma rd_nat a (n : nat) : rd a (Z.of_nat n) = a !! n.
Proof. unfold rd. rewrite decide_True by lia. by rewrite Nat2Z.id. Qed.

Lemma wr_ok a i x :
  0 ≤ i < Z.of_nat (length a) → wr a i x = Some (<[Z.to_nat i := x]> a).
Proof. intros H. unfold wr. by rewrite decide_True. Qed.

Lemma wr_Some a i x a' :
  wr a i x = Some a' ↔ 0 ≤ i < Z.of_nat (length a) ∧ a' = <[Z.to_nat i := x]> a.
Proof.
  unfold wr. destruct (decide (0 ≤ i < Z.of_nat (length a))) as [Hi|Hi].
  - split; [by intros [= <-]|by intros [_ ->]].
  - split; [done|by intros [? _]].
Qed.

Lemma rd_insert_eq a i x :
  0 ≤ i < Z.of_nat (length a) → rd (<[Z.to_nat i := x]> a) i = Some x.
Proof.
  intros H. unfold rd. rewrite decide_True by lia.
  apply list_lookup_insert_eq. lia.
Qed.

Lemma rd_insert_ne a i j x :
  0 ≤ i → 0 ≤ j → i ≠ j → rd (<[Z.to_nat i := x]> a) j = rd a j.
Proof.
  intros Hi Hj Hne. unfold rd. rewrite !decide_True by lia.
  apply list_lookup_insert_ne. lia.
Qed.

Lemma wr_insert_eq a i x y :
  0 ≤ i < Z.of_nat (length a) →
  wr (<[Z.to_nat i := y]> a) i x = Some (<[Z.to_nat i := x]> a).
Proof.
  intros H. unfold wr. rewrite length_insert, decide_True by lia.
  by rewrite list_insert_insert_eq.
Qed.

End ArrayLemmas.

Lemma for_ext {St} (f g : Z → St → option St) n i s :
  (∀ j t, f j t = g j t) → for_ n i f s = for_ n i g s.
Proof.
  intros H. revert i s. induction n as [|n IH]; intros i s; simpl; [done|].
  rewrite H. destruct (g i s); simpl; [apply IH|done].
Qed.

(** A loop over the state runs on the rows of the seed. *)
Lemma for_lift {St V} (emb : V → St) (f : Z → St → option St) (g : Z → V → option V) n i v :
  (∀ j t, f j (emb t) = emb <$> g j t) →
  for_ n i f (emb v) = emb <$> for_ n i g v.
Proof.
  intros H. revert i v. induction n as [|n IH]; intros i v; simpl; [done|].
  rewrite H. destruct (g i v); simpl; [apply IH|done].
Qed.

Ltac open_seed H :=
  destruct H as (?Hs0 & ?HsF & ?HsB & ?HsN & ?HsI & ?HsC & ?HsP).

Ltac fields :=
  cbn [put_seed set_Fitness set_bestIndex set_nextToEvaluate set_individual
       set_currentRelativeProb set_p MutationOperatorsNum _Fitness _bestIndex
       _nextToEvaluate _individual _currentRelativeProb p
       vset_Fitness vset_Best vset_Next vset_Ind vset_Cur vset_P
       vFitness vBest vNext vInd vCur vP
       mbind option_bind fmap option_fmap option_map fst snd].

Ltac lift_arrays :=
  repeat first
    [ rewrite rd_insert_eq by lia
    | rewrite wr_insert_eq by lia
    | progress fields ].

Ltac lift_case :=
  match goal with
  | |- context [ @mbind option _ _ _ _ ?x ] =>
      lazymatch x with
      | context [put_seed] => fail
      | context [@mbind] => fail
      | _ => destruct x eqn:?; [|done]
      end
  end.

Ltac lift := lift_arrays; repeat (lift_case; lift_arrays).

Lemma lift_evaluate_candidate st seed v numPaths :
  seed_ok st seed →
  evaluate_candidate seed numPaths (put_seed st seed v)
  = put_seed st seed <$> v_evaluate_candidate numPaths v.
Proof.
  intros H. open_seed H.
  unfold evaluate_candidate, v_evaluate_candidate, rd2, wr2.
  lift. case_decide; lift; done.
Qed.

Lemma lift_elite_sum st seed v i j sum :
  seed_ok st seed →
  elite_sum seed i (put_seed st seed v) j sum = v_elite_sum i v j sum.
Proof.
  intros H. open_seed H. unfold elite_sum, v_elite_sum, rd3, rd2.
  lift. done.
Qed.

Lemma lift_update_p st seed v i :
  seed_ok st seed →
  update_p seed i (put_seed st seed v) = put_seed st seed <$> v_update_p i v.
Proof.
  intros H. unfold update_p, v_update_p.
  rewrite (for_ext _ (v_elite_sum i v)) by (intros; by apply lift_elite_sum).
  open_seed H. unfold rd2, wr2. lift. done.
Qed.

Lemma lift_seed_bestIndex st seed v i :
  seed_ok st seed →
  seed_bestIndex seed i (put_seed st seed v) = put_seed st seed <$> v_seed_bestIndex i v.
Proof.
  intros H. open_seed H. unfold seed_bestIndex, v_seed_bestIndex, wr2.
  lift. done.
Qed.

Lemma lift_memset_Fitness st seed v :
  seed_ok st seed →
  memset_Fitness seed (put_seed st seed v) = put_seed st seed <$> v_memset_Fitness v.
Proof.
  intros H. open_seed H. unfold memset_Fitness, v_memset_Fitness.
  lift. done.
Qed.

Lemma lift_generation_boundary st seed v :
  seed_ok st seed →
  generation_boundary seed (put_seed st seed v)
  = put_seed st seed <$> v_generation_boundary (MutationOperatorsNum st) v.
Proof.
  intros H. unfold generation_boundary, v_generation_boundary.
  fields.
  rewrite (for_lift (put_seed st seed) _ v_update_p)
    by (intros; by apply lift_update_p).
  destruct (for_ _ 0 v_update_p v) as [v1|]; [|done]. fields.
  pose proof H as H'. open_seed H'. lift_arrays.
  change (set_nextToEvaluate _ (put_seed st seed v1))
    with (put_seed st seed (vset_Next 0 v1)).
  rewrite (for_lift (put_seed st seed) _ v_seed_bestIndex)
    by (intros; by apply lift_seed_bestIndex).
  destruct (for_ _ 0 v_seed_bestIndex _) as [v2|]; [|done]. fields.
  by apply lift_memset_Fitness.
Qed.

Section Lifting.
Context {RNG : Type}.
Variables (rand : RNG → Z * RNG) (RAND_MAX : Z).
Variables (rand_32_int : Z → RNG → Z * RNG) (rand_32_double : RNG → double * RNG).

Lemma lift_sample_bit st seed i w :
  seed_ok st seed →
  sample_bit rand_32_double seed i (put_world st seed w)
  = put_world st seed <$> v_sample_bit rand_32_double i w.
Proof.
  intros H. open_seed H. destruct w as [v g].
  unfold sample_bit, v_sample_bit, put_world, rd2, wr3. fields.
  destruct (rand_32_double g) as [r g'].
  lift. done.
Qed.

Lemma lift_next_candidate st seed w :
  seed_ok st seed →
  next_candidate rand_32_double seed (put_world st seed w)
  = put_world st seed <$> v_next_candidate rand_32_double (MutationOperatorsNum st) w.
Proof.
  intros H. pose proof H as H'. open_seed H'. destruct w as [v g].
  unfold next_candidate, v_next_candidate, put_world, rd2. lift_arrays.
  case_decide; [|done]. lift.
  change (set_currentRelativeProb _ (put_seed st seed v), g)
    with (put_world st seed (vset_Cur (vNext v) v, g)).
  apply (for_lift (put_world st seed)). intros. by apply lift_sample_bit.
Qed.

Lemma lift_NotifyFeedback st seed numPaths v g :
  seed_ok st seed →
  DARWIN_NotifyFeedback rand_32_double seed numPaths (put_seed st seed v, g)
  = put_world st seed
      <$> v_NotifyFeedback rand_32_double (MutationOperatorsNum st) numPaths (v, g).
Proof.
  intros H. unfold DARWIN_NotifyFeedback, v_NotifyFeedback.
  rewrite lift_evaluate_candidate by done.
  destruct (v_evaluate_candidate numPaths v) as [v1|]; [|done]. fields.
  pose proof H as H'. open_seed H'. lift_arrays.
  case_decide.
  - rewrite lift_generation_boundary by done.
    destruct (v_generation_boundary _ v1) as [v2|]; [|done]. fields.
    by apply (lift_next_candidate st seed (v2, g)).
  - fields. by apply (lift_next_candidate st seed (v1, g)).
Qed.

Lemma lift_init_random_bit st seed i w :
  seed_ok st seed →
  init_random_bit rand RAND_MAX seed i (put_world st seed w)
  = put_world st seed <$> v_init_random_bit rand RAND_MAX i w.
Proof.
  intros H. open_seed H. destruct w as [v g].
  unfold init_random_bit, v_init_random_bit, put_world, wr3. fields.
  destruct (rand g) as [r g'].
  lift. done.
Qed.

Lemma lift_init_individual_row junk st seed i v :
  seed_ok st seed →
  init_individual_row junk seed i (put_seed st seed v)
  = put_seed st seed <$> v_init_individual_row junk (MutationOperatorsNum st) seed i v.
Proof.
  intros H. open_seed H. unfold init_individual_row, v_init_individual_row, wr2.
  lift. done.
Qed.

Lemma lift_init_p st seed i v :
  seed_ok st seed →
  init_p seed i (put_seed st seed v) = put_seed st seed <$> v_init_p i v.
Proof.
  intros H. open_seed H. unfold init_p, v_init_p, wr2. lift. done.
Qed.

Lemma lift_init_seed junk st seed w :
  seed_ok st seed →
  init_seed rand RAND_MAX junk seed (put_world st seed w)
  = put_world st seed
      <$> v_init_seed rand RAND_MAX junk (MutationOperatorsNum st) seed w.
Proof.
  intros H. pose proof H as H'. open_seed H'. destruct w as [v g].
  unfold init_seed, v_init_seed, put_world. lift_arrays.
  match goal with |- context [for_ _ 0 (init_individual_row junk seed) ?s] =>
    change s with (put_seed st seed
      (vset_Ind (malloc M (λ _, []))
        (vset_P (malloc (MutationOperatorsNum st) (junk_p junk seed))
          (vset_Best (malloc N (junk_bestIndex junk seed))
            (vset_Fitness (malloc M (junk_Fitness junk seed)) (vset_Next 0 v))))))
  end.
  rewrite (for_lift (put_seed st seed) _
             (v_init_individual_row junk (MutationOperatorsNum st) seed))
    by (intros; by apply lift_init_individual_row).
  destruct (for_ _ 0 (v_init_individual_row _ _ _) _) as [v1|]; [|done]. fields.
  rewrite lift_memset_Fitness by done.
  destruct (v_memset_Fitness v1) as [v2|]; [|done]. fields.
  rewrite (for_lift (put_seed st seed) _ v_init_p) by (intros; by apply lift_init_p).
  destruct (for_ _ 0 v_init_p v2) as [v3|]; [|done]. fields.
  rewrite (for_lift (put_seed st seed) _ v_seed_bestIndex)
    by (intros; by apply lift_seed_bestIndex).
  destruct (for_ _ 0 v_seed_bestIndex v3) as [v4|]; [|done]. fields.
  change (put_seed st seed v4, g) with (put_world st seed (v4, g)).
  rewrite (for_lift (put_world st seed) _ (v_init_random_bit rand RAND_MAX))
    by (intros; by apply lift_init_random_bit).
  destruct (for_ _ 0 (v_init_random_bit _ _) _) as [[v5 g5]|]; [|done].
  unfold put_world, rd2. lift. done.
Qed.

End Lifting.

(** A state with a valid [seed] is the state with the rows of that seed
    put back. *)
Lemma get_seed_ok st seed v : get_seed st seed = Some v → seed_ok st seed.
Proof.
  unfold get_seed, seed_ok. intros H.
  destruct (rd (_Fitness st) seed) eqn:E1; [|done].
  destruct (rd (_bestIndex st) seed) eqn:E2; [|done].
  destruct (rd (_nextToEvaluate st) seed) eqn:E3; [|done].
  destruct (rd (_individual st) seed) eqn:E4; [|done].
  destruct (rd (_currentRelativeProb st) seed) eqn:E5; [|done].
  destruct (rd (p st) seed) eqn:E6; [|done].
  apply rd_bound in E1, E2, E3, E4, E5, E6. lia.
Qed.

Lemma rd_insert_id {A} (a : list A) i x : rd a i = Some x → <[Z.to_nat i := x]> a = a.
Proof. intros [_ H]%rd_Some. by apply list_insert_id. Qed.

Lemma put_get_seed st seed v : get_seed st seed = Some v → put_seed st seed v = st.
Proof.
  unfold get_seed, put_seed. intros H.
  destruct (rd (_Fitness st) seed) eqn:E1; [|done].
  destruct (rd (_bestIndex st) seed) eqn:E2; [|done].
  destruct (rd (_nextToEvaluate st) seed) eqn:E3; [|done].
  destruct (rd (_individual st) seed) eqn:E4; [|done].
  destruct (rd (_currentRelativeProb st) seed) eqn:E5; [|done].
  destruct (rd (p st) seed) eqn:E6; [|done].
  simpl in H. injection H as <-. simpl.
  rewrite !rd_insert_id by done. by destruct st.
Qed.

Lemma get_put_seed_eq st seed v : seed_ok st seed → get_seed (put_seed st seed v) seed = Some v.
Proof.
  intros H. open_seed H. unfold get_seed. lift. by destruct v.
Qed.

Lemma get_put_seed_ne st seed seed' v :
  0 ≤ seed → seed ≠ seed' → get_seed (put_seed st seed v) seed' = get_seed st seed'.
Proof.
  intros H0 Hne. unfold get_seed. fields.
  destruct (decide (0 ≤ seed')) as [H0'|H0'].
  - by rewrite !rd_insert_ne by lia.
  - unfold rd. by rewrite !decide_False by done.
Qed.

Lemma seed_ok_put st seed seed' v : seed_ok (put_seed st seed v) seed' ↔ seed_ok st seed'.
Proof. unfold seed_ok. fields. by rewrite !length_insert. Qed.

Lemma get_seed_is_Some st seed : seed_ok st seed → is_Some (get_seed st seed).
Proof.
  intros H. open_seed H. unfold get_seed.
  destruct (rd_is_Some (_Fitness st) seed) as [? ->]; [lia|].
  destruct (rd_is_Some (_bestIndex st) seed) as [? ->]; [lia|].
  destruct (rd_is_Some (_nextToEvaluate st) seed) as [? ->]; [lia|].
  destruct (rd_is_Some (_individual st) seed) as [? ->]; [lia|].
  destruct (rd_is_Some (_currentRelativeProb st) seed) as [? ->]; [lia|].
  destruct (rd_is_Some (p st) seed) as [? ->]; [lia|].
  by eexists.
Qed.

(* ================================================================= *)
(** * The blocks of the engine on the rows of a seed *)

Lemma to_uint_small z : 0 ≤ z < 2 ^ 32 → to_uint z = z.
Proof. intros H. unfold to_uint. by apply Z.mod_small. Qed.

Lemma to_int_small z : - 2 ^ 31 ≤ z < 2 ^ 31 → to_int z = z.
Proof. intros H. unfold to_int. rewrite Z.mod_small; lia. Qed.

Lemma to_int_range z : - 2 ^ 31 ≤ to_int z < 2 ^ 31.
Proof. unfold to_int. pose proof (Z.mod_pos_bound (z + 2 ^ 31) (2 ^ 32)). lia. Qed.

(** Loop invariants. *)
Lemma for_inv {St} (P : Z → St → Prop) (body : Z → St → option St) n i s :
  P i s →
  (∀ j t, i ≤ j < i + Z.of_nat n → P j t → ∃ t', body j t = Some t' ∧ P (j + 1) t') →
  ∃ s', for_ n i body s = Some s' ∧ P (i + Z.of_nat n) s'.
Proof.
  revert i s. induction n as [|n IH]; intros i s HP Hstep.
  - exists s. split; [done|]. by replace (i + Z.of_nat 0) with i by lia.
  - destruct (Hstep i s) as (t & Ht & HPt); [lia|done|].
    destruct (IH (i + 1) t HPt) as (s' & Hs' & HP').
    { intros j u Hj. apply Hstep. lia. }
    exists s'. simpl. rewrite Ht. simpl. split; [done|].
    by replace (i + Z.of_nat (S n)) with (i + 1 + Z.of_nat n) by lia.
Qed.

(** ** Recording a fitness and updating the elite *)

Lemma bucket_of nxt : 0 ≤ nxt < 20 → to_uint (nxt * N) / M = nxt / 5 ∧ 0 ≤ nxt / 5 < 4.
Proof.
  intros H. unfold N, M. rewrite to_uint_small by lia.
  Z.div_mod_to_equations. lia.
Qed.

Lemma wf_mid_update K v v' :
  wf_mid K v →
  length (vFitness v') = length (vFitness v) →
  (∀ (b : nat) x, vBest v' !! b = Some x → 5 * Z.of_nat b ≤ x < 5 * Z.of_nat b + 5) →
  length (vBest v') = length (vBest v) →
  0 ≤ vNext v' ≤ 20 →
  vInd v' = vInd v → vP v' = vP v →
  wf_mid K v'.
Proof.
  intros [] HF HB HBl HN HI HP. split; rewrite ?HF, ?HBl, ?HI, ?HP; done.
Qed.

Lemma v_evaluate_candidate_spec K numPaths v :
  wf_view K v →
  ∃ bi fb,
    rd (vBest v) (to_uint (vNext v * N) / M) = Some bi ∧
    rd (<[Z.to_nat (vNext v) := to_int numPaths]> (vFitness v)) bi = Some fb ∧
    v_evaluate_candidate numPaths v =
      Some {| vFitness := <[Z.to_nat (vNext v) := to_int numPaths]> (vFitness v);
              vBest := if decide (fb < to_int numPaths)
                       then <[Z.to_nat (to_uint (vNext v * N) / M) := vNext v]> (vBest v)
                       else vBest v;
              vNext := vNext v + 1;
              vInd := vInd v; vCur := vCur v; vP := vP v |}.
Proof.
  intros [Hm Hn Hc]. destruct Hm as [HF HBl HB [Hn0 _] HIl HI HPl HP].
  destruct (bucket_of (vNext v)) as [Hb Hb']; [lia|].
  destruct (rd_is_Some (vBest v) (to_uint (vNext v * N) / M)) as [bi Hbi]; [lia|].
  pose proof Hbi as [_ Hbi']%rd_Some. apply HB in Hbi'.
  rewrite Hb in Hbi'. rewrite Z2Nat.id in Hbi' by lia.
  destruct (rd_is_Some (<[Z.to_nat (vNext v) := to_int numPaths]> (vFitness v)) bi)
    as [fb Hfb]; [rewrite length_insert; lia|].
  exists bi, fb. split; [done|]. split; [done|].
  unfold v_evaluate_candidate.
  rewrite wr_ok by lia. fields.
  rewrite rd_insert_eq by lia. fields.
  rewrite Hbi. fields. rewrite Hfb. fields.
  case_decide; fields; [rewrite wr_ok by lia; fields|];
    rewrite (to_uint_small (vNext v + 1)) by lia; done.
Qed.

Lemma v_evaluate_candidate_wf K numPaths v :
  wf_view K v →
  ∃ v', v_evaluate_candidate numPaths v = Some v' ∧ wf_mid K v' ∧
        vNext v' = vNext v + 1 ∧ vCur v' = vCur v ∧ vP v' = vP v ∧ vInd v' = vInd v.
Proof.
  intros Hwf. destruct (v_evaluate_candidate_spec K numPaths v Hwf) as (bi & fb & Hbi & Hfb & ->).
  eexists. split; [done|]. destruct Hwf as [Hm Hn Hc].
  split; [|done].
  apply (wf_mid_update K v); fields; try done.
  - by rewrite length_insert.
  - destruct (bucket_of (vNext v)) as [Hb Hb']; [destruct Hm; lia|].
    case_decide; [|by destruct Hm].
    intros b x Hx. destruct (decide (b = Z.to_nat (to_uint (vNext v * N) / M))) as [->|Hne].
    + rewrite list_lookup_insert_eq in Hx by (destruct Hm; lia).
      injection Hx as <-. rewrite Hb, Z2Nat.id by lia. destruct Hm.
      pose proof (Z.mul_div_le (vNext v) 5). pose proof (Z.mod_pos_bound (vNext v) 5).
      pose proof (Z.div_mod (vNext v) 5). lia.
    + rewrite list_lookup_insert_ne in Hx by done. destruct Hm; eauto.
  - case_decide; [by rewrite length_insert|done].
  - destruct Hm. lia.
Qed.

(** ** The generation boundary *)

Lemma wf_mid_row K v bj :
  wf_mid K v → 0 ≤ bj < 20 →
  ∃ row, rd (vInd v) bj = Some row ∧ length row = Z.to_nat K.
Proof.
  intros Hm Hb. destruct (rd_is_Some (vInd v) bj) as [row Hrow].
  { rewrite (wf_Ind_len K v Hm). lia. }
  exists row. split; [done|]. apply rd_Some in Hrow as [_ Hrow].
  by apply (wf_Ind K v Hm) in Hrow.
Qed.

Lemma wf_mid_elites K v :
  wf_mid K v →
  ∃ b0 b1 b2 b3, vBest v = [b0; b1; b2; b3] ∧
    0 ≤ b0 < 5 ∧ 5 ≤ b1 < 10 ∧ 10 ≤ b2 < 15 ∧ 15 ≤ b3 < 20.
Proof.
  intros Hm. pose proof (wf_Best_len K v Hm) as Hl. pose proof (wf_Best K v Hm) as HB.
  destruct (vBest v) as [|b0 [|b1 [|b2 [|b3 [|]]]]]; try done.
  exists b0, b1, b2, b3. split; [done|].
  pose proof (HB 0%nat b0 eq_refl). pose proof (HB 1%nat b1 eq_refl).
  pose proof (HB 2%nat b2 eq_refl). pose proof (HB 3%nat b3 eq_refl). lia.
Qed.

Lemma v_elite_sum_loop K v i :
  wf_mid K v → 0 ≤ i < K →
  for_ (Z.to_nat N) 0 (v_elite_sum i v) 0 = Some (elite_count v i) ∧
  0 ≤ elite_count v i ≤ 4.
Proof.
  intros Hm Hi.
  destruct (wf_mid_elites K v Hm) as (b0 & b1 & b2 & b3 & HB & H0 & H1 & H2 & H3).
  assert (Hx : ∀ bj, 0 ≤ bj < 20 → ∃ x, rd2 (vInd v) bj i = Some x).
  { intros bj Hbj. destruct (wf_mid_row K v bj Hm Hbj) as (row & Hrow & Hlen).
    unfold rd2. rewrite Hrow. simpl. apply rd_is_Some. lia. }
  destruct (Hx b0) as [x0 Hx0]; [lia|]. destruct (Hx b1) as [x1 Hx1]; [lia|].
  destruct (Hx b2) as [x2 Hx2]; [lia|]. destruct (Hx b3) as [x3 Hx3]; [lia|].
  unfold elite_count. rewrite HB. simpl foldr. rewrite Hx0, Hx1, Hx2, Hx3.
  change (Z.to_nat N) with 4%nat. cbn [for_].
  unfold v_elite_sum. rewrite HB.
  change (rd [b0; b1; b2; b3] 0) with (Some b0).
  change (rd [b0; b1; b2; b3] (0 + 1)) with (Some b1).
  change (rd [b0; b1; b2; b3] (0 + 1 + 1)) with (Some b2).
  change (rd [b0; b1; b2; b3] (0 + 1 + 1 + 1)) with (Some b3).
  cbn [mbind option_bind]. rewrite Hx0. cbn [mbind option_bind].
  rewrite Hx1. cbn [mbind option_bind]. rewrite Hx2. cbn [mbind option_bind].
  rewrite Hx3. cbn [mbind option_bind default].
  by destruct x0, x1, x2, x3.
Qed.

Lemma clamp_sum_spec s :
  0 ≤ s ≤ 4 → clamp_sum s = spec_clamp s ∧ 1 ≤ spec_clamp s ≤ 3.
Proof.
  intros H.
  assert (s = 0 ∨ s = 1 ∨ s = 2 ∨ s = 3 ∨ s = 4) as [ -> | [ -> | [ -> | [ -> | -> ]]]]
    by lia; by vm_compute.
Qed.

Lemma v_elite_sum_frame i v v' j s :
  vBest v' = vBest v → vInd v' = vInd v → v_elite_sum i v' j s = v_elite_sum i v j s.
Proof. intros HB HI. unfold v_elite_sum. by rewrite HB, HI. Qed.

Lemma v_update_p_loop K v :
  wf_mid K v → 0 ≤ K →
  ∃ v', for_ (Z.to_nat K) 0 v_update_p v = Some v' ∧ p_updated v K v'.
Proof.
  intros Hm HK.
  destruct (for_inv (p_updated v) v_update_p (Z.to_nat K) 0 v) as (v' & Hv' & HP).
  - split; try done. intros; lia.
  - intros j t Hj [HtF HtB HtN HtI HtC Htl Htd Htt].
    unfold v_update_p.
    rewrite (for_ext _ (v_elite_sum j v)) by (intros; by apply v_elite_sum_frame).
    destruct (v_elite_sum_loop K v j Hm) as [-> Hrange]; [lia|]. fields.
    destruct (clamp_sum_spec _ Hrange) as [-> _].
    pose proof (wf_P_len K v Hm) as HPl.
    destruct (rd_is_Some (vP v) j) as [x Hx]; [lia|].
    assert (Hxt : rd (vP t) j = Some x).
    { apply rd_Some in Hx as [? Hx]. apply rd_Some. split; [done|].
      rewrite Htt by lia. done. }
    rewrite Hxt. fields. rewrite wr_ok by lia. fields.
    eexists. split; [done|]. split; fields; try done.
    + by rewrite length_insert.
    + intros i y Hi Hy. destruct (decide (i = Z.to_nat j)) as [->|Hne].
      * rewrite list_lookup_insert_eq by lia.
        apply rd_Some in Hx as [? Hx]. rewrite Hx in Hy. injection Hy as <-.
        by rewrite Z2Nat.id by lia.
      * rewrite list_lookup_insert_ne by done. apply Htd; [lia|done].
    + intros i Hi. rewrite list_lookup_insert_ne by lia. apply Htt. lia.
  - exists v'. split; [done|]. by rewrite Z.add_0_l, Z2Nat.id in HP by lia.
Qed.

Lemma v_seed_bestIndex_loop v :
  length (vBest v) = 4%nat →
  for_ (Z.to_nat N) 0 v_seed_bestIndex v = Some (vset_Best [0; 5; 10; 15] v).
Proof.
  intros Hl. destruct v as [F B n I c P]. simpl in Hl.
  destruct B as [|b0 [|b1 [|b2 [|b3 [|]]]]]; try done.
Qed.

Lemma memset0_Fitness a :
  length a = 20%nat → memset0 a M = Some (replicate 5 0 ++ drop 5 a).
Proof.
  intros Hl. unfold memset0, M, sizeof_int. rewrite Hl.
  rewrite decide_True by lia.
  change (Z.to_nat (20 / 4)) with 5%nat. change (20 mod 4) with 0.
  f_equal. f_equal. destruct (drop 5 a); [done|]. by rewrite decide_True.
Qed.

Lemma v_generation_boundary_spec K v :
  wf_mid K v → 0 ≤ K →
  ∃ P', v_generation_boundary K v =
          Some {| vFitness := replicate 5 0 ++ drop 5 (vFitness v);
                  vBest := [0; 5; 10; 15]; vNext := 0;
                  vInd := vInd v; vCur := vCur v; vP := P' |} ∧
        length P' = Z.to_nat K ∧
        ∀ (i : nat) x, vP v !! i = Some x →
          P' !! i = Some (smooth x (spec_clamp (elite_count v (Z.of_nat i)))).
Proof.
  intros Hm HK. unfold v_generation_boundary.
  destruct (v_update_p_loop K v Hm HK) as (v1 & -> & [HF HB HN HI HC Hl Hd _]).
  fields.
  rewrite v_seed_bestIndex_loop by (fields; rewrite HB; by destruct Hm).
  fields. unfold v_memset_Fitness. fields.
  rewrite memset0_Fitness by (rewrite HF; by destruct Hm).
  fields. exists (vP v1).
  split; [unfold vset_Fitness, vset_Best, vset_Next; fields; by rewrite HF, HI, HC|].
  split; [rewrite Hl; by destruct Hm|].
  intros i x Hx. apply Hd; [|done].
  apply lookup_lt_Some in Hx. rewrite (wf_P_len K v Hm) in Hx. lia.
Qed.

Lemma v_generation_boundary_wf K v :
  wf_mid K v → 0 ≤ K →
  ∃ v', v_generation_boundary K v = Some v' ∧ wf_mid K v' ∧ vNext v' = 0 ∧
        vInd v' = vInd v ∧ vCur v' = vCur v.
Proof.
  intros Hm HK.
  destruct (v_generation_boundary_spec K v Hm HK) as (P' & -> & Hl & HP').
  eexists. split; [done|]. split; [|done].
  split; fields; try (by destruct Hm).
  - rewrite length_app, length_replicate, length_drop, (wf_Fitness K v Hm). done.
  - intros b x Hb.
    destruct b as [|[|[|[|]]]]; simpl in Hb; try done; injection Hb as <-; lia.
  - intros i y Hy.
    destruct (lookup_lt_is_Some_2 (vP v) i) as [x Hx].
    { rewrite (wf_P_len K v Hm), <- Hl. by apply lookup_lt_Some in Hy. }
    rewrite (HP' i x Hx) in Hy. injection Hy as <-.
    apply smooth_ok; [by apply (wf_P K v Hm i)|].
    apply clamp_sum_spec, (v_elite_sum_loop K v (Z.of_nat i) Hm).
    apply lookup_lt_Some in Hx. rewrite (wf_P_len K v Hm) in Hx. lia.
Qed.

(** ** Generating the next candidate *)

Section NextCandidate.
Context {RNG : Type} (rand_32_double : RNG → double * RNG).

Lemma v_sample_loop K v g :
  wf_mid K v → 0 ≤ K → 0 ≤ vCur v < 20 →
  ∃ row g', for_ (Z.to_nat K) 0 (v_sample_bit rand_32_double) (v, g)
              = Some (vset_Ind (<[Z.to_nat (vCur v) := row]> (vInd v)) v, g') ∧
            length row = Z.to_nat K.
Proof.
  intros Hm HK Hc.
  destruct (for_inv
    (λ (_ : Z) (w : seed_view * RNG),
       ∃ row, w.1 = vset_Ind (<[Z.to_nat (vCur v) := row]> (vInd v)) v ∧
              length row = Z.to_nat K)
    (v_sample_bit rand_32_double) (Z.to_nat K) 0 (v, g)) as ([v' g'] & Hv' & row & Hrow & Hl).
  - destruct (wf_mid_row K v (vCur v) Hm Hc) as (row & Hrow & Hl).
    exists row. split; [|done]. simpl. rewrite (rd_insert_id _ _ _ Hrow). by destruct v.
  - intros j [t gt] Hj (row & Ht & Hl). simpl in Ht. subst t.
    unfold v_sample_bit. destruct (rand_32_double gt) as [r g1].
    destruct (rd_is_Some (vP v) j) as [x Hx]; [rewrite (wf_P_len K v Hm); lia|].
    fields. rewrite Hx. fields. unfold wr2.
    rewrite rd_insert_eq by (rewrite (wf_Ind_len K v Hm); lia). fields.
    rewrite wr_ok by lia. fields.
    rewrite wr_insert_eq by (rewrite (wf_Ind_len K v Hm); lia). fields.
    eexists. split; [done|]. eexists. split; [done|]. by rewrite length_insert.
  - simpl in Hrow. subst v'. by exists row, g'.
Qed.

Lemma v_next_candidate_spec K v g :
  wf_mid K v → 0 ≤ K → vNext v < 20 →
  ∃ row g', v_next_candidate rand_32_double K (v, g)
              = Some (vset_Ind (<[Z.to_nat (vNext v) := row]> (vInd v))
                        (vset_Cur (vNext v) v), g') ∧
            length row = Z.to_nat K.
Proof.
  intros Hm HK Hn. unfold v_next_candidate. rewrite decide_True by (unfold M; lia).
  pose proof (wf_Next K v Hm) as [Hn0 _].
  destruct (wf_mid_row K v (vNext v) Hm) as (row0 & -> & _); [lia|]. fields.
  destruct (v_sample_loop K (vset_Cur (vNext v) v) g) as (row & g' & -> & Hl);
    [by destruct Hm|done|fields; lia|].
  by exists row, g'.
Qed.

Lemma wf_view_next K v row :
  wf_mid K v → vNext v < 20 → length row = Z.to_nat K →
  wf_view K (vset_Ind (<[Z.to_nat (vNext v) := row]> (vInd v)) (vset_Cur (vNext v) v)).
Proof.
  intros Hm Hn Hl. split; [|done|done].
  split; fields; try (by destruct Hm).
  - rewrite length_insert. by destruct Hm.
  - intros j r Hr. destruct (decide (j = Z.to_nat (vNext v))) as [->|Hne].
    + apply list_lookup_insert_Some in Hr as [(_ & <- & _)|[? _]]; done.
    + rewrite list_lookup_insert_ne in Hr by done. by apply (wf_Ind K v Hm j).
Qed.

(** ** The whole call on the rows of a seed *)

Lemma v_NotifyFeedback_spec K numPaths v g :
  wf_view K v → 0 ≤ K →
  ∃ v' g', v_NotifyFeedback rand_32_double K numPaths (v, g) = Some (v', g') ∧
           wf_view K v' ∧ vNext v' = (vNext v + 1) mod M.
Proof.
  intros Hwf HK. unfold v_NotifyFeedback.
  destruct (v_evaluate_candidate_wf K numPaths v Hwf)
    as (v1 & -> & Hm1 & Hn1 & _). fields.
  destruct Hwf as [Hm Hn Hc]. pose proof (wf_Next K v Hm) as [Hn0 _].
  destruct (decide (vNext v1 = M)) as [HM|HM].
  - destruct (v_generation_boundary_wf K v1 Hm1 HK) as (v2 & -> & Hm2 & Hn2 & _). fields.
    destruct (v_next_candidate_spec K v2 g Hm2 HK) as (row & g' & -> & Hl); [lia|].
    eexists _, _. split; [done|]. split; [apply wf_view_next; [done|lia|done]|].
    fields. rewrite Hn2. unfold M in *. replace (vNext v + 1) with 20 by lia. done.
  - fields. unfold M in HM. pose proof (wf_Next K v1 Hm1).
    destruct (v_next_candidate_spec K v1 g Hm1 HK) as (row & g' & -> & Hl); [lia|].
    eexists _, _. split; [done|]. split; [apply wf_view_next; [done|lia|done]|].
    fields. rewrite Hn1. unfold M. rewrite Z.mod_small; lia.
Qed.

End NextCandidate.

(* ================================================================= *)
(** * Selection and well-formed states *)

(** ** The [while] loop of [DARWIN_SelectOperator] *)

Lemma select_loop_spec (cur : list bool) K fuel operatorId nTries :
  0 < K < 2 ^ 32 → length cur = Z.to_nat K →
  0 ≤ operatorId < K → 0 ≤ nTries ≤ K → K - nTries < Z.of_nat fuel →
  ∃ d, 0 ≤ d ≤ K - nTries ∧
       select_loop fuel cur K operatorId nTries = Some ((operatorId + d) mod K) ∧
       (∀ d', 0 ≤ d' < d → rd cur ((operatorId + d') mod K) = Some false) ∧
       (rd cur ((operatorId + d) mod K) = Some true ∨ d = K - nTries).
Proof.
  intros HK Hl. revert operatorId nTries.
  induction fuel as [|fuel IH]; intros op t Hop Ht Hfuel; [lia|].
  destruct (rd_is_Some cur op) as [c Hc]; [lia|].
  simpl. rewrite Hc. simpl.
  destruct c; simpl.
  - exists 0. rewrite Z.add_0_r, Z.mod_small by lia.
    split; [lia|]. split; [done|]. split; [intros; lia|by left].
  - destruct (decide (t < K)) as [Hlt|Hge].
    + rewrite bool_decide_eq_true_2 by done.
      rewrite (to_uint_small (op + 1)), (to_uint_small (t + 1)) by lia.
      destruct (IH ((op + 1) mod K) (t + 1)) as (d & Hd & Hres & Hoff & Hon);
        [apply Z.mod_pos_bound; lia|lia|lia|].
      assert (Hshift : ∀ x, ((op + 1) mod K + x) mod K = (op + (x + 1)) mod K).
      { intros x. rewrite Z.add_mod_idemp_l by lia. f_equal. lia. }
      exists (d + 1). split; [lia|]. rewrite <- Hshift. split; [done|]. split.
      * intros d' Hd'. destruct (decide (d' = 0)) as [->|Hne].
        -- by rewrite Z.add_0_r, Z.mod_small by lia.
        -- replace d' with ((d' - 1) + 1) by lia. rewrite <- Hshift.
           apply Hoff. lia.
      * destruct Hon as [Hon|Hon]; [by left|right; lia].
    + rewrite bool_decide_eq_false_2 by done.
      exists 0. rewrite Z.add_0_r, Z.mod_small by lia.
      split; [lia|]. split; [done|]. split; [intros; lia|right; lia].
Qed.


(** ** Well-formed states *)

Lemma wf_seed_ok st seed :
  wf st → 0 ≤ seed < Z.of_nat (length (_nextToEvaluate st)) → seed_ok st seed.
Proof.
  intros (_ & (n & H1 & H2 & H3 & H4 & H5 & H6) & _) Hs.
  unfold seed_ok. lia.
Qed.

Lemma wf_get_seed st seed :
  wf st → 0 ≤ seed < Z.of_nat (length (_nextToEvaluate st)) →
  ∃ v, get_seed st seed = Some v ∧ wf_view (MutationOperatorsNum st) v.
Proof.
  intros Hwf Hs.
  destruct (get_seed_is_Some st seed) as [v Hv]; [by apply wf_seed_ok|].
  exists v. split; [done|]. destruct Hwf as (_ & _ & Hall). by apply (Hall seed).
Qed.

Lemma wf_put_seed st seed v :
  wf st → seed_ok st seed → wf_view (MutationOperatorsNum st) v →
  wf (put_seed st seed v).
Proof.
  intros (HK & (n & H1 & H2 & H3 & H4 & H5 & H6) & Hall) Hs Hv.
  split; [done|]. split.
  - exists n. fields. by rewrite !length_insert.
  - intros seed' v' Hv'. fields.
    destruct (decide (seed = seed')) as [<-|Hne].
    + rewrite get_put_seed_eq in Hv' by done. by injection Hv' as <-.
    + rewrite get_put_seed_ne in Hv' by (destruct Hs; done). by apply (Hall seed').
Qed.

Section Calls.
Context {RNG : Type}.
Variables (rand_init : RNG → RNG) (rand : RNG → Z * RNG) (RAND_MAX : Z).
Variables (rand_32_int : Z → RNG → Z * RNG) (rand_32_double : RNG → double * RNG).

Lemma NotifyFeedback_exec st g seed numPaths v :
  wf st → get_seed st seed = Some v →
  ∃ v' g',
    v_NotifyFeedback rand_32_double (MutationOperatorsNum st) numPaths (v, g)
      = Some (v', g') ∧
    DARWIN_NotifyFeedback rand_32_double seed numPaths (st, g)
      = Some (put_seed st seed v', g') ∧
    wf_view (MutationOperatorsNum st) v' ∧ vNext v' = (vNext v + 1) mod M.
Proof.
  intros Hwf Hv. pose proof (get_seed_ok _ _ _ Hv) as Hs.
  destruct Hwf as (HK & _ & Hall).
  destruct (v_NotifyFeedback_spec rand_32_double _ numPaths v g (Hall _ _ Hv))
    as (v' & g' & Hex & Hwf' & Hn); [lia|].
  exists v', g'. split; [done|]. split; [|done].
  rewrite <- (put_get_seed st seed v Hv) at 1.
  rewrite lift_NotifyFeedback by done. by rewrite Hex.
Qed.

Lemma NotifyFeedback_Some_seed st g seed numPaths w' :
  DARWIN_NotifyFeedback rand_32_double seed numPaths (st, g) = Some w' →
  0 ≤ seed < Z.of_nat (length (_nextToEvaluate st)).
Proof.
  unfold DARWIN_NotifyFeedback, evaluate_candidate. intros H.
  destruct (rd (_nextToEvaluate st) seed) as [nxt|] eqn:E; [|done].
  by apply rd_bound in E.
Qed.

Lemma SelectOperator_state fuel seed w op w' :
  DARWIN_SelectOperator rand_32_int fuel seed w = Some (op, w') →
  w'.1 = w.1 ∧ w'.2 = (rand_32_int (MutationOperatorsNum w.1) w.2).2.
Proof.
  destruct w as [st g]. unfold DARWIN_SelectOperator. simpl.
  destruct (rand_32_int (MutationOperatorsNum st) g) as [r g1]. intros H.
  destruct (rd (_currentRelativeProb st) seed) as [c|]; [|done]. simpl in H.
  destruct (rd2 (_individual st) seed c) as [cur|]; [|done]. simpl in H.
  destruct (select_loop fuel cur _ _ _); [|done]. simpl in H.
  by injection H as _ <-.
Qed.

Lemma step_wf c w w' : wf w.1 → step rand_32_int rand_32_double c w w' → wf w'.1.
Proof.
  intros Hwf Hstep. destruct Hstep as [fuel seed w op w' H|seed numPaths w w' H].
  - apply SelectOperator_state in H as [-> _]. done.
  - destruct w as [st g]. simpl in Hwf.
    pose proof (NotifyFeedback_Some_seed _ _ _ _ _ H) as Hs.
    destruct (wf_get_seed st seed Hwf Hs) as (v & Hv & _).
    destruct (NotifyFeedback_exec st g seed numPaths v Hwf Hv) as (v' & g' & _ & Hex & Hv' & _).
    rewrite Hex in H. injection H as <-. simpl.
    apply wf_put_seed; [done|by apply wf_seed_ok|done].
Qed.

Lemma steps_wf w cs w' : wf w.1 → steps rand_32_int rand_32_double w cs w' → wf w'.1.
Proof.
  intros Hwf Hsteps. induction Hsteps as [|w cs w1 c w2 _ IH Hstep]; [done|].
  eapply step_wf; [by apply IH|done].
Qed.

End Calls.

(* ================================================================= *)
(** * Initialisation *)

Lemma length_malloc {A} n (junk : Z → A) : length (malloc n junk) = Z.to_nat n.
Proof. unfold malloc. by rewrite length_fmap, length_seqZ. Qed.

Lemma prob_ok_half : prob_ok (tenths 5).
Proof.
  exists (2 ^ 52)%positive, (-53). split; [by vm_compute|].
  unfold normal_mant, dval. split; [lia|]. split; [lia|]. by vm_compute.
Qed.

Lemma v_init_rows_loop junk K seed v :
  length (vInd v) = 20%nat →
  ∃ I, for_ (Z.to_nat M) 0 (v_init_individual_row junk K seed) v = Some (vset_Ind I v) ∧
       length I = 20%nat ∧ ∀ (i : nat) row, I !! i = Some row → length row = Z.to_nat K.
Proof.
  intros Hl.
  destruct (for_inv
    (λ j v', ∃ I, v' = vset_Ind I v ∧ length I = 20%nat ∧
       ∀ (i : nat) row, Z.of_nat i < j → I !! i = Some row → length row = Z.to_nat K)
    (v_init_individual_row junk K seed) (Z.to_nat M) 0 v) as (v' & Hv' & I & -> & HIl & HI).
  - exists (vInd v). split; [by destruct v|]. split; [done|]. intros; lia.
  - intros j t Hj (I & -> & HIl & HI). unfold M in Hj.
    unfold v_init_individual_row. fields. rewrite wr_ok by lia. fields.
    eexists. split; [done|]. eexists. split; [done|].
    rewrite length_insert. split; [done|].
    intros i row Hi Hrow. destruct (decide (i = Z.to_nat j)) as [->|Hne].
    + rewrite list_lookup_insert_eq in Hrow by lia. injection Hrow as <-.
      apply length_malloc.
    + rewrite list_lookup_insert_ne in Hrow by done. apply (HI i); [lia|done].
  - exists I. split; [done|]. split; [done|].
    intros i row Hrow. apply (HI i); [|done].
    apply lookup_lt_Some in Hrow. unfold M. lia.
Qed.

Lemma v_init_p_loop K v :
  0 ≤ K → length (vP v) = Z.to_nat K →
  for_ (Z.to_nat K) 0 v_init_p v = Some (vset_P (replicate (Z.to_nat K) (tenths 5)) v).
Proof.
  intros HK Hl.
  destruct (for_inv
    (λ j v', ∃ P, v' = vset_P P v ∧ length P = Z.to_nat K ∧
       ∀ (i : nat) x, Z.of_nat i < j → P !! i = Some x → x = tenths 5)
    v_init_p (Z.to_nat K) 0 v) as (v' & -> & P & -> & HPl & HP).
  - exists (vP v). split; [by destruct v|]. split; [done|]. intros; lia.
  - intros j t Hj (P & -> & HPl & HP).
    unfold v_init_p. fields. rewrite wr_ok by lia. fields.
    eexists. split; [done|]. eexists. split; [done|].
    rewrite length_insert. split; [done|].
    intros i x Hi Hx. destruct (decide (i = Z.to_nat j)) as [->|Hne].
    + rewrite list_lookup_insert_eq in Hx by lia. by injection Hx as <-.
    + rewrite list_lookup_insert_ne in Hx by done. apply (HP i); [lia|done].
  - do 2 f_equal. symmetry. apply replicate_as_Forall. split; [done|].
    apply Forall_lookup. intros i x Hx. symmetry. apply (HP i); [|done].
    apply lookup_lt_Some in Hx. lia.
Qed.

Section Init.
Context {RNG : Type}.
Variables (rand_init : RNG → RNG) (rand : RNG → Z * RNG) (RAND_MAX : Z).

Lemma v_init_random_loop K v g :
  0 ≤ K → length (vInd v) = 20%nat →
  (∀ (i : nat) row, vInd v !! i = Some row → length row = Z.to_nat K) →
  ∃ row g', for_ (Z.to_nat K) 0 (v_init_random_bit rand RAND_MAX) (v, g)
              = Some (vset_Ind (<[0%nat := row]> (vInd v)) v, g') ∧
            length row = Z.to_nat K.
Proof.
  intros HK HIl HI.
  destruct (for_inv
    (λ (_ : Z) (w : seed_view * RNG),
       ∃ row, w.1 = vset_Ind (<[0%nat := row]> (vInd v)) v ∧ length row = Z.to_nat K)
    (v_init_random_bit rand RAND_MAX) (Z.to_nat K) 0 (v, g))
    as ([v' g'] & Hv' & row & Hrow & Hl).
  - destruct (lookup_lt_is_Some_2 (vInd v) 0) as [row Hrow]; [lia|].
    exists row. split; [|by apply (HI 0%nat)].
    simpl. rewrite list_insert_id by done. by destruct v.
  - intros j [t gt] Hj (row & Ht & Hl). simpl in Ht. subst t.
    unfold v_init_random_bit. destruct (rand gt) as [r g1].
    fields. unfold wr2.
    change 0%nat with (Z.to_nat 0).
    rewrite rd_insert_eq by lia. fields.
    rewrite wr_ok by lia. fields.
    rewrite wr_insert_eq by lia. fields.
    eexists. split; [done|]. eexists. split; [done|]. by rewrite length_insert.
  - simpl in Hrow. subst v'. by exists row, g'.
Qed.

Lemma v_init_seed_spec junk K seed v g :
  0 ≤ K →
  ∃ v' g', v_init_seed rand RAND_MAX junk K seed (v, g) = Some (v', g') ∧
    wf_view K v' ∧ vNext v' = 0 ∧ vBest v' = [0; 5; 10; 15] ∧
    vP v' = replicate (Z.to_nat K) (tenths 5) ∧
    vFitness v' = replicate 5 0 ++ drop 5 (malloc M (junk_Fitness junk seed)).
Proof.
  intros HK. unfold v_init_seed.
  edestruct (v_init_rows_loop junk K seed) as (I & -> & HIl & HI);
    [fields; by rewrite length_malloc|].
  fields. unfold v_memset_Fitness. fields.
  rewrite memset0_Fitness by (by rewrite length_malloc). fields.
  rewrite v_init_p_loop by first [done | fields; by rewrite length_malloc]. fields.
  rewrite v_seed_bestIndex_loop by (fields; by rewrite length_malloc). fields.
  edestruct (v_init_random_loop K) as (row & g' & -> & Hl); [done|fields; done|fields; done|].
  fields. change (rd (<[0%nat:=row]> I) 0) with ((<[0%nat:=row]> I) !! 0%nat).
  rewrite list_lookup_insert_eq by lia. fields.
  eexists _, _. split; [done|]. split; [|done].
  split; [|done|done]. split; fields; try done.
  - intros b x Hb.
    destruct b as [|[|[|[|]]]]; simpl in Hb; try done; injection Hb as <-; lia.
  - by rewrite length_insert.
  - intros j r Hr. destruct (decide (j = 0%nat)) as [->|Hne].
    + rewrite list_lookup_insert_eq in Hr by lia. by injection Hr as <-.
    + rewrite list_lookup_insert_ne in Hr by done. by apply (HI j).
  - by rewrite length_replicate.
  - intros i x [-> _]%lookup_replicate. apply prob_ok_half.
Qed.

Lemma DARWIN_init_spec junk nr_seeds K g :
  0 ≤ nr_seeds < 2 ^ 31 → 0 ≤ K < 2 ^ 32 →
  ∃ st g', DARWIN_init rand_init rand RAND_MAX junk nr_seeds K g = Some (st, g') ∧
           initialised junk nr_seeds K nr_seeds st.
Proof.
  intros Hn HK. unfold DARWIN_init. rewrite decide_True by lia.
  destruct (for_inv
    (λ j (w : world RNG), initialised junk nr_seeds K j w.1)
    (init_seed rand RAND_MAX junk) (Z.to_nat nr_seeds) 0
    ({| MutationOperatorsNum := K;
        _Fitness := malloc nr_seeds (λ _, []);
        _bestIndex := malloc nr_seeds (λ _, []);
        _nextToEvaluate := malloc nr_seeds (junk_nextToEvaluate junk);
        _individual := malloc nr_seeds (λ _, []);
        _currentRelativeProb := malloc nr_seeds (junk_currentRelativeProb junk);
        p := malloc nr_seeds (λ _, []) |}, rand_init g))
    as ([st g'] & Hex & Hinit).
  - split; fields; [done|by rewrite !length_malloc|intros; lia].
  - intros j [st gj] Hj [HKst Hlen Hseed]. simpl in HKst, Hlen, Hseed.
    assert (Hok : seed_ok st j) by (unfold seed_ok; lia).
    destruct (get_seed_is_Some st j Hok) as [v0 Hv0].
    rewrite <- (put_get_seed st j v0 Hv0).
    change (put_seed st j v0, gj) with (put_world st j (v0, gj)).
    rewrite lift_init_seed by done. rewrite HKst.
    destruct (v_init_seed_spec junk K j v0 gj) as (v' & g' & -> & Hv'); [lia|].
    eexists. split; [done|]. unfold put_world.
    split; fields; [done|by rewrite !length_insert|].
    intros seed Hs. destruct (decide (seed = j)) as [->|Hne].
    + exists v'. by rewrite get_put_seed_eq.
    + rewrite get_put_seed_ne by lia. apply Hseed. lia.
  - exists st, g'. split; [done|]. by rewrite Z.add_0_l, Z2Nat.id in Hinit by lia.
Qed.

Lemma initialised_wf junk n K st : 0 ≤ n → 0 ≤ K < 2 ^ 32 → initialised junk n K n st → wf st.
Proof.
  intros Hn HK [HKst Hlen Hseed]. split; [by rewrite HKst|]. split.
  - exists (Z.to_nat n). lia.
  - intros seed v Hv. pose proof (get_seed_ok _ _ _ Hv) as Hok.
    destruct (Hseed seed) as (v' & Hv' & Hwf & _).
    { destruct Hok as (? & ? & _). lia. }
    rewrite Hv in Hv'. injection Hv' as <-. by rewrite HKst.
Qed.

End Init.

(* ================================================================= *)
(** * Reachable states *)

Lemma prob_ok_unit_interval x : prob_ok x → in_unit_interval x.
Proof.
  intros (m & e & -> & Hm & He & Hv). unfold in_unit_interval, dle, SFleb.
  split; [reflexivity|].
  change (Z2D 1) with (S754_finite false 4503599627370496 (-52)). cbn [SFcompare].
  destruct (Z.compare_spec e (-52)) as [->|Hlt|Hgt]; [|reflexivity|lia].
  unfold dval, normal_mant in *. change (2 ^ (-52 + 200)) with (2 ^ 148) in Hv.
  rewrite (Pos.compare_cont_spec m 4503599627370496 Eq). unfold Pos.switch_Eq.
  destruct (Pos.compare_spec m 4503599627370496) as [_|_|Hgt]; [reflexivity|reflexivity|lia].
Qed.

Lemma notified_app seed cs cs' :
  notified seed (cs ++ cs') = notified seed cs + notified seed cs'.
Proof.
  induction cs as [|[fuel s|s np] cs IH]; simpl; [done|done|]. rewrite IH. lia.
Qed.

Section Reachable.
Context {RNG : Type}.
Variables (rand_init : RNG → RNG) (rand : RNG → Z * RNG) (RAND_MAX : Z).
Variables (rand_32_int : Z → RNG → Z * RNG) (rand_32_double : RNG → double * RNG).

Lemma steps_nil_inv w w' : steps rand_32_int rand_32_double w [] w' → w' = w.
Proof.
  intros H. inversion H as [|? cs ? ? ? ? ? Heq]; [done|].
  by destruct cs.
Qed.

Lemma step_reached n K cs c w w' :
  reached n K cs w.1 → step rand_32_int rand_32_double c w w' →
  reached n K (cs ++ [c]) w'.1.
Proof.
  intros Hr Hstep. pose proof (step_wf _ _ c w w' (re_wf _ _ _ _ Hr) Hstep) as Hwf'.
  destruct Hr as [Hwf HK Hlen Hcur _].
  destruct Hstep as [fuel seed w op w' H|seed numPaths w w' H].
  - apply SelectOperator_state in H as [Hst _]. rewrite Hst in *.
    split; try done.
    + intros s v Hv. rewrite notified_app. simpl. rewrite Z.add_0_r. by apply Hcur.
    + intros Heq. by destruct cs.
  - destruct w as [st g]. cbn [fst snd] in *.
    pose proof (NotifyFeedback_Some_seed _ _ _ _ _ _ H) as Hs.
    destruct (wf_get_seed st seed Hwf Hs) as (v & Hv & _).
    destruct (NotifyFeedback_exec rand_32_double st g seed numPaths v Hwf Hv)
      as (v' & g' & _ & Hex & Hv' & Hn).
    rewrite Hex in H. injection H as <-. cbn [fst snd] in *.
    split; fields; try done.
    + by rewrite length_insert.
    + intros s u Hu. rewrite notified_app. simpl.
      destruct (decide (seed = s)) as [<-|Hne].
      * rewrite get_put_seed_eq in Hu by (by apply wf_seed_ok). injection Hu as <-.
        rewrite Hn, (Hcur seed v Hv), Z.add_0_r.
        rewrite Z.add_mod_idemp_l by (unfold M; lia). done.
      * rewrite get_put_seed_ne in Hu by lia.
        rewrite (Hcur s u Hu). f_equal. lia.
    + intros Heq. by destruct cs.
Qed.

Lemma steps_reached n K w0 cs w :
  reached n K [] w0.1 → steps rand_32_int rand_32_double w0 cs w → reached n K cs w.1.
Proof.
  intros H0 Hsteps. induction Hsteps as [w|w cs w1 c w2 _ IH Hstep]; [done|].
  eapply step_reached; [by apply IH|done].
Qed.

Lemma reachable_reached n K cs w :
  reachable rand_init rand RAND_MAX rand_32_int rand_32_double n K cs w →
  reached n K cs w.1.
Proof.
  intros (Hn & HK & junk & g0 & w0 & Hinit & Hsteps).
  apply (steps_reached n K w0); [|done].
  destruct (DARWIN_init_spec rand_init rand RAND_MAX junk n K g0 Hn HK)
    as (st0 & g0' & Hinit' & Hi).
  rewrite Hinit in Hinit'. injection Hinit' as ->.
  pose proof (initialised_wf _ _ _ _ (proj1 Hn) HK Hi) as Hwf.
  assert (Hall : ∀ seed v, get_seed st0 seed = Some v →
            vNext v = 0 ∧ vBest v = [0; 5; 10; 15] ∧
            vP v = replicate (Z.to_nat K) (tenths 5)).
  { intros seed v Hv. pose proof (get_seed_ok _ _ _ Hv) as Hok.
    destruct Hi as [_ Hlen Hseed].
    destruct (Hseed seed) as (v' & Hv' & _ & H1 & H2 & H3 & _).
    { destruct Hok as (? & ? & _). lia. }
    rewrite Hv in Hv'. by injection Hv' as <-. }
  split; simpl; try done.
  - by destruct Hi.
  - by destruct Hi as [_ (_ & _ & ? & _) _].
  - intros seed v Hv. by destruct (Hall seed v Hv) as (-> & _).
  - intros _ seed v Hv. by destruct (Hall seed v Hv) as (_ & ? & ?).
Qed.

End Reachable.

(* ================================================================= *)
(** * Runs and the claims of the specification *)

Section Runs.
Context {RNG : Type}.
Variables (rand_32_int : Z → RNG → Z * RNG) (rand_32_double : RNG → double * RNG).

Lemma exec_step c w w' :
  exec rand_32_int rand_32_double c w = Some w' →
  step rand_32_int rand_32_double c w w'.
Proof.
  destruct c as [fuel seed|seed numPaths]; simpl; intros H.
  - destruct (DARWIN_SelectOperator rand_32_int fuel seed w) as [[op w1]|] eqn:E; [|done].
    injection H as <-. by econstructor.
  - by constructor.
Qed.

Lemma steps_cons c w w1 cs w2 :
  step rand_32_int rand_32_double c w w1 →
  steps rand_32_int rand_32_double w1 cs w2 →
  steps rand_32_int rand_32_double w (c :: cs) w2.
Proof.
  intros Hc Hs. induction Hs as [w1|w1 cs w2 c' w3 _ IH Hc'].
  - change [c] with ([] ++ [c]). eapply steps_snoc; [constructor|done].
  - rewrite app_comm_cons. eapply steps_snoc; [by apply IH|done].
Qed.

Lemma run_steps cs w w' :
  run rand_32_int rand_32_double cs w = Some w' →
  steps rand_32_int rand_32_double w cs w'.
Proof.
  revert w. induction cs as [|c cs IH]; intros w H; simpl in H.
  - injection H as <-. constructor.
  - destruct (exec rand_32_int rand_32_double c w) as [w1|] eqn:E; [|done].
    eapply steps_cons; [by apply exec_step|by apply IH].
Qed.

End Runs.

Lemma Lcg_rand_32_int_range n g : 0 < n → 0 ≤ (Lcg.rand_32_int n g).1 < n.
Proof. intros H. simpl. by apply Z.mod_pos_bound. Qed.

Lemma demo_reachable nr_seeds K g w0 cs w :
  0 ≤ nr_seeds < 2 ^ 31 → 0 ≤ K < 2 ^ 32 →
  demo_init nr_seeds K g = Some w0 → demo_run cs w0 = Some w →
  reachable Lcg.rand_init Lcg.rand Lcg.RAND_MAX Lcg.rand_32_int Lcg.rand_32_double
    nr_seeds K cs w.
Proof.
  intros Hn HK Hi Hr. split; [done|]. split; [done|].
  exists demo_junk, g, w0. split; [done|]. by apply run_steps.
Qed.

Lemma get_seed_fields st seed v :
  get_seed st seed = Some v →
  rd (_Fitness st) seed = Some (vFitness v) ∧ rd (_bestIndex st) seed = Some (vBest v) ∧
  rd (_nextToEvaluate st) seed = Some (vNext v) ∧ rd (_individual st) seed = Some (vInd v) ∧
  rd (_currentRelativeProb st) seed = Some (vCur v) ∧ rd (p st) seed = Some (vP v).
Proof.
  unfold get_seed. intros H.
  destruct (rd (_Fitness st) seed) eqn:E1; [|done].
  destruct (rd (_bestIndex st) seed) eqn:E2; [|done].
  destruct (rd (_nextToEvaluate st) seed) eqn:E3; [|done].
  destruct (rd (_individual st) seed) eqn:E4; [|done].
  destruct (rd (_currentRelativeProb st) seed) eqn:E5; [|done].
  destruct (rd (p st) seed) eqn:E6; [|done].
  simpl in H. by injection H as <-.
Qed.

(** A seed that indexes one of the globals of a well-formed state has its
    rows. *)
Lemma wf_rows st seed :
  wf st →
  (is_Some (rd (_Fitness st) seed) ∨ is_Some (rd (_bestIndex st) seed) ∨
   is_Some (rd (_nextToEvaluate st) seed) ∨ is_Some (rd (_individual st) seed) ∨
   is_Some (rd (_currentRelativeProb st) seed) ∨ is_Some (rd (p st) seed)) →
  ∃ v, get_seed st seed = Some v ∧ wf_view (MutationOperatorsNum st) v.
Proof.
  intros Hwf H. apply wf_get_seed; [done|].
  destruct Hwf as (_ & (n & H1 & H2 & H3 & H4 & H5 & H6) & _).
  destruct H as [[? H]|[[? H]|[[? H]|[[? H]|[[? H]|[? H]]]]]];
    apply rd_bound in H; lia.
Qed.

Lemma rd2_Some {A} (a : list (list A)) i j x :
  rd2 a i j = Some x ↔ ∃ row, rd a i = Some row ∧ rd row j = Some x.
Proof.
  unfold rd2. destruct (rd a i) as [row|]; simpl.
  - split; [by exists row|]. by intros (? & [= <-] & ?).
  - split; [done|]. by intros (? & ? & _).
Qed.

(** ** The embedding on concrete inputs *)

Example LEARNING_RATE_bits : LEARNING_RATE = S754_finite false 5404319552844595 (-54).
Proof. reflexivity. Qed.

Example one_half_bits : tenths 5 = S754_finite false 4503599627370496 (-53).
Proof. reflexivity. Qed.

Example to_int_wraps : to_int (2 ^ 31) = - 2 ^ 31 ∧ to_int (2 ^ 32 - 1) = -1 ∧ to_int 7 = 7.
Proof. by vm_compute. Qed.

Example memset0_bytes :
  memset0 [1; 2; 3; 4; 5; 6] 8 = Some [0; 0; 3; 4; 5; 6] ∧
  memset0 [-1; -1] 5 = Some [0; -256] ∧
  memset0 [1; 2] 9 = None.
Proof. by vm_compute. Qed.

(** The all-off candidate [[false]]: the probe comes back to its start. *)
Example select_all_off :
  rd2 (_individual demo_off.1) 0 0 = Some [false] ∧
  DARWIN_SelectOperator Lcg.rand_32_int 2 0 demo_off = Some (0, (demo_off.1, 377401575)).
Proof. by vm_compute. Qed.

(** The start is operator 0, which is off; operator 1 is the first one on. *)
Example select_probes_forward :
  rd2 (_individual demo_w0.1) 0 0 = Some [false; true; false] ∧
  (Lcg.rand_32_int 3 demo_w0.2).1 = 0 ∧
  fst <$> DARWIN_SelectOperator Lcg.rand_32_int 4 0 demo_w0 = Some 1.
Proof. by vm_compute. Qed.

(** The last call of a generation: the elites are individuals 0, 5, 10
    and 19, of which one, two and none have operators 0, 1 and 2 on. *)
Example boundary_update :
  _bestIndex <$> evaluate_candidate 0 9 demo_w19.1
    = Some [[0; 5; 10; 19]; [0; 5; 10; 15]] ∧
  (λ w : world Z, p w.1) <$> DARWIN_NotifyFeedback Lcg.rand_32_double 0 9 demo_w19
    = Some [[smooth (tenths 5) 1; smooth (tenths 5) 2; smooth (tenths 5) 1];
            [tenths 5; tenths 5; tenths 5]] ∧
  smooth (tenths 5) 1 = S754_finite false 7656119366529843 (-54) ∧
  smooth (tenths 5) 2 = tenths 5.
Proof. by vm_compute. Qed.

Lemma demo_w0_reachable :
  reachable Lcg.rand_init Lcg.rand Lcg.RAND_MAX Lcg.rand_32_int Lcg.rand_32_double
    2 3 [] demo_w0.
Proof.
  apply (demo_reachable 2 3 1 demo_w0); [lia|lia|by vm_compute|by vm_compute].
Qed.

Lemma demo_w3_reachable :
  reachable Lcg.rand_init Lcg.rand Lcg.RAND_MAX Lcg.rand_32_int Lcg.rand_32_double
    2 3 demo_calls3 demo_w3.
Proof.
  apply (demo_reachable 2 3 1 demo_w0); [lia|lia|by vm_compute|by vm_compute].
Qed.

Lemma demo_w19_reachable :
  reachable Lcg.rand_init Lcg.rand Lcg.RAND_MAX Lcg.rand_32_int Lcg.rand_32_double
    2 3 demo_calls19 demo_w19.
Proof.
  apply (demo_reachable 2 3 1 demo_w0); [lia|lia|by vm_compute|by vm_compute].
Qed.

Lemma demo_w20_reachable :
  reachable Lcg.rand_init Lcg.rand Lcg.RAND_MAX Lcg.rand_32_int Lcg.rand_32_double
    2 3 demo_calls demo_w20.
Proof.
  apply (demo_reachable 2 3 1 demo_w0); [lia|lia|by vm_compute|by vm_compute].
Qed.

Lemma demo_off_reachable :
  reachable Lcg.rand_init Lcg.rand Lcg.RAND_MAX Lcg.rand_32_int Lcg.rand_32_double
    1 1 [] demo_off.
Proof.
  apply (demo_reachable 1 1 1 demo_off); [lia|lia|by vm_compute|by vm_compute].
Qed.

Lemma reachable_wf {RNG} (rand_init : RNG → RNG) rand RAND_MAX rand_32_int rand_32_double
    n K cs (w : world RNG) :
  reachable rand_init rand RAND_MAX rand_32_int rand_32_double n K cs w → wf w.1.
Proof. intros Hr%reachable_reached. by destruct Hr. Qed.

Section Claims.
Context {RNG : Type}.
Variables (rand_init : RNG → RNG) (rand : RNG → Z * RNG) (RAND_MAX : Z).
Variables (rand_32_int : Z → RNG → Z * RNG) (rand_32_double : RNG → double * RNG).

(** C1.  Every learned probability [p[seed][i]] of a state reached from
    [DARWIN_init] by any calls is a double in [[0, 1]]; right after
    [DARWIN_init] it is 0.5. *)
Theorem C1_probability_in_unit_interval nr_seeds K cs st g seed i x :
  reachable rand_init rand RAND_MAX rand_32_int rand_32_double nr_seeds K cs (st, g) →
  rd2 (p st) seed i = Some x →
  in_unit_interval x ∧ (cs = [] → x = tenths 5).
Proof.
  intros Hr%reachable_reached Hx. simpl in Hr.
  apply rd2_Some in Hx as (row & Hrow & Hx).
  destruct (wf_rows st seed (re_wf _ _ _ _ Hr)) as (v & Hv & Hwf);
    [by do 5 right; eexists|].
  pose proof (get_seed_fields _ _ _ Hv) as (_ & _ & _ & _ & _ & HP).
  rewrite Hrow in HP. injection HP as ->.
  apply rd_Some in Hx as [_ Hx]. split.
  - apply prob_ok_unit_interval.
    by apply (wf_P _ _ (wf_view_mid _ _ Hwf) (Z.to_nat i)).
  - intros Hcs. destruct (re_init _ _ _ _ Hr Hcs seed v Hv) as [_ HP].
    rewrite HP in Hx. by apply lookup_replicate in Hx as [-> _].
Qed.


(** ** Selection *)

Lemma SelectOperator_spec st g seed fuel :
  wf st → 0 < MutationOperatorsNum st ≤ 2 ^ 31 →
  (∀ n g, 0 < n → 0 ≤ (rand_32_int n g).1 < n) →
  0 ≤ seed < Z.of_nat (length (_nextToEvaluate st)) →
  MutationOperatorsNum st < Z.of_nat fuel →
  ∃ c cur d,
    rd (_currentRelativeProb st) seed = Some c ∧
    rd2 (_individual st) seed c = Some cur ∧
    length cur = Z.to_nat (MutationOperatorsNum st) ∧
    0 ≤ (rand_32_int (MutationOperatorsNum st) g).1 < MutationOperatorsNum st ∧
    0 ≤ d ≤ MutationOperatorsNum st ∧
    DARWIN_SelectOperator rand_32_int fuel seed (st, g)
      = Some (((rand_32_int (MutationOperatorsNum st) g).1 + d) mod MutationOperatorsNum st,
              (st, (rand_32_int (MutationOperatorsNum st) g).2)) ∧
    (∀ d', 0 ≤ d' < d →
       rd cur (((rand_32_int (MutationOperatorsNum st) g).1 + d') mod MutationOperatorsNum st)
         = Some false) ∧
    (rd cur (((rand_32_int (MutationOperatorsNum st) g).1 + d) mod MutationOperatorsNum st)
       = Some true ∨ d = MutationOperatorsNum st).
Proof.
  intros Hwf HK Hrng Hseed Hfuel.
  destruct (wf_get_seed st seed Hwf Hseed) as (v & Hv & [Hm Hn Hc]).
  pose proof (get_seed_fields _ _ _ Hv) as (_ & _ & _ & HI & HC & _).
  pose proof (wf_Next _ _ Hm) as [Hn0 _].
  destruct (wf_mid_row _ v (vCur v) Hm) as (cur & Hcur & Hl); [lia|].
  pose proof (Hrng (MutationOperatorsNum st) g ltac:(lia)) as Hr.
  unfold DARWIN_SelectOperator.
  destruct (rand_32_int (MutationOperatorsNum st) g) as [r g1]. simpl in Hr |- *.
  destruct (select_loop_spec cur (MutationOperatorsNum st) fuel r 0)
    as (d & Hd & Hloop & Hoff & Hon); [lia|done|lia|lia|lia|].
  exists (vCur v), cur, d. rewrite HC. simpl.
  unfold rd2. rewrite HI. simpl. rewrite Hcur. simpl.
  rewrite (to_uint_small r) by lia. rewrite Hloop. simpl.
  pose proof (Z.mod_pos_bound (r + d) (MutationOperatorsNum st) ltac:(lia)).
  rewrite to_int_small by lia.
  repeat split; try done; try lia.
  destruct Hon as [?|?]; [by left|right; lia].
Qed.

(** C3, amended.  On a well-formed state (every reachable state is one,
    [reachable_wf]) with at least one operator, whatever the current
    candidate holds, all off included, [DARWIN_SelectOperator] returns
    (any fuel above [K] is enough for its loop) and the operator it
    returns is in [[0, K)].  The bound [1 <= K] is needed: [DARWIN_init]
    accepts [K = 0], and the call then has no result, as the evaluation
    on [demo_none] at the end of the file shows.  [K <= 2 ^ 31] keeps
    the id inside the [int] that is returned. *)
Theorem C3_select_returns_valid_operator st g seed fuel :
  wf st → 0 < MutationOperatorsNum st ≤ 2 ^ 31 →
  (∀ n g, 0 < n → 0 ≤ (rand_32_int n g).1 < n) →
  0 ≤ seed < Z.of_nat (length (_nextToEvaluate st)) →
  MutationOperatorsNum st < Z.of_nat fuel →
  ∃ op w', DARWIN_SelectOperator rand_32_int fuel seed (st, g) = Some (op, w') ∧
           0 ≤ op < MutationOperatorsNum st.
Proof.
  intros Hwf HK Hrng Hseed Hfuel.
  destruct (SelectOperator_spec st g seed fuel Hwf HK Hrng Hseed Hfuel)
    as (c & cur & d & _ & _ & _ & _ & _ & Hsel & _).
  eexists _, _. split; [exact Hsel|]. apply Z.mod_pos_bound. lia.
Qed.


(** C8.  [DARWIN_SelectOperator] leaves the whole engine state as it is:
    when it returns, the state is the one it was given and the generator
    has advanced by the one draw of [rand_32_int]; and on a well-formed
    state it does return. *)
Theorem C8_select_changes_no_state st g seed fuel :
  wf st → 0 < MutationOperatorsNum st ≤ 2 ^ 31 →
  (∀ n g, 0 < n → 0 ≤ (rand_32_int n g).1 < n) →
  0 ≤ seed < Z.of_nat (length (_nextToEvaluate st)) →
  MutationOperatorsNum st < Z.of_nat fuel →
  is_Some (DARWIN_SelectOperator rand_32_int fuel seed (st, g)) ∧
  ∀ op st' g', DARWIN_SelectOperator rand_32_int fuel seed (st, g) = Some (op, (st', g')) →
    st' = st ∧ g' = (rand_32_int (MutationOperatorsNum st) g).2.
Proof.
  intros Hwf HK Hrng Hseed Hfuel. split.
  - destruct (SelectOperator_spec st g seed fuel Hwf HK Hrng Hseed Hfuel)
      as (c & cur & d & _ & _ & _ & _ & _ & -> & _). by eexists.
  - intros op st' g' H. by apply SelectOperator_state in H as [? ?].
Qed.

(** C10.  [DARWIN_get_parent_repr] returns 0 for every seed and every
    state, and hands the state back unchanged. *)
Theorem C10_get_parent_repr_is_zero (seed : Z) (w : world RNG) :
  DARWIN_get_parent_repr seed w = (0, w).
Proof. reflexivity. Qed.


(** ** Feedback *)

Lemma evaluate_candidate_exec st seed numPaths v :
  wf st → get_seed st seed = Some v →
  ∃ v1, v_evaluate_candidate numPaths v = Some v1 ∧
        evaluate_candidate seed numPaths st = Some (put_seed st seed v1) ∧
        get_seed (put_seed st seed v1) seed = Some v1 ∧
        wf_mid (MutationOperatorsNum st) v1 ∧ vNext v1 = vNext v + 1 ∧
        vCur v1 = vCur v ∧ vP v1 = vP v ∧ vInd v1 = vInd v.
Proof.
  intros Hwf Hv. pose proof (get_seed_ok _ _ _ Hv) as Hok.
  destruct Hwf as (_ & _ & Hall).
  destruct (v_evaluate_candidate_wf _ numPaths v (Hall _ _ Hv)) as (v1 & Hev & Hrest).
  exists v1. split; [done|]. split; [|split; [by apply get_put_seed_eq|done]].
  rewrite <- (put_get_seed st seed v Hv) at 1.
  rewrite lift_evaluate_candidate by done. by rewrite Hev.
Qed.

Lemma next_candidate_exec st seed v g :
  seed_ok st seed → wf_mid (MutationOperatorsNum st) v →
  0 ≤ MutationOperatorsNum st → vNext v < 20 →
  ∃ row g',
    next_candidate rand_32_double seed (put_seed st seed v, g)
      = Some (put_seed st seed (vset_Ind (<[Z.to_nat (vNext v) := row]> (vInd v))
                                  (vset_Cur (vNext v) v)), g') ∧
    length row = Z.to_nat (MutationOperatorsNum st).
Proof.
  intros Hok Hm HK Hn.
  destruct (v_next_candidate_spec rand_32_double _ v g Hm HK Hn) as (row & g' & Hex & Hl).
  exists row, g'. split; [|done].
  change (put_seed st seed v, g) with (put_world st seed (v, g)).
  rewrite lift_next_candidate by done. by rewrite Hex.
Qed.



Lemma generation_boundary_exec st seed v1 :
  seed_ok st seed → wf_mid (MutationOperatorsNum st) v1 → 0 ≤ MutationOperatorsNum st →
  ∃ P',
    generation_boundary seed (put_seed st seed v1)
      = Some (put_seed st seed
                {| vFitness := replicate 5 0 ++ drop 5 (vFitness v1);
                   vBest := [0; 5; 10; 15]; vNext := 0;
                   vInd := vInd v1; vCur := vCur v1; vP := P' |}) ∧
    wf_mid (MutationOperatorsNum st)
      {| vFitness := replicate 5 0 ++ drop 5 (vFitness v1);
         vBest := [0; 5; 10; 15]; vNext := 0;
         vInd := vInd v1; vCur := vCur v1; vP := P' |} ∧
    ∀ (i : nat) x, vP v1 !! i = Some x →
      P' !! i = Some (smooth x (spec_clamp (elite_count v1 (Z.of_nat i)))).
Proof.
  intros Hok Hm HK.
  destruct (v_generation_boundary_spec _ v1 Hm HK) as (P' & Hgb & _ & HP').
  destruct (v_generation_boundary_wf _ v1 Hm HK) as (v2 & Hgb' & Hm2 & _).
  rewrite Hgb in Hgb'. injection Hgb' as <-.
  exists P'. split; [|done].
  rewrite lift_generation_boundary by done. by rewrite Hgb.
Qed.

(** C5.  In the call that ends a generation (cursor [M - 1]), for every
    operator [i] the number [sum] of elites that have [i] on is clamped
    ([N] becomes [N - 1], [0] becomes [1]) and the probability becomes
    [(1 - 0.3) * p[i] + 0.3 * clamped / N], computed in binary64; the
    clamped count is never [0] or [N].  The elites are those that stand
    after the elite update of this call. *)
Theorem C5_probability_update st g seed numPaths :
  wf st → rd (_nextToEvaluate st) seed = Some (M - 1) →
  ∃ st1 v1 w',
    evaluate_candidate seed numPaths st = Some st1 ∧
    get_seed st1 seed = Some v1 ∧
    DARWIN_NotifyFeedback rand_32_double seed numPaths (st, g) = Some w' ∧
    ∀ i x, rd2 (p st) seed i = Some x →
      let sum := elite_count v1 i in
      let clamped :=
        if decide (sum = N) then N - 1 else if decide (sum = 0) then 1 else sum in
      0 ≤ sum ≤ N ∧ 1 ≤ clamped ≤ N - 1 ∧
      rd2 (p w'.1) seed i
        = Some (dadd (dmul (dsub (Z2D 1) (tenths 3)) x)
                     (ddiv (dmul (tenths 3) (Z2D clamped)) (Z2D N))).
Proof.
  intros Hwf Hnxt.
  destruct (wf_rows st seed Hwf) as (v & Hv & Hwv); [by do 2 right; left; eexists|].
  pose proof (get_seed_fields _ _ _ Hv) as (_ & _ & HN & _ & _ & HP).
  rewrite Hnxt in HN. injection HN as HN.
  pose proof (get_seed_ok _ _ _ Hv) as Hok.
  assert (HK : 0 ≤ MutationOperatorsNum st) by (destruct Hwf; lia).
  destruct (evaluate_candidate_exec st seed numPaths v Hwf Hv)
    as (v1 & _ & Hex & Hget & Hm1 & Hn1 & _ & HP1 & _).
  destruct (generation_boundary_exec st seed v1 Hok Hm1 HK) as (P' & Hgb & Hm2 & HP').
  destruct (next_candidate_exec st seed _ g Hok Hm2 HK) as (row & g' & Hnc & _);
    [cbn [vNext]; lia|].
  eexists _, v1, _. split; [exact Hex|]. split; [exact Hget|]. split.
  - unfold DARWIN_NotifyFeedback. rewrite Hex. cbn [mbind option_bind].
    pose proof (get_seed_fields _ _ _ Hget) as (_ & _ & -> & _).
    cbn [mbind option_bind]. rewrite decide_True by (rewrite Hn1, <- HN; unfold M; lia).
    rewrite Hgb. cbn [mbind option_bind]. exact Hnc.
  - intros i x Hx sum clamped.
    apply rd2_Some in Hx as (row0 & Hrow0 & Hx). rewrite HP in Hrow0.
    injection Hrow0 as <-. pose proof (rd_bound _ _ _ Hx) as Hi.
    destruct Hwv as [Hm _ _]. rewrite (wf_P_len _ _ Hm) in Hi.
    apply rd_Some in Hx as [_ Hx]. rewrite <- HP1 in Hx.
    destruct (v_elite_sum_loop _ v1 i Hm1) as [_ Hsum]; [lia|].
    destruct (clamp_sum_spec _ Hsum) as [_ Hclamp].
    split; [unfold N; exact Hsum|]. split; [unfold N; exact Hclamp|].
    cbn [fst]. unfold rd2. fields.
    rewrite rd_insert_eq by (destruct Hok as (? & ? & ? & ? & ? & ? & ?); lia).
    cbn [mbind option_bind]. apply rd_Some. split; [lia|].
    rewrite (HP' _ _ Hx), Z2Nat.id by lia. done.
Qed.

(** The blocks a call runs: after [n] calls for a seed the cursor is
    [n mod M]; the next call runs [generation_boundary] between the elite
    update and the next candidate exactly when [(n + 1) mod M = 0]. *)
Lemma NotifyFeedback_blocks nr_seeds K cs st g seed numPaths :
  reachable rand_init rand RAND_MAX rand_32_int rand_32_double nr_seeds K cs (st, g) →
  0 ≤ seed < nr_seeds →
  let n := notified seed cs in
  rd (_nextToEvaluate st) seed = Some (n mod M) ∧ 0 ≤ n mod M < M ∧
  ∃ st1 w',
    evaluate_candidate seed numPaths st = Some st1 ∧
    rd (_nextToEvaluate st1) seed = Some (n mod M + 1) ∧
    (n mod M + 1 = M ↔ (n + 1) mod M = 0) ∧
    DARWIN_NotifyFeedback rand_32_double seed numPaths (st, g) = Some w' ∧
    (if decide ((n + 1) mod M = 0)
     then ∃ st2, generation_boundary seed st1 = Some st2 ∧
                 next_candidate rand_32_double seed (st2, g) = Some w'
     else next_candidate rand_32_double seed (st1, g) = Some w') ∧
    rd (_nextToEvaluate w'.1) seed = Some ((n + 1) mod M).
Proof.
  intros Hr%reachable_reached Hseed n. simpl in Hr.
  destruct Hr as [Hwf HKst Hlen Hcur _].
  destruct (wf_get_seed st seed Hwf) as (v & Hv & Hwv); [lia|].
  pose proof (get_seed_fields _ _ _ Hv) as (_ & _ & HN & _).
  pose proof (get_seed_ok _ _ _ Hv) as Hok.
  assert (HK : 0 ≤ MutationOperatorsNum st) by (destruct Hwf; lia).
  pose proof (Hcur seed v Hv) as Hn. fold n in Hn.
  pose proof (Z.mod_pos_bound n M ltac:(done)) as Hmod.
  rewrite HN, Hn. split; [done|]. split; [done|].
  destruct (evaluate_candidate_exec st seed numPaths v Hwf Hv)
    as (v1 & _ & Hex & Hget & Hm1 & Hn1 & _).
  pose proof (get_seed_fields _ _ _ Hget) as (_ & _ & HN1 & _).
  rewrite Hn1, Hn in HN1.
  assert (Hiff : n mod M + 1 = M ↔ (n + 1) mod M = 0).
  { unfold M in *. rewrite <- (Z.add_mod_idemp_l n 1 20) by lia.
    split; intros H.
    - by rewrite H.
    - destruct (decide (n mod 20 + 1 = 20)) as [|Hne]; [done|].
      rewrite Z.mod_small in H by lia. lia. }
  unfold DARWIN_NotifyFeedback. rewrite Hex. cbn [mbind option_bind].
  rewrite HN1. cbn [mbind option_bind].
  destruct (decide ((n + 1) mod M = 0)) as [Hb|Hb].
  - rewrite decide_True by (by apply Hiff).
    destruct (generation_boundary_exec st seed v1 Hok Hm1 HK) as (P' & Hgb & Hm2 & _).
    destruct (next_candidate_exec st seed _ g Hok Hm2 HK) as (row & g' & Hnc & _);
      [cbn [vNext]; lia|].
    rewrite Hgb. cbn [mbind option_bind].
    eexists _, _. split; [done|]. split; [done|]. split; [done|].
    split; [exact Hnc|]. split; [eexists; split; [done|exact Hnc]|].
    cbn [fst]. fields. rewrite rd_insert_eq by (destruct Hok as (? & ? & ? & ? & ?); lia).
    by rewrite Hb.
  - rewrite decide_False by (by rewrite Hiff).
    destruct (next_candidate_exec st seed v1 g Hok Hm1 HK) as (row & g' & Hnc & _);
      [rewrite Hn1, Hn; unfold M in *; lia|].
    cbn [mbind option_bind].
    eexists _, _. split; [done|]. split; [done|]. split; [done|].
    split; [exact Hnc|]. split; [exact Hnc|].
    cbn [fst]. fields. rewrite rd_insert_eq by (destruct Hok as (? & ? & ? & ? & ?); lia).
    rewrite Hn1, Hn. f_equal. unfold M in *.
    assert (n mod 20 + 1 ≠ 20) by (intros ?; apply Hb, Hiff; done).
    rewrite <- (Z.add_mod_idemp_l n 1 20) by lia.
    rewrite (Z.mod_small (n mod 20 + 1) 20) by lia. done.
Qed.

Lemma NotifyFeedback_boundary_exec st g seed numPaths v :
  wf st → get_seed st seed = Some v → vNext v = M - 1 →
  ∃ v1 P' row g',
    evaluate_candidate seed numPaths st = Some (put_seed st seed v1) ∧
    DARWIN_NotifyFeedback rand_32_double seed numPaths (st, g)
      = Some (put_seed st seed
                {| vFitness := replicate 5 0 ++ drop 5 (vFitness v1);
                   vBest := [0; 5; 10; 15]; vNext := 0;
                   vInd := <[0%nat := row]> (vInd v1); vCur := 0; vP := P' |}, g').
Proof.
  intros Hwf Hv HN. pose proof (get_seed_ok _ _ _ Hv) as Hok.
  assert (HK : 0 ≤ MutationOperatorsNum st) by (destruct Hwf; lia).
  destruct (evaluate_candidate_exec st seed numPaths v Hwf Hv)
    as (v1 & _ & Hex & Hget & Hm1 & Hn1 & _).
  destruct (generation_boundary_exec st seed v1 Hok Hm1 HK) as (P' & Hgb & Hm2 & _).
  destruct (next_candidate_exec st seed _ g Hok Hm2 HK) as (row & g' & Hnc & _);
    [cbn [vNext]; lia|].
  exists v1, P', row, g'. split; [exact Hex|].
  unfold DARWIN_NotifyFeedback. rewrite Hex. cbn [mbind option_bind].
  pose proof (get_seed_fields _ _ _ Hget) as (_ & _ & -> & _).
  cbn [mbind option_bind]. rewrite decide_True by (rewrite Hn1, HN; unfold M; lia).
  rewrite Hgb. cbn [mbind option_bind]. exact Hnc.
Qed.

(** C9.  In every state reached from [DARWIN_init], the elite recorded for
    bucket [b] is an individual of that bucket: it lies in
    [[5 * b, 5 * b + 5)], so that its own bucket [x * N / M] is [b].  It is
    [5 * b] right after [DARWIN_init], and again after the call that ends
    a generation. *)
Theorem C9_elite_in_own_bucket nr_seeds K cs st g seed b x :
  reachable rand_init rand RAND_MAX rand_32_int rand_32_double nr_seeds K cs (st, g) →
  rd2 (_bestIndex st) seed b = Some x →
  0 ≤ b < N ∧ 5 * b ≤ x < 5 * b + 5 ∧ x * N / M = b ∧ (cs = [] → x = 5 * b) ∧
  ∀ numPaths w',
    notified seed cs mod M = M - 1 →
    DARWIN_NotifyFeedback rand_32_double seed numPaths (st, g) = Some w' →
    rd2 (_bestIndex w'.1) seed b = Some (5 * b).
Proof.
  intros Hr%reachable_reached Hx. simpl in Hr.
  apply rd2_Some in Hx as (row & Hrow & Hx).
  destruct (wf_rows st seed (re_wf _ _ _ _ Hr)) as (v & Hv & Hwv);
    [by right; left; eexists|].
  pose proof (get_seed_fields _ _ _ Hv) as (_ & HB & _).
  rewrite Hrow in HB. injection HB as ->.
  destruct Hwv as [Hm _ _]. pose proof (rd_bound _ _ _ Hx) as Hb.
  rewrite (wf_Best_len _ _ Hm) in Hb.
  apply rd_Some in Hx as [_ Hx].
  pose proof (wf_Best _ _ Hm _ _ Hx) as Hrange. rewrite Z2Nat.id in Hrange by lia.
  assert (Hcases : b = 0 ∨ b = 1 ∨ b = 2 ∨ b = 3) by lia.
  split; [unfold N; lia|]. split; [done|]. split; [|split].
  - unfold N, M. Z.div_mod_to_equations. lia.
  - intros Hcs. destruct (re_init _ _ _ _ Hr Hcs seed v Hv) as [HB _].
    rewrite HB in Hx.
    destruct Hcases as [ -> | [ -> | [ -> | -> ]]];
      simpl in Hx; injection Hx as <-; done.
  - intros numPaths w' Hlast Hcall.
    pose proof (re_cursor _ _ _ _ Hr seed v Hv) as Hcur. rewrite Hlast in Hcur.
    destruct (NotifyFeedback_boundary_exec st g seed numPaths v (re_wf _ _ _ _ Hr) Hv Hcur)
      as (v1 & P' & row' & g' & _ & Heq).
    rewrite Heq in Hcall. injection Hcall as <-. cbn [fst]. unfold rd2. fields.
    pose proof (get_seed_ok _ _ _ Hv) as (? & ? & ? & _).
    rewrite rd_insert_eq by lia. cbn [mbind option_bind].
    by destruct Hcases as [ -> | [ -> | [ -> | -> ]]].
Qed.

End Claims.

Lemma C1_witness :
  reachable Lcg.rand_init Lcg.rand Lcg.RAND_MAX Lcg.rand_32_int Lcg.rand_32_double
    2 3 demo_calls demo_w20 ∧
  rd2 (p demo_w20.1) 0 1 = Some (S754_finite false 7656119366529843 (-54)) ∧
  in_unit_interval (S754_finite false 7656119366529843 (-54)) ∧
  (demo_calls = [] → S754_finite false 7656119366529843 (-54) = tenths 5).
Proof.
  split; [exact demo_w20_reachable|]. split; [reflexivity|].
  exact (C1_probability_in_unit_interval _ _ _ _ _ 2 3 demo_calls demo_w20.1 demo_w20.2
           0 1 _ demo_w20_reachable eq_refl).
Defined.

Lemma C3_witness :
  wf demo_off.1 ∧ 0 < MutationOperatorsNum demo_off.1 ≤ 2 ^ 31 ∧
  (∀ n g, 0 < n → 0 ≤ (Lcg.rand_32_int n g).1 < n) ∧
  0 ≤ 0 < Z.of_nat (length (_nextToEvaluate demo_off.1)) ∧
  MutationOperatorsNum demo_off.1 < Z.of_nat 2 ∧
  rd2 (_individual demo_off.1) 0 0 = Some [false] ∧
  ∃ op w', DARWIN_SelectOperator Lcg.rand_32_int 2 0 (demo_off.1, demo_off.2)
             = Some (op, w') ∧
           0 ≤ op < MutationOperatorsNum demo_off.1.
Proof.
  assert (Hwf : wf demo_off.1) by exact (reachable_wf _ _ _ _ _ _ _ _ _ demo_off_reachable).
  assert (HK : 0 < MutationOperatorsNum demo_off.1 ≤ 2 ^ 31) by (simpl; lia).
  assert (Hs : 0 ≤ 0 < Z.of_nat (length (_nextToEvaluate demo_off.1))) by (simpl; lia).
  assert (Hf : MutationOperatorsNum demo_off.1 < Z.of_nat 2) by (simpl; lia).
  split; [exact Hwf|]. split; [exact HK|]. split; [exact Lcg_rand_32_int_range|].
  split; [exact Hs|]. split; [exact Hf|]. split; [reflexivity|].
  exact (C3_select_returns_valid_operator Lcg.rand_32_int demo_off.1 demo_off.2 0 2
           Hwf HK Lcg_rand_32_int_range Hs Hf).
Defined.


Lemma C5_witness :
  wf demo_w19.1 ∧ rd (_nextToEvaluate demo_w19.1) 0 = Some (M - 1) ∧
  ∃ st1 v1 w',
    evaluate_candidate 0 9 demo_w19.1 = Some st1 ∧
    get_seed st1 0 = Some v1 ∧
    DARWIN_NotifyFeedback Lcg.rand_32_double 0 9 (demo_w19.1, demo_w19.2) = Some w' ∧
    ∀ i x, rd2 (p demo_w19.1) 0 i = Some x →
      let sum := elite_count v1 i in
      let clamped :=
        if decide (sum = N) then N - 1 else if decide (sum = 0) then 1 else sum in
      0 ≤ sum ≤ N ∧ 1 ≤ clamped ≤ N - 1 ∧
      rd2 (p w'.1) 0 i
        = Some (dadd (dmul (dsub (Z2D 1) (tenths 3)) x)
                     (ddiv (dmul (tenths 3) (Z2D clamped)) (Z2D N))).
Proof.
  assert (Hwf : wf demo_w19.1) by exact (reachable_wf _ _ _ _ _ _ _ _ _ demo_w19_reachable).
  split; [exact Hwf|]. split; [reflexivity|].
  exact (C5_probability_update Lcg.rand_32_double demo_w19.1 demo_w19.2 0 9 Hwf eq_refl).
Defined.


Lemma C8_witness :
  wf demo_w0.1 ∧ 0 < MutationOperatorsNum demo_w0.1 ≤ 2 ^ 31 ∧
  (∀ n g, 0 < n → 0 ≤ (Lcg.rand_32_int n g).1 < n) ∧
  0 ≤ 1 < Z.of_nat (length (_nextToEvaluate demo_w0.1)) ∧
  MutationOperatorsNum demo_w0.1 < Z.of_nat 4 ∧
  is_Some (DARWIN_SelectOperator Lcg.rand_32_int 4 1 (demo_w0.1, demo_w0.2)) ∧
  ∀ op st' g',
    DARWIN_SelectOperator Lcg.rand_32_int 4 1 (demo_w0.1, demo_w0.2) = Some (op, (st', g')) →
    st' = demo_w0.1 ∧ g' = (Lcg.rand_32_int (MutationOperatorsNum demo_w0.1) demo_w0.2).2.
Proof.
  assert (Hwf : wf demo_w0.1) by exact (reachable_wf _ _ _ _ _ _ _ _ _ demo_w0_reachable).
  assert (HK : 0 < MutationOperatorsNum demo_w0.1 ≤ 2 ^ 31) by (simpl; lia).
  assert (Hs : 0 ≤ 1 < Z.of_nat (length (_nextToEvaluate demo_w0.1))) by (simpl; lia).
  assert (Hf : MutationOperatorsNum demo_w0.1 < Z.of_nat 4) by (simpl; lia).
  split; [exact Hwf|]. split; [exact HK|]. split; [exact Lcg_rand_32_int_range|].
  split; [exact Hs|]. split; [exact Hf|].
  exact (C8_select_changes_no_state Lcg.rand_32_int demo_w0.1 demo_w0.2 1 4
           Hwf HK Lcg_rand_32_int_range Hs Hf).
Defined.

Lemma C9_witness :
  reachable Lcg.rand_init Lcg.rand Lcg.RAND_MAX Lcg.rand_32_int Lcg.rand_32_double
    2 3 demo_calls3 demo_w3 ∧
  rd2 (_bestIndex demo_w3.1) 0 0 = Some 1 ∧
  0 ≤ 0 < N ∧ 5 * 0 ≤ 1 < 5 * 0 + 5 ∧ 1 * N / M = 0 ∧ (demo_calls3 = [] → 1 = 5 * 0) ∧
  ∀ numPaths w',
    notified 0 demo_calls3 mod M = M - 1 →
    DARWIN_NotifyFeedback Lcg.rand_32_double 0 numPaths (demo_w3.1, demo_w3.2) = Some w' →
    rd2 (_bestIndex w'.1) 0 0 = Some (5 * 0).
Proof.
  split; [exact demo_w3_reachable|]. split; [reflexivity|].
  exact (C9_elite_in_own_bucket Lcg.rand_init Lcg.rand Lcg.RAND_MAX Lcg.rand_32_int
           Lcg.rand_32_double 2 3 demo_calls3 demo_w3.1 demo_w3.2 0 0 1
           demo_w3_reachable eq_refl).
Defined.

(** C2.  The fitness array is not reset in full: [memset] is given [M] as
    its byte count, which covers the first [M / sizeof(int) = 5] entries.
    After [DARWIN_init] the other entries hold what [malloc] left there
    (7 in this run), and after the generation boundary they hold the
    fitness recorded during the generation (3 in this run). *)
Theorem C2_fitness_reset_is_partial :
  _Fitness <$> (fst <$> demo_init 1 1 1)
    = Some [[0; 0; 0; 0; 0; 7; 7; 7; 7; 7; 7; 7; 7; 7; 7; 7; 7; 7; 7; 7]] ∧
  _Fitness <$> (fst <$> (demo_init 1 1 1 ≫= demo_run (replicate 20 (Notify 0 3))))
    = Some [[0; 0; 0; 0; 0; 3; 3; 3; 3; 3; 3; 3; 3; 3; 3; 3; 3; 3; 3; 3]] ∧
  _nextToEvaluate <$> (fst <$> (demo_init 1 1 1 ≫= demo_run (replicate 20 (Notify 0 3))))
    = Some [0].
Proof. repeat split; vm_compute; reflexivity. Qed.

(* ================================================================= *)
(** * Further properties of the engine *)

(** ** The candidate drawn by a call *)

Section Sampling.
Context {RNG : Type} (rand_32_double : RNG → double * RNG).

Lemma length_sample_row ps g : length (sample_row rand_32_double ps g).1 = length ps.
Proof.
  revert g. induction ps as [|pi ps IH]; intros g; simpl; [done|].
  destruct (rand_32_double g) as [r g1]. specialize (IH g1).
  destruct (sample_row rand_32_double ps g1) as [row g2]. simpl in *. by rewrite IH.
Qed.

Lemma v_sample_loop_content (psuf : list double) :
  ∀ (ppre : list double) (pre old : list bool) v g,
    vP v = ppre ++ psuf → length pre = length ppre → length old = length psuf →
    0 ≤ vCur v < Z.of_nat (length (vInd v)) →
    rd (vInd v) (vCur v) = Some (pre ++ old) →
    for_ (length psuf) (Z.of_nat (length pre)) (v_sample_bit rand_32_double) (v, g)
    = Some (vset_Ind (<[Z.to_nat (vCur v) := pre ++ (sample_row rand_32_double psuf g).1]>
                        (vInd v)) v,
            (sample_row rand_32_double psuf g).2).
Proof.
  induction psuf as [|pi psuf IH]; intros ppre pre old v g HP Hpre Hold Hcur Hrow.
  - destruct old; [|done]. simpl. rewrite (rd_insert_id _ _ _ Hrow). by destruct v.
  - destruct old as [|o old]; [done|]. simpl in Hold.
    cbn [length for_ sample_row].
    destruct (rand_32_double g) as [r g1] eqn:Hr.
    assert (Hins : <[length pre := dlt r pi]> (pre ++ o :: old) = (pre ++ [dlt r pi]) ++ old).
    { rewrite insert_app_r_alt by lia.
      replace (length pre - length pre)%nat with 0%nat by lia. simpl.
      by rewrite <- app_assoc. }
    assert (Hstep : v_sample_bit rand_32_double (Z.of_nat (length pre)) (v, g)
              = Some (vset_Ind (<[Z.to_nat (vCur v) := (pre ++ [dlt r pi]) ++ old]> (vInd v)) v,
                      g1)).
    { unfold v_sample_bit. rewrite Hr.
      assert (Hpi : rd (vP v) (Z.of_nat (length pre)) = Some pi).
      { rewrite rd_nat, HP, lookup_app_r by lia.
        by replace (length pre - length ppre)%nat with 0%nat by lia. }
      rewrite Hpi. cbn [mbind option_bind]. unfold wr2. rewrite Hrow.
      cbn [mbind option_bind].
      rewrite wr_ok by (rewrite length_app; simpl; lia).
      cbn [mbind option_bind]. rewrite wr_ok by lia. cbn [mbind option_bind].
      by rewrite Nat2Z.id, Hins. }
    rewrite Hstep. cbn [mbind option_bind].
    specialize (IH (ppre ++ [pi]) (pre ++ [dlt r pi]) old
      (vset_Ind (<[Z.to_nat (vCur v) := (pre ++ [dlt r pi]) ++ old]> (vInd v)) v) g1).
    replace (Z.of_nat (length pre) + 1) with (Z.of_nat (length (pre ++ [dlt r pi])))
      by (rewrite length_app; simpl; lia).
    rewrite IH; cbn [vP vCur vInd vset_Ind].
    + destruct (sample_row rand_32_double psuf g1) as [row g2]. cbn [fst snd].
      rewrite list_insert_insert_eq, <- app_assoc. done.
    + by rewrite HP, <- app_assoc.
    + rewrite !length_app. simpl. lia.
    + lia.
    + by rewrite length_insert.
    + apply rd_insert_eq. lia.
Qed.

Lemma v_next_candidate_content K v g :
  wf_mid K v → 0 ≤ K → vNext v < 20 →
  v_next_candidate rand_32_double K (v, g)
  = Some (vset_Ind (<[Z.to_nat (vNext v) := (sample_row rand_32_double (vP v) g).1]> (vInd v))
            (vset_Cur (vNext v) v),
          (sample_row rand_32_double (vP v) g).2).
Proof.
  intros Hm HK Hn. unfold v_next_candidate. rewrite decide_True by (unfold M; lia).
  pose proof (wf_Next K v Hm) as [Hn0 _].
  destruct (wf_mid_row K v (vNext v) Hm) as (row0 & Hrow0 & Hl0); [lia|].
  rewrite Hrow0. cbn [mbind option_bind].
  pose proof (v_sample_loop_content (vP v) [] [] row0 (vset_Cur (vNext v) v) g) as H.
  cbn [vP vCur vInd vset_Cur length app] in H. change (Z.of_nat 0) with 0 in H.
  rewrite <- (wf_P_len K v Hm). rewrite H; try done.
  - rewrite Hl0. by destruct Hm.
  - rewrite (wf_Ind_len K v Hm). lia.
Qed.

End Sampling.

(** ** A call in closed form *)

Section Result.
Context {RNG : Type} (rand_32_double : RNG → double * RNG).

(** The rows of a seed after a call, in closed form. *)
Lemma v_NotifyFeedback_result K numPaths v g :
  wf_view K v → 0 ≤ K →
  ∃ v1 P',
    v_evaluate_candidate numPaths v = Some v1 ∧ wf_mid K v1 ∧
    vNext v1 = vNext v + 1 ∧
    vFitness v1 = <[Z.to_nat (vNext v) := to_int numPaths]> (vFitness v) ∧
    vInd v1 = vInd v ∧ vP v1 = vP v ∧
    length P' = Z.to_nat K ∧
    ((vNext v + 1 ≠ M ∧ P' = vP v) ∨
     (vNext v + 1 = M ∧
      ∀ (i : nat) x, vP v !! i = Some x →
        P' !! i = Some (smooth x (spec_clamp (elite_count v1 (Z.of_nat i)))))) ∧
    v_NotifyFeedback rand_32_double K numPaths (v, g)
    = Some ({| vFitness := if decide (vNext v + 1 = M)
                           then replicate 5 0 ++ drop 5 (vFitness v1) else vFitness v1;
               vBest := if decide (vNext v + 1 = M) then [0; 5; 10; 15] else vBest v1;
               vNext := (vNext v + 1) mod M;
               vInd := <[Z.to_nat ((vNext v + 1) mod M)
                           := (sample_row rand_32_double P' g).1]> (vInd v);
               vCur := (vNext v + 1) mod M;
               vP := P' |},
            (sample_row rand_32_double P' g).2).
Proof.
  intros Hwf HK.
  destruct (v_evaluate_candidate_spec K numPaths v Hwf) as (bi & fb & _ & _ & Hev).
  destruct (v_evaluate_candidate_wf K numPaths v Hwf)
    as (v1 & Hev1 & Hm1 & Hn1 & _ & HP1 & HI1).
  assert (HF1 : vFitness v1 = <[Z.to_nat (vNext v) := to_int numPaths]> (vFitness v)).
  { rewrite Hev in Hev1. by injection Hev1 as <-. }
  destruct Hwf as [Hm Hn Hc]. pose proof (wf_Next K v Hm) as [Hn0 _].
  unfold v_NotifyFeedback. rewrite Hev1. cbn [mbind option_bind]. rewrite Hn1.
  destruct (decide (vNext v + 1 = M)) as [HM|HM].
  - destruct (v_generation_boundary_spec K v1 Hm1 HK) as (P' & Hgb & Hl & HP').
    destruct (v_generation_boundary_wf K v1 Hm1 HK) as (v2 & Hgb' & Hm2 & _).
    rewrite Hgb in Hgb'. injection Hgb' as <-.
    exists v1, P'. rewrite Hgb. cbn [mbind option_bind].
    rewrite v_next_candidate_content by (try done; cbn [vNext]; lia).
    cbn [vNext vP vInd vCur vFitness vBest vset_Ind vset_Cur].
    rewrite HM. change (M mod M) with 0. rewrite HI1.
    split_and!; try done; [by rewrite Hn1|]. right. split; [done|]. intros i x Hx. apply HP'.
    by rewrite HP1.
  - exists v1, (vP v). cbn [mbind option_bind].
    rewrite v_next_candidate_content by (try done; unfold M in HM; lia).
    unfold M in *. rewrite (Z.mod_small (vNext v + 1) 20) by lia.
    cbn [vNext vP vInd vCur vFitness vBest vset_Ind vset_Cur].
    rewrite Hn1, HP1, HI1.
    split_and!; try done; try (by destruct Hm); try (by left).
    unfold vset_Ind, vset_Cur. cbn [vNext vP vInd vCur vFitness vBest].
    by rewrite Hn1, HP1.
Qed.

Lemma NotifyFeedback_result st g seed numPaths v :
  wf st → get_seed st seed = Some v →
  ∃ v' g',
    v_NotifyFeedback rand_32_double (MutationOperatorsNum st) numPaths (v, g)
      = Some (v', g') ∧
    DARWIN_NotifyFeedback rand_32_double seed numPaths (st, g)
      = Some (put_seed st seed v', g').
Proof.
  intros Hwf Hv.
  destruct (NotifyFeedback_exec rand_32_double st g seed numPaths v Hwf Hv)
    as (v' & g' & H1 & H2 & _). by exists v', g'.
Qed.

End Result.

(** ** Between 0.2 and 0.8 *)

Lemma dle_dval m e m' e' :
  normal_mant m → normal_mant m' → -200 ≤ e → -200 ≤ e' →
  dval m e ≤ dval m' e' →
  dle (S754_finite false m e) (S754_finite false m' e') = true.
Proof.
  unfold normal_mant, dval, dle, SFleb. intros Hm Hm' He He' Hv. cbn [SFcompare].
  destruct (Z.compare_spec e e') as [->|Hlt|Hgt]; [|reflexivity|].
  - assert (0 < 2 ^ (e' + 200)) by (apply Z.pow_pos_nonneg; lia).
    assert (Zpos m ≤ Zpos m') by (apply (Z.mul_le_mono_pos_r _ _ (2 ^ (e' + 200))); lia).
    rewrite (Pos.compare_cont_spec m m' Eq). unfold Pos.switch_Eq.
    destruct (Pos.compare_spec m m') as [_|_|Hgt]; [reflexivity|reflexivity|lia].
  - exfalso.
    assert (Hp : 2 * 2 ^ (e' + 200) ≤ 2 ^ (e + 200)).
    { rewrite <- Z.pow_succ_r by lia. apply Z.pow_le_mono_r; lia. }
    assert (0 < 2 ^ (e' + 200)) by (apply Z.pow_pos_nonneg; lia).
    assert (2 ^ 52 * 2 ^ (e + 200) ≤ Z.pos m * 2 ^ (e + 200))
      by (apply Z.mul_le_mono_nonneg_r; lia).
    assert (Z.pos m' * 2 ^ (e' + 200) < 2 ^ 53 * 2 ^ (e' + 200))
      by (apply Z.mul_lt_mono_pos_r; lia).
    change (2 ^ 53) with (2 ^ 52 * 2) in *.
    set (A := 2 ^ (e + 200)) in *. set (B := 2 ^ (e' + 200)) in *. nia.
Qed.

Lemma smooth_tight x s : prob_tight x → 1 ≤ s ≤ 3 → prob_tight (smooth x s).
Proof.
  intros (m & e & -> & Hm & He & Hv) Hs. unfold smooth.
  set (c := ddiv (dmul LEARNING_RATE (Z2D s)) (Z2D N)).
  change (dsub (Z2D 1) LEARNING_RATE) with (S754_finite false 6305039478318694 (-53)).
  unfold dmul, dadd.
  destruct (SFmul_rel 6305039478318694 (-53) m e) as (m1 & e1 & Hq1 & Hm1 & He1 & Hv1);
    [unfold normal_mant; lia|done|lia|lia|].
  rewrite Hq1. clear Hq1.
  assert (Hc : ∃ mc ec, c = S754_finite false mc ec
              ∧ normal_mant mc ∧ -56 ≤ ec ≤ -55 ∧
              2 ^ 200 * 3 ≤ 40 * dval mc ec + 2 ^ 150 ∧ 40 * dval mc ec ≤ 2 ^ 200 * 9 + 2 ^ 150).
  { assert (s = 1 ∨ s = 2 ∨ s = 3) as [ -> | [ -> | -> ] ] by lia;
      subst c; eexists _, _; (split; [vm_compute; reflexivity|]); unfold normal_mant, dval;
      repeat split; vm_compute; first [reflexivity | discriminate]. }
  destruct Hc as (mc & ec & Hqc & Hmc & Hec & Hvc). rewrite Hqc. clear Hqc.
  destruct (SFadd_rel m1 e1 mc ec) as (m2 & e2 & Hq2 & Hm2 & He2 & Hv2);
    [done|done|lia|lia|].
  rewrite Hq2. clear Hq2.
  exists m2, e2. split; [done|]. split; [done|].
  change (dval 6305039478318694 (-53)) with (6305039478318694 * 2 ^ 147) in Hv1.
  change (dval 7205759403792794 (-55)) with (7205759403792794 * 2 ^ 145) in *.
  change (dval 7205759403792794 (-53)) with (7205759403792794 * 2 ^ 147) in *.
  assert (Hv' : 7205759403792794 * 2 ^ 145 ≤ dval m2 e2 ≤ 7205759403792794 * 2 ^ 147).
  { set (v := dval m e) in *. set (v1 := dval m1 e1) in *. set (vc := dval mc ec) in *.
    set (v2 := dval m2 e2) in *. lia. }
  split; [|done].
  apply (dval_exponent m2); [done|lia|lia].
Qed.

Lemma prob_tight_half : prob_tight (tenths 5).
Proof.
  exists (2 ^ 52)%positive, (-53). split; [by vm_compute|].
  unfold normal_mant, dval. split; [lia|]. split; [lia|]. by vm_compute.
Qed.

Lemma prob_tight_bounds x :
  prob_tight x → dle (tenths 2) x = true ∧ dle x (tenths 8) = true.
Proof.
  intros (m & e & -> & Hm & He & Hv).
  change (tenths 2) with (S754_finite false 7205759403792794 (-55)).
  change (tenths 8) with (S754_finite false 7205759403792794 (-53)).
  split; apply dle_dval; try done; try lia; unfold normal_mant; lia.
Qed.

(** ** The elite of a bucket *)

Lemma elite_best_evaluate K numPaths v v1 :
  wf_view K v → elite_best v → v_evaluate_candidate numPaths v = Some v1 →
  elite_best v1.
Proof.
  intros Hwf Hinv Hev.
  destruct (v_evaluate_candidate_spec K numPaths v Hwf) as (bi0 & fb0 & Hbi0 & Hfb0 & Hev').
  rewrite Hev in Hev'. injection Hev' as ->.
  destruct Hwf as [Hm Hn Hc]. pose proof (wf_Next K v Hm) as [Hn0 _].
  destruct (bucket_of (vNext v)) as [Hb Hb']; [lia|]. rewrite Hb in *.
  assert (Hq : 5 * (vNext v / 5) ≤ vNext v < 5 * (vNext v / 5) + 5)
    by (Z.div_mod_to_equations; lia).
  apply rd_Some in Hbi0 as [_ Hbi0]. apply rd_Some in Hfb0 as [Hbi0' Hfb0].
  pose proof (Hinv (Z.to_nat (vNext v / 5)) bi0 Hbi0) as H0. rewrite Z2Nat.id in H0 by lia.
  pose proof (wf_Best K v Hm _ _ Hbi0) as Hr0. rewrite Z2Nat.id in Hr0 by lia.
  pose proof (wf_Fitness K v Hm) as HFl. pose proof (wf_Best_len K v Hm) as HBl.
  intros b x Hx. cbn [vBest vNext vFitness] in *.
  set (nxt := vNext v) in *. set (b0 := nxt / 5) in *.
  destruct (decide (b = Z.to_nat b0)) as [->|Hne].
  - rewrite Z2Nat.id by lia. rewrite decide_True by lia.
    destruct (decide (fb0 < to_int numPaths)) as [Hgt|Hle].
    + rewrite list_lookup_insert_eq in Hx by lia. injection Hx as <-.
      split; [lia|]. split; [lia|]. split; [lia|].
      intros j fj fb Hj1 Hj2 Hj3 Hfj Hfb.
      rewrite list_lookup_insert_eq in Hfb by lia. injection Hfb as <-.
      destruct (decide (j = Z.to_nat nxt)) as [->|Hjn].
      * rewrite list_lookup_insert_eq in Hfj by lia. injection Hfj as <-. lia.
      * rewrite list_lookup_insert_ne in Hfj by lia.
        rewrite decide_True in H0 by lia. destruct H0 as (Hb1 & Hb2 & Hb3 & Hmax).
        rewrite list_lookup_insert_ne in Hfb0 by lia.
        destruct (Hmax j fj fb0) as [Hle _]; try done; lia.
    + rewrite Hbi0 in Hx. injection Hx as <-.
      destruct (decide (5 * b0 < nxt)) as [Hlt|Hge].
      * destruct H0 as (Hb1 & Hb2 & Hb3 & Hmax).
        rewrite list_lookup_insert_ne in Hfb0 by lia.
        split; [lia|]. split; [lia|]. split; [lia|].
        intros j fj fb Hj1 Hj2 Hj3 Hfj Hfb.
        rewrite list_lookup_insert_ne in Hfb by lia.
        rewrite Hfb0 in Hfb. injection Hfb as <-.
        destruct (decide (j = Z.to_nat nxt)) as [->|Hjn].
        -- rewrite list_lookup_insert_eq in Hfj by lia. injection Hfj as <-. lia.
        -- rewrite list_lookup_insert_ne in Hfj by lia.
           apply (Hmax j fj fb0); try done; lia.
      * subst bi0. assert (nxt = 5 * b0) as Heq by lia.
        split; [lia|]. split; [lia|]. split; [lia|].
        intros j fj fb Hj1 Hj2 Hj3 Hfj Hfb.
        assert (j = Z.to_nat (5 * b0)) as -> by lia.
        rewrite Hfj in Hfb. injection Hfb as <-. lia.
  - assert (Hx' : vBest v !! b = Some x).
    { destruct (decide (fb0 < to_int numPaths)); [|done].
      by rewrite list_lookup_insert_ne in Hx by done. }
    pose proof (Hinv b x Hx') as Hb1. pose proof (wf_Best K v Hm _ _ Hx') as Hrb.
    destruct (decide (Z.of_nat b < b0)) as [Hlt|Hge].
    + rewrite decide_True in Hb1 by lia. rewrite decide_True by lia.
      destruct Hb1 as (H1 & H2 & H3 & Hmax).
      split; [lia|]. split; [lia|]. split; [lia|].
      intros j fj fb Hj1 Hj2 Hj3 Hfj Hfb.
      rewrite list_lookup_insert_ne in Hfj by lia.
      rewrite list_lookup_insert_ne in Hfb by lia.
      apply (Hmax j fj fb); try done; lia.
    + rewrite decide_False in Hb1 by lia. rewrite decide_False by lia. done.
Qed.

Lemma elite_best_reset (v : seed_view) :
  vNext v = 0 → vBest v = [0; 5; 10; 15] → elite_best v.
Proof.
  intros Hn HB b x Hx. rewrite Hn, HB in *. rewrite decide_False by lia.
  destruct b as [|[|[|[|]]]]; simpl in Hx; try done; injection Hx as <-; lia.
Qed.

(** ** Invariants of the reachable states *)

Section Invariants.
Context {RNG : Type}.
Variables (rand_init : RNG → RNG) (rand : RNG → Z * RNG) (RAND_MAX : Z).
Variables (rand_32_int : Z → RNG → Z * RNG) (rand_32_double : RNG → double * RNG).

(** A property of the rows of a seed that holds after [DARWIN_init] and
    that a call of [DARWIN_NotifyFeedback] keeps, holds in every state
    reached. *)
Lemma steps_rows_inv (Q : seed_view → Prop) K w0 cs w :
  (∀ np v g v' g', wf_view K v → Q v →
     v_NotifyFeedback rand_32_double K np (v, g) = Some (v', g') → Q v') →
  wf w0.1 → MutationOperatorsNum w0.1 = K →
  (∀ seed v, get_seed w0.1 seed = Some v → Q v) →
  steps rand_32_int rand_32_double w0 cs w →
  wf w.1 ∧ MutationOperatorsNum w.1 = K ∧ ∀ seed v, get_seed w.1 seed = Some v → Q v.
Proof.
  intros Hkeep Hwf0 HK0 HQ0 Hsteps.
  induction Hsteps as [w|w cs w1 c w2 _ IH Hstep]; [done|].
  destruct (IH Hwf0 HK0 HQ0) as (Hwf & HK & HQ). clear IH.
  pose proof (step_wf _ _ c w1 w2 Hwf Hstep) as Hwf'. split; [done|].
  destruct Hstep as [fuel seed w1 op w2 H|seed numPaths w1 w2 H].
  - apply SelectOperator_state in H as [-> _]. done.
  - destruct w1 as [st g]. cbn [fst snd] in *.
    pose proof (NotifyFeedback_Some_seed _ _ _ _ _ _ H) as Hs.
    destruct (wf_get_seed st seed Hwf Hs) as (v & Hv & Hwv).
    destruct (NotifyFeedback_exec rand_32_double st g seed numPaths v Hwf Hv)
      as (v' & g' & Hvn & Hex & _).
    rewrite Hex in H. injection H as <-. cbn [fst snd]. split; [done|].
    intros s u Hu. destruct (decide (seed = s)) as [<-|Hne].
    + rewrite get_put_seed_eq in Hu by (by apply wf_seed_ok). injection Hu as <-.
      rewrite HK in *. by apply (Hkeep numPaths v g v' g' Hwv (HQ seed v Hv)).
    + rewrite get_put_seed_ne in Hu by lia. by apply (HQ s u).
Qed.

Lemma reachable_rows_inv (Q : seed_view → Prop) n K cs w :
  (∀ v, wf_view K v → vNext v = 0 → vBest v = [0; 5; 10; 15] →
        vP v = replicate (Z.to_nat K) (tenths 5) → Q v) →
  (∀ np v g v' g', wf_view K v → Q v →
     v_NotifyFeedback rand_32_double K np (v, g) = Some (v', g') → Q v') →
  reachable rand_init rand RAND_MAX rand_32_int rand_32_double n K cs w →
  ∀ seed v, get_seed w.1 seed = Some v → Q v.
Proof.
  intros Hinit Hkeep (Hn & HK & junk & g0 & w0 & Hi & Hsteps).
  destruct (DARWIN_init_spec rand_init rand RAND_MAX junk n K g0 Hn HK)
    as (st0 & g0' & Hi' & Hin).
  rewrite Hi in Hi'. injection Hi' as ->.
  pose proof (initialised_wf _ _ _ _ (proj1 Hn) HK Hin) as Hwf.
  apply (steps_rows_inv Q K (st0, g0') cs w Hkeep Hwf (in_K _ _ _ _ _ Hin)); [|done].
  intros seed v Hv. cbn [fst] in Hv.
  pose proof (get_seed_ok _ _ _ Hv) as (Hs0 & _ & _ & Hs & _).
  destruct (in_len _ _ _ _ _ Hin) as (_ & _ & Hl & _). rewrite Hl in Hs.
  destruct (in_seed _ _ _ _ _ Hin seed) as (v' & Hv' & Hwv & HN & HB & HP & _); [lia|].
  rewrite Hv in Hv'. injection Hv' as <-. by apply Hinit.
Qed.

Lemma prob_tight_keep K np v (g : RNG) v' g' :
  0 ≤ K → wf_view K v → (∀ (i : nat) x, vP v !! i = Some x → prob_tight x) →
  v_NotifyFeedback rand_32_double K np (v, g) = Some (v', g') →
  ∀ (i : nat) x, vP v' !! i = Some x → prob_tight x.
Proof.
  intros HK Hwv HQ Hex i y Hy.
  destruct (v_NotifyFeedback_result rand_32_double K np v g Hwv HK)
    as (v1 & P' & Hev & Hm1 & Hn1 & _ & _ & HP1 & Hlen & Hcase & Hres).
  rewrite Hres in Hex. injection Hex as <- <-. cbn [vP] in Hy.
  destruct Hcase as [[_ ->]|[Hb HP']]; [by apply (HQ i)|].
  pose proof (lookup_lt_Some _ _ _ Hy) as Hi. rewrite Hlen in Hi.
  rewrite <- (wf_P_len K v (wf_view_mid _ _ Hwv)) in Hi.
  destruct (lookup_lt_is_Some_2 _ _ Hi) as [x Hx].
  rewrite (HP' i x Hx) in Hy. injection Hy as <-.
  apply smooth_tight; [by apply (HQ i)|].
  destruct (v_elite_sum_loop K v1 (Z.of_nat i) Hm1) as [_ Hc].
  { rewrite (wf_P_len K v (wf_view_mid _ _ Hwv)) in Hi. lia. }
  by apply clamp_sum_spec.
Qed.

Lemma elite_best_keep K np v (g : RNG) v' g' :
  0 ≤ K → wf_view K v → elite_best v →
  v_NotifyFeedback rand_32_double K np (v, g) = Some (v', g') → elite_best v'.
Proof.
  intros HK Hwv HQ Hex.
  destruct (v_NotifyFeedback_result rand_32_double K np v g Hwv HK)
    as (v1 & P' & Hev & Hm1 & Hn1 & _ & _ & _ & _ & _ & Hres).
  rewrite Hres in Hex. injection Hex as <- <-.
  pose proof (elite_best_evaluate K np v v1 Hwv HQ Hev) as H1.
  destruct (decide (vNext v + 1 = M)) as [Hb|Hb].
  - apply elite_best_reset; cbn [vNext vBest]; [|done]. rewrite Hb. done.
  - intros b x Hx. cbn [vBest vNext vFitness] in *.
    destruct Hwv as [_ Hlt _]. pose proof (wf_Next K v1 Hm1) as Hr.
    rewrite Z.mod_small by (unfold M in *; lia). rewrite <- Hn1. by apply H1.
Qed.

End Invariants.

(** ** Reading the rows of a seed *)

Lemma rd_insert_other {A} (a : list A) i j x :
  0 ≤ i → i ≠ j → rd (<[Z.to_nat i := x]> a) j = rd a j.
Proof.
  intros Hi Hne. unfold rd. case_decide; [|done].
  apply list_lookup_insert_ne. lia.
Qed.

Lemma rd_outside {A} (a : list A) i : ¬ (0 ≤ i < Z.of_nat (length a)) → rd a i = None.
Proof.
  intros H. unfold rd. case_decide; [|done].
  apply lookup_ge_None. lia.
Qed.

Lemma put_seed_fields st seed v :
  seed_ok st seed →
  rd (_Fitness (put_seed st seed v)) seed = Some (vFitness v) ∧
  rd (_bestIndex (put_seed st seed v)) seed = Some (vBest v) ∧
  rd (_nextToEvaluate (put_seed st seed v)) seed = Some (vNext v) ∧
  rd (_individual (put_seed st seed v)) seed = Some (vInd v) ∧
  rd (_currentRelativeProb (put_seed st seed v)) seed = Some (vCur v) ∧
  rd (p (put_seed st seed v)) seed = Some (vP v).
Proof.
  intros Hok. apply get_seed_fields. by apply get_put_seed_eq.
Qed.

Section Closed.
Context {RNG : Type}.
Variables (rand_init : RNG → RNG) (rand : RNG → Z * RNG) (RAND_MAX : Z).
Variables (rand_32_int : Z → RNG → Z * RNG) (rand_32_double : RNG → double * RNG).

Lemma reachable_get_seed n K cs st g seed :
  reachable rand_init rand RAND_MAX rand_32_int rand_32_double n K cs (st, g) →
  0 ≤ seed < n →
  wf st ∧ MutationOperatorsNum st = K ∧ ∃ v, get_seed st seed = Some v ∧ wf_view K v.
Proof.
  intros Hr Hs.
  pose proof (reachable_reached _ _ _ _ _ _ _ _ _ Hr) as [Hwf HK Hlen _ _].
  cbn [fst] in *. split; [done|]. split; [done|]. rewrite <- HK.
  apply wf_get_seed; [done|]. rewrite Hlen. lia.
Qed.

(** A whole call of [DARWIN_NotifyFeedback] on the state, in closed form. *)
Lemma NotifyFeedback_closed st g seed numPaths v :
  wf st → get_seed st seed = Some v →
  ∃ v1 P',
    evaluate_candidate seed numPaths st = Some (put_seed st seed v1) ∧
    v_evaluate_candidate numPaths v = Some v1 ∧
    wf_mid (MutationOperatorsNum st) v1 ∧
    vNext v1 = vNext v + 1 ∧
    vFitness v1 = <[Z.to_nat (vNext v) := to_int numPaths]> (vFitness v) ∧
    length P' = Z.to_nat (MutationOperatorsNum st) ∧
    ((vNext v + 1 ≠ M ∧ P' = vP v) ∨
     (vNext v + 1 = M ∧
      ∀ (i : nat) x, vP v !! i = Some x →
        P' !! i = Some (smooth x (spec_clamp (elite_count v1 (Z.of_nat i)))))) ∧
    DARWIN_NotifyFeedback rand_32_double seed numPaths (st, g)
    = Some (put_seed st seed
              {| vFitness := if decide (vNext v + 1 = M)
                             then replicate 5 0 ++ drop 5 (vFitness v1) else vFitness v1;
                 vBest := if decide (vNext v + 1 = M) then [0; 5; 10; 15] else vBest v1;
                 vNext := (vNext v + 1) mod M;
                 vInd := <[Z.to_nat ((vNext v + 1) mod M)
                             := (sample_row rand_32_double P' g).1]> (vInd v);
                 vCur := (vNext v + 1) mod M;
                 vP := P' |},
            (sample_row rand_32_double P' g).2).
Proof.
  intros Hwf Hv. pose proof (get_seed_ok _ _ _ Hv) as Hok.
  assert (HK : 0 ≤ MutationOperatorsNum st) by (destruct Hwf; lia).
  pose proof Hwf as (_ & _ & Hall). pose proof (Hall _ _ Hv) as Hwv.
  destruct (v_NotifyFeedback_result rand_32_double _ numPaths v g Hwv HK)
    as (v1 & P' & Hev & Hm1 & Hn1 & HF1 & _ & _ & Hlen & Hcase & Hres).
  destruct (NotifyFeedback_result rand_32_double st g seed numPaths v Hwf Hv)
    as (v' & g' & Hv' & Hex).
  rewrite Hres in Hv'. injection Hv' as <- <-.
  exists v1, P'. split_and!; try done.
  rewrite <- (put_get_seed st seed v Hv) at 1.
  rewrite lift_evaluate_candidate by done. by rewrite Hev.
Qed.

End Closed.

(** ** The generations of a seed *)

Section Generations.
Context {RNG : Type}.
Variables (rand_init : RNG → RNG) (rand : RNG → Z * RNG) (RAND_MAX : Z).
Variables (rand_32_int : Z → RNG → Z * RNG) (rand_32_double : RNG → double * RNG).

(** C7.  After [n] calls of [DARWIN_NotifyFeedback] for a seed its cursor
    is [n mod M], hence in [[0, M)] between any two calls.  The next call
    for that seed runs the generation boundary exactly when it is an
    [M]-th call, that is when [(n + 1) mod M = 0], and runs it once.  That
    call updates every probability of the seed from the elites standing
    after its elite update, puts the elites back to [0, 5, 10, 15] and
    clears the fitness row with [memset]; the [memset] is given [M] bytes,
    so it reaches the first five entries and leaves the entries 5 to 19 as
    recorded during the generation.  Every other call goes straight to
    the next candidate: the probabilities stay as they were, the elites
    and the fitness row as the elite update of the call left them. *)
Theorem C7_generation_every_M_calls nr_seeds K cs st g seed numPaths :
  reachable rand_init rand RAND_MAX rand_32_int rand_32_double nr_seeds K cs (st, g) →
  0 ≤ seed < nr_seeds →
  let n := notified seed cs in
  rd (_nextToEvaluate st) seed = Some (n mod M) ∧ 0 ≤ n mod M < M ∧
  ∃ st1 v1 w',
    evaluate_candidate seed numPaths st = Some st1 ∧
    get_seed st1 seed = Some v1 ∧ vNext v1 = n mod M + 1 ∧
    (∃ F, rd (_Fitness st) seed = Some F ∧
          vFitness v1 = <[Z.to_nat (n mod M) := to_int numPaths]> F) ∧
    (n mod M + 1 = M ↔ (n + 1) mod M = 0) ∧
    DARWIN_NotifyFeedback rand_32_double seed numPaths (st, g) = Some w' ∧
    rd (_nextToEvaluate w'.1) seed = Some ((n + 1) mod M) ∧
    if decide ((n + 1) mod M = 0)
    then
      (∃ st2, generation_boundary seed st1 = Some st2 ∧
              next_candidate rand_32_double seed (st2, g) = Some w') ∧
      (∀ i x, rd2 (p st) seed i = Some x →
         let sum := elite_count v1 i in
         let clamped :=
           if decide (sum = N) then N - 1 else if decide (sum = 0) then 1 else sum in
         rd2 (p w'.1) seed i
           = Some (dadd (dmul (dsub (Z2D 1) (tenths 3)) x)
                        (ddiv (dmul (tenths 3) (Z2D clamped)) (Z2D N)))) ∧
      rd (_bestIndex w'.1) seed = Some [0; 5; 10; 15] ∧
      rd (_Fitness w'.1) seed = Some (replicate 5 0 ++ drop 5 (vFitness v1))
    else
      next_candidate rand_32_double seed (st1, g) = Some w' ∧
      rd (p w'.1) seed = rd (p st) seed ∧
      rd (_bestIndex w'.1) seed = Some (vBest v1) ∧
      rd (_Fitness w'.1) seed = Some (vFitness v1).
Proof.
  intros Hr Hseed n.
  destruct (NotifyFeedback_blocks rand_init rand RAND_MAX rand_32_int rand_32_double
              nr_seeds K cs st g seed numPaths Hr Hseed)
    as (Hcur & Hmod & st1 & w' & Hev & _ & Hiff & Hex & Hblocks & Hnext).
  fold n in Hcur, Hmod, Hiff, Hblocks, Hnext.
  split; [exact Hcur|]. split; [exact Hmod|].
  destruct (reachable_get_seed _ _ _ _ _ _ _ _ _ _ _ Hr Hseed)
    as (Hwf & HK & v & Hv & Hwv).
  pose proof (get_seed_ok _ _ _ Hv) as Hok.
  pose proof (get_seed_fields _ _ _ Hv) as (HF & _ & HN & _ & _ & HP).
  rewrite Hcur in HN. injection HN as HN.
  destruct (NotifyFeedback_closed rand_32_double st g seed numPaths v Hwf Hv)
    as (v1 & P' & Hev' & _ & Hm1 & Hn1 & HF1 & Hlen & Hcase & Hex').
  rewrite Hev in Hev'. injection Hev' as ->.
  rewrite Hex in Hex'. injection Hex' as ->.
  rewrite <- HN in *.
  destruct (decide (n mod M + 1 = M)) as [Hb'|Hb'].
  - assert (Hb : (n + 1) mod M = 0) by (by apply Hiff).
    rewrite decide_True in Hblocks by done.
    exists (put_seed st seed v1), v1. eexists.
    split; [exact Hev|]. split; [by apply get_put_seed_eq|]. split; [exact Hn1|].
    split; [exists (vFitness v); split; [exact HF|exact HF1]|].
    split; [exact Hiff|]. split; [exact Hex|]. split; [exact Hnext|].
    match type of Hex with _ = Some (put_seed _ _ ?u, _) =>
      destruct (put_seed_fields st seed u Hok) as (HF' & HB' & _ & _ & _ & HP')
    end.
    rewrite decide_True by done.
    cbn [fst]. unfold rd2. rewrite HF', HB', HP'. cbn [vFitness vBest vP].
    destruct Hcase as [[? _]|[_ HPi]]; [done|].
    split; [exact Hblocks|]. split; [|done].
    intros i x Hx. rewrite HP in Hx. cbn [mbind option_bind] in Hx |- *.
    apply rd_Some in Hx as [Hi Hx]. apply rd_Some. split; [done|].
    rewrite (HPi _ _ Hx), Z2Nat.id by done. done.
  - assert (Hb : (n + 1) mod M ≠ 0) by (by rewrite <- Hiff).
    rewrite decide_False in Hblocks by done.
    exists (put_seed st seed v1), v1. eexists.
    split; [exact Hev|]. split; [by apply get_put_seed_eq|]. split; [exact Hn1|].
    split; [exists (vFitness v); split; [exact HF|exact HF1]|].
    split; [exact Hiff|]. split; [exact Hex|]. split; [exact Hnext|].
    match type of Hex with _ = Some (put_seed _ _ ?u, _) =>
      destruct (put_seed_fields st seed u Hok) as (HF' & HB' & _ & _ & _ & HP')
    end.
    rewrite decide_False by done.
    cbn [fst]. rewrite HF', HB', HP'. cbn [vFitness vBest vP].
    destruct Hcase as [[_ ->]|[? _]]; [|done].
    split; [exact Hblocks|]. by rewrite HP.
Qed.

End Generations.

(** ** The first candidate *)

Section InitFlags.
Context {RNG : Type}.
Variables (rand_init : RNG → RNG) (rand : RNG → Z * RNG) (RAND_MAX : Z).

Lemma v_init_random_content (k : nat) :
  ∀ (pre old : list bool) v g,
    length old = k → 0 < Z.of_nat (length (vInd v)) →
    rd (vInd v) 0 = Some (pre ++ old) →
    for_ k (Z.of_nat (length pre)) (v_init_random_bit rand RAND_MAX) (v, g)
    = Some (vset_Ind (<[0%nat := pre ++ (init_flags rand RAND_MAX k g).1]> (vInd v)) v,
            (init_flags rand RAND_MAX k g).2).
Proof.
  induction k as [|k IH]; intros pre old v g Hold Hlen Hrow.
  - destruct old; [|done]. simpl.
    change 0%nat with (Z.to_nat 0). rewrite (rd_insert_id _ _ _ Hrow). by destruct v.
  - destruct old as [|o old]; [done|]. simpl in Hold.
    cbn [for_ init_flags].
    destruct (rand g) as [r g1] eqn:Hr.
    set (bit := bool_decide (RAND_MAX / 2 < r)).
    assert (Hins : <[length pre := bit]> (pre ++ o :: old) = (pre ++ [bit]) ++ old).
    { rewrite insert_app_r_alt by lia.
      replace (length pre - length pre)%nat with 0%nat by lia. simpl.
      by rewrite <- app_assoc. }
    assert (Hstep : v_init_random_bit rand RAND_MAX (Z.of_nat (length pre)) (v, g)
              = Some (vset_Ind (<[0%nat := (pre ++ [bit]) ++ old]> (vInd v)) v, g1)).
    { unfold v_init_random_bit. rewrite Hr. fold bit. unfold wr2. rewrite Hrow.
      cbn [mbind option_bind].
      rewrite wr_ok by (rewrite length_app; simpl; lia).
      cbn [mbind option_bind]. rewrite wr_ok by lia. cbn [mbind option_bind].
      by rewrite Nat2Z.id, Hins. }
    rewrite Hstep. cbn [mbind option_bind].
    specialize (IH (pre ++ [bit]) old
      (vset_Ind (<[0%nat := (pre ++ [bit]) ++ old]> (vInd v)) v) g1).
    replace (Z.of_nat (length pre) + 1) with (Z.of_nat (length (pre ++ [bit])))
      by (rewrite length_app; simpl; lia).
    rewrite IH; cbn [vInd vset_Ind].
    + destruct (init_flags rand RAND_MAX k g1) as [row g2]. cbn [fst snd].
      rewrite list_insert_insert_eq, <- app_assoc. done.
    + lia.
    + by rewrite length_insert.
    + change 0%nat with (Z.to_nat 0). apply rd_insert_eq. lia.
Qed.

Lemma v_init_seed_flags junk K seed v g v' g' :
  0 ≤ K → v_init_seed rand RAND_MAX junk K seed (v, g) = Some (v', g') →
  g' = (init_flags rand RAND_MAX (Z.to_nat K) g).2 ∧
  vInd v' !! 0%nat = Some (init_flags rand RAND_MAX (Z.to_nat K) g).1.
Proof.
  intros HK. unfold v_init_seed.
  edestruct (v_init_rows_loop junk K seed) as (I & -> & HIl & HI);
    [fields; by rewrite length_malloc|].
  fields. unfold v_memset_Fitness. fields.
  rewrite memset0_Fitness by (by rewrite length_malloc). fields.
  rewrite v_init_p_loop by first [done | fields; by rewrite length_malloc]. fields.
  rewrite v_seed_bestIndex_loop by (fields; by rewrite length_malloc). fields.
  destruct (lookup_lt_is_Some_2 I 0) as [row0 Hrow0]; [lia|].
  match goal with |- context [for_ _ 0 _ (?u, g)] =>
    pose proof (v_init_random_content (Z.to_nat K) [] row0 u g) as H
  end.
  cbn [length app vInd] in H. change (Z.of_nat 0) with 0 in H.
  rewrite H; fields; [| by apply (HI 0%nat) | rewrite ?HIl; lia | done].
  fields. change (rd (<[0%nat:=?r]> I) 0) with ((<[0%nat:=r]> I) !! 0%nat).
  rewrite list_lookup_insert_eq by lia. fields.
  intros [= <- <-]. fields. split; [done|].
  by rewrite list_lookup_insert_eq by lia.
Qed.

End InitFlags.

(** ** The properties [X1] to [X14] *)

Section Extras.
Context {RNG : Type}.
Variables (rand_init : RNG → RNG) (rand : RNG → Z * RNG) (RAND_MAX : Z).
Variables (rand_32_int : Z → RNG → Z * RNG) (rand_32_double : RNG → double * RNG).

(** X1.  [DARWIN_init] returns for every number of seeds below [2 ^ 31]
    and every operator count, and leaves, for every seed: the cursor and
    the current candidate at individual 0, the elites at [0, 5, 10, 15],
    every probability at 0.5, the first five fitness entries at 0 and the
    others as [malloc] left them, and a population of [M] rows of [K]
    flags. *)
Theorem X1_init_state junk nr_seeds K g :
  0 ≤ nr_seeds < 2 ^ 31 → 0 ≤ K < 2 ^ 32 →
  ∃ st g', DARWIN_init rand_init rand RAND_MAX junk nr_seeds K g = Some (st, g') ∧
    MutationOperatorsNum st = K ∧
    length (_nextToEvaluate st) = Z.to_nat nr_seeds ∧
    ∀ seed, 0 ≤ seed < nr_seeds →
      rd (_nextToEvaluate st) seed = Some 0 ∧
      rd (_currentRelativeProb st) seed = Some 0 ∧
      rd (_bestIndex st) seed = Some [0; 5; 10; 15] ∧
      rd (p st) seed = Some (replicate (Z.to_nat K) (tenths 5)) ∧
      rd (_Fitness st) seed
        = Some (replicate 5 0 ++ drop 5 (malloc M (junk_Fitness junk seed))) ∧
      ∃ rows, rd (_individual st) seed = Some rows ∧ length rows = Z.to_nat M ∧
              ∀ row, row ∈ rows → length row = Z.to_nat K.
Proof.
  intros Hn HK.
  destruct (DARWIN_init_spec rand_init rand RAND_MAX junk nr_seeds K g Hn HK)
    as (st & g' & Hi & Hin).
  exists st, g'. split; [done|]. split; [exact (in_K _ _ _ _ _ Hin)|].
  destruct (in_len _ _ _ _ _ Hin) as (_ & _ & Hl & _). split; [done|].
  intros seed Hs.
  destruct (in_seed _ _ _ _ _ Hin seed Hs) as (v & Hv & [Hm _ Hc] & HN & HB & HP & HF).
  pose proof (get_seed_fields _ _ _ Hv) as (H1 & H2 & H3 & H4 & H5 & H6).
  rewrite H1, H2, H3, H4, H5, H6, Hc, HN, HB, HP, HF. split_and!; try done.
  exists (vInd v). split; [done|]. split; [exact (wf_Ind_len _ _ Hm)|].
  intros row [j Hj]%list_elem_of_lookup. exact (wf_Ind _ _ Hm j row Hj).
Qed.

(** X2.  A call of [DARWIN_NotifyFeedback] for one seed leaves the rows of
    every other seed, the operator count and the number of seeds as they
    were. *)
Theorem X2_notify_other_seeds_unchanged st g seed numPaths st' g' :
  wf st →
  DARWIN_NotifyFeedback rand_32_double seed numPaths (st, g) = Some (st', g') →
  MutationOperatorsNum st' = MutationOperatorsNum st ∧
  length (_nextToEvaluate st') = length (_nextToEvaluate st) ∧
  ∀ s, s ≠ seed →
    rd (_Fitness st') s = rd (_Fitness st) s ∧
    rd (_bestIndex st') s = rd (_bestIndex st) s ∧
    rd (_nextToEvaluate st') s = rd (_nextToEvaluate st) s ∧
    rd (_individual st') s = rd (_individual st) s ∧
    rd (_currentRelativeProb st') s = rd (_currentRelativeProb st) s ∧
    rd (p st') s = rd (p st) s.
Proof.
  intros Hwf H.
  pose proof (NotifyFeedback_Some_seed _ _ _ _ _ _ H) as Hs.
  destruct (wf_get_seed st seed Hwf Hs) as (v & Hv & _).
  destruct (NotifyFeedback_exec rand_32_double st g seed numPaths v Hwf Hv)
    as (v' & g2 & _ & Hex & _).
  rewrite Hex in H. injection H as <- <-. unfold put_seed. fields.
  split; [done|]. split; [by rewrite length_insert|].
  intros s Hne. split_and!; apply rd_insert_other; lia.
Qed.

(** X3.  In a state reached from [DARWIN_init(nr_seeds, K)],
    [DARWIN_NotifyFeedback] is defined exactly for the seeds below
    [nr_seeds]: for those it always returns, and for any other seed it
    indexes the global arrays out of bounds. *)
Theorem X3_notify_defined_iff_seed_in_range nr_seeds K cs w seed numPaths :
  reachable rand_init rand RAND_MAX rand_32_int rand_32_double nr_seeds K cs w →
  is_Some (DARWIN_NotifyFeedback rand_32_double seed numPaths w) ↔ 0 ≤ seed < nr_seeds.
Proof.
  intros Hr. destruct w as [st g]. split.
  - intros [w' H]. apply NotifyFeedback_Some_seed in H.
    pose proof (reachable_reached _ _ _ _ _ _ _ _ _ Hr) as [_ _ Hlen _ _].
    cbn [fst] in Hlen. rewrite Hlen in H. destruct Hr as (Hn & _). lia.
  - intros Hs.
    destruct (reachable_get_seed _ _ _ _ _ _ _ _ _ _ _ Hr Hs) as (Hwf & _ & v & Hv & _).
    destruct (NotifyFeedback_exec rand_32_double st g seed numPaths v Hwf Hv)
      as (v' & g2 & _ & Hex & _).
    rewrite Hex. by eexists.
Qed.

(** X4.  In a state reached from [DARWIN_init(nr_seeds, K)],
    [DARWIN_SelectOperator] has no defined result when the engine has no
    operators ([K = 0]: the candidate read at the drawn id has no
    entries) or when the seed is not below [nr_seeds]. *)
Theorem X4_select_undefined nr_seeds K cs w seed fuel :
  reachable rand_init rand RAND_MAX rand_32_int rand_32_double nr_seeds K cs w →
  K = 0 ∨ ¬ (0 ≤ seed < nr_seeds) →
  DARWIN_SelectOperator rand_32_int fuel seed w = None.
Proof.
  intros Hr Hcase. destruct w as [st g].
  pose proof (reachable_reached _ _ _ _ _ _ _ _ _ Hr) as [Hwf HKst Hlen _ _].
  cbn [fst] in *. unfold DARWIN_SelectOperator.
  destruct (rand_32_int (MutationOperatorsNum st) g) as [r g1].
  destruct (decide (0 ≤ seed < nr_seeds)) as [Hs|Hs].
  - destruct Hcase as [->|?]; [|done].
    destruct (reachable_get_seed _ _ _ _ _ _ _ _ _ _ _ Hr Hs)
      as (_ & _ & v & Hv & [Hm Hn Hc]).
    pose proof (get_seed_fields _ _ _ Hv) as (_ & _ & _ & HI & HC & _).
    pose proof (wf_Next _ _ Hm) as [Hn0 _].
    destruct (wf_mid_row _ v (vCur v) Hm) as (cur & Hcur & Hl); [lia|].
    rewrite HC. cbn [mbind option_bind]. unfold rd2. rewrite HI.
    cbn [mbind option_bind]. rewrite Hcur. cbn [mbind option_bind].
    destruct cur; [|done]. destruct fuel; [done|]. cbn [select_loop].
    rewrite rd_outside by (simpl; lia). done.
  - rewrite rd_outside; [done|].
    destruct Hwf as (_ & (n & H1 & H2 & H3 & H4 & H5 & H6) & _).
    destruct Hr as (Hn & _). lia.
Qed.


(** X6.  A call of [DARWIN_NotifyFeedback] that does not end a generation
    (cursor below [M - 1]) writes [numPaths], converted to [int], into the
    fitness entry at the cursor and leaves the other fitness entries and
    the probabilities of the seed as they were; the cursor and the current
    candidate move to the next individual. *)
Theorem X6_notify_inside_generation st g seed numPaths nxt F P :
  wf st → rd (_nextToEvaluate st) seed = Some nxt → nxt + 1 ≠ M →
  rd (_Fitness st) seed = Some F → rd (p st) seed = Some P →
  ∃ w', DARWIN_NotifyFeedback rand_32_double seed numPaths (st, g) = Some w' ∧
    rd (_Fitness w'.1) seed = Some (<[Z.to_nat nxt := to_int numPaths]> F) ∧
    rd (p w'.1) seed = Some P ∧
    rd (_nextToEvaluate w'.1) seed = Some (nxt + 1) ∧
    rd (_currentRelativeProb w'.1) seed = Some (nxt + 1).
Proof.
  intros Hwf Hnxt Hb HF HP.
  destruct (wf_rows st seed Hwf) as (v & Hv & [Hm Hlt Hc]); [by left; eexists|].
  pose proof (get_seed_fields _ _ _ Hv) as (HF' & _ & HN' & _ & _ & HP').
  rewrite Hnxt in HN'. injection HN' as HN'.
  rewrite HF in HF'. injection HF' as ->. rewrite HP in HP'. injection HP' as ->.
  pose proof (wf_Next _ _ Hm) as [Hn0 _].
  destruct (NotifyFeedback_closed rand_32_double st g seed numPaths v Hwf Hv)
    as (v1 & P' & _ & _ & _ & _ & HF1 & _ & Hcase & Hex).
  rewrite <- HN' in *. destruct Hcase as [[_ ->]|[? _]]; [|done].
  destruct (decide (nxt + 1 = M)) as [|_]; [done|].
  rewrite Z.mod_small in Hex by (unfold M in *; lia).
  eexists. split; [exact Hex|]. cbn [fst].
  match type of Hex with _ = Some (put_seed _ _ ?v', _) =>
    destruct (put_seed_fields st seed v' (get_seed_ok _ _ _ Hv))
      as (H1 & _ & H3 & _ & H5 & H6)
  end.
  rewrite H1, H3, H5, H6. cbn [vFitness vNext vCur vP]. by rewrite HF1.
Qed.

(** X7.  The call that ends a generation (cursor [M - 1]) leaves the
    fitness row of the seed with its first five entries at 0 and the
    entries 5 to 19 at the values recorded during the generation, the last
    one being the [numPaths] of this call. *)
Theorem X7_notify_boundary_fitness st g seed numPaths F :
  wf st → rd (_nextToEvaluate st) seed = Some (M - 1) →
  rd (_Fitness st) seed = Some F →
  ∃ w', DARWIN_NotifyFeedback rand_32_double seed numPaths (st, g) = Some w' ∧
    rd (_Fitness w'.1) seed
      = Some (replicate 5 0 ++ drop 5 (<[19%nat := to_int numPaths]> F)) ∧
    (∀ j, 0 ≤ j < 5 → rd2 (_Fitness w'.1) seed j = Some 0) ∧
    (∀ j, 5 ≤ j < 19 → rd2 (_Fitness w'.1) seed j = rd F j) ∧
    rd2 (_Fitness w'.1) seed 19 = Some (to_int numPaths).
Proof.
  intros Hwf Hnxt HF.
  destruct (wf_rows st seed Hwf) as (v & Hv & [Hm Hlt Hc]); [by left; eexists|].
  pose proof (get_seed_fields _ _ _ Hv) as (HF' & _ & HN' & _).
  rewrite Hnxt in HN'. injection HN' as HN'.
  rewrite HF in HF'. injection HF' as ->.
  destruct (NotifyFeedback_closed rand_32_double st g seed numPaths v Hwf Hv)
    as (v1 & P' & _ & _ & _ & _ & HF1 & _ & _ & Hex).
  rewrite <- HN' in *. rewrite decide_True in Hex by (unfold M; lia).
  eexists. split; [exact Hex|]. cbn [fst].
  match type of Hex with _ = Some (put_seed _ _ ?v', _) =>
    destruct (put_seed_fields st seed v' (get_seed_ok _ _ _ Hv)) as (H1 & _)
  end.
  pose proof (wf_Fitness _ _ Hm) as HFl.
  unfold rd2. rewrite H1. cbn [vFitness mbind option_bind]. rewrite HF1.
  change (Z.to_nat (M - 1)) with 19%nat.
  split_and!; [done|..].
  - intros j Hj. apply rd_Some. split; [lia|].
    rewrite lookup_app_l by (rewrite length_replicate; lia).
    apply lookup_replicate. split; [done|lia].
  - intros j Hj. unfold rd. rewrite !decide_True by lia.
    rewrite lookup_app_r by (rewrite length_replicate; lia).
    rewrite length_replicate, lookup_drop.
    replace (5 + (Z.to_nat j - 5))%nat with (Z.to_nat j) by lia.
    apply list_lookup_insert_ne. lia.
  - apply rd_Some. split; [lia|].
    rewrite lookup_app_r by (rewrite length_replicate; lia).
    rewrite length_replicate, lookup_drop.
    change (5 + (Z.to_nat 19 - 5))%nat with 19%nat.
    apply list_lookup_insert_eq. lia.
Qed.

(** X8.  Every call of [DARWIN_NotifyFeedback] ends by drawing the next
    candidate: the individual at the new cursor [(nxt + 1) mod M] becomes
    the current candidate, its flag [i] is on exactly when the [i]-th draw
    of [rand_32_double] is below [p[seed][i]], the probabilities being
    those the call leaves (updated first when it ends a generation); the
    generator advances by exactly [K] draws and the other individuals are
    not touched. *)
Theorem X8_notify_samples_next_candidate st g seed numPaths nxt rows :
  wf st → rd (_nextToEvaluate st) seed = Some nxt →
  rd (_individual st) seed = Some rows →
  ∃ st' P', DARWIN_NotifyFeedback rand_32_double seed numPaths (st, g)
              = Some (st', (sample_row rand_32_double P' g).2) ∧
    rd (p st') seed = Some P' ∧ length P' = Z.to_nat (MutationOperatorsNum st) ∧
    rd (_currentRelativeProb st') seed = Some ((nxt + 1) mod M) ∧
    rd (_individual st') seed
      = Some (<[Z.to_nat ((nxt + 1) mod M) := (sample_row rand_32_double P' g).1]> rows) ∧
    rd2 (_individual st') seed ((nxt + 1) mod M)
      = Some (sample_row rand_32_double P' g).1.
Proof.
  intros Hwf Hnxt HI.
  destruct (wf_rows st seed Hwf) as (v & Hv & [Hm Hlt Hc]); [by do 3 right; left; eexists|].
  pose proof (get_seed_fields _ _ _ Hv) as (_ & _ & HN' & HI' & _).
  rewrite Hnxt in HN'. injection HN' as HN'.
  rewrite HI in HI'. injection HI' as ->.
  destruct (NotifyFeedback_closed rand_32_double st g seed numPaths v Hwf Hv)
    as (v1 & P' & _ & _ & _ & _ & _ & Hlen & _ & Hex).
  rewrite <- HN' in *.
  eexists _, P'. split; [exact Hex|].
  match type of Hex with _ = Some (put_seed _ _ ?v', _) =>
    destruct (put_seed_fields st seed v' (get_seed_ok _ _ _ Hv))
      as (_ & _ & _ & H4 & H5 & H6)
  end.
  cbn [vInd vCur vP] in *. split_and!; try done.
  unfold rd2. rewrite H4. cbn [mbind option_bind].
  pose proof (Z.mod_pos_bound (nxt + 1) M ltac:(unfold M; lia)) as Hr.
  apply rd_insert_eq. rewrite (wf_Ind_len _ _ Hm). unfold M in *. lia.
Qed.

(** X9.  Every learned probability of a state reached from [DARWIN_init]
    lies between the doubles 0.2 and 0.8: the clamped update never lets
    a probability come near 0 or 1. *)
Theorem X9_probability_within_02_08 nr_seeds K cs st g seed i x :
  reachable rand_init rand RAND_MAX rand_32_int rand_32_double nr_seeds K cs (st, g) →
  rd2 (p st) seed i = Some x →
  dle (tenths 2) x = true ∧ dle x (tenths 8) = true.
Proof.
  intros Hr Hx. apply prob_tight_bounds.
  apply rd2_Some in Hx as (row & Hrow & Hx).
  pose proof (reachable_reached _ _ _ _ _ _ _ _ _ Hr) as [Hwf _ _ _ _]. cbn [fst] in Hwf.
  destruct (wf_rows st seed Hwf) as (v & Hv & Hwv); [by do 5 right; eexists|].
  pose proof (get_seed_fields _ _ _ Hv) as (_ & _ & _ & _ & _ & HP).
  rewrite Hrow in HP. injection HP as ->.
  apply rd_Some in Hx as [_ Hx].
  assert (HK : 0 ≤ K) by (destruct Hr as (_ & ? & _); lia).
  refine (reachable_rows_inv _ _ _ _ _
            (λ v, ∀ (i : nat) x, vP v !! i = Some x → prob_tight x)
            nr_seeds K cs (st, g) _ _ Hr seed v Hv (Z.to_nat i) x Hx).
  - intros u _ _ _ HP j y Hy. rewrite HP in Hy.
    apply lookup_replicate in Hy as [-> _]. exact prob_tight_half.
  - intros np u g1 u' g1'. by apply prob_tight_keep.
Qed.

(** X10.  In every state reached from [DARWIN_init], the elite of a bucket
    that has individuals evaluated in the current generation (those below
    the cursor) is the first of them with the greatest recorded fitness;
    the elite of a bucket with none is its first individual [5 * b].  The
    fitness entries left over from before the generation play no part. *)
Theorem X10_elite_is_first_best_of_bucket nr_seeds K cs st g seed nxt b bi :
  reachable rand_init rand RAND_MAX rand_32_int rand_32_double nr_seeds K cs (st, g) →
  rd (_nextToEvaluate st) seed = Some nxt →
  rd2 (_bestIndex st) seed b = Some bi →
  if decide (5 * b < nxt) then
    5 * b ≤ bi < Z.min nxt (5 * b + 5) ∧
    ∃ fb, rd2 (_Fitness st) seed bi = Some fb ∧
      ∀ j, 5 * b ≤ j < Z.min nxt (5 * b + 5) →
        ∃ fj, rd2 (_Fitness st) seed j = Some fj ∧ fj ≤ fb ∧ (j < bi → fj < fb)
  else bi = 5 * b.
Proof.
  intros Hr Hnxt Hbi.
  pose proof (reachable_reached _ _ _ _ _ _ _ _ _ Hr) as [Hwf _ _ _ _]. cbn [fst] in Hwf.
  destruct (wf_rows st seed Hwf) as (v & Hv & [Hm Hlt Hc]); [by do 2 right; left; eexists|].
  pose proof (get_seed_fields _ _ _ Hv) as (HF & HB & HN & _).
  rewrite Hnxt in HN. injection HN as HN.
  apply rd2_Some in Hbi as (row & Hrow & Hbi).
  rewrite Hrow in HB. injection HB as ->.
  apply rd_Some in Hbi as [Hb0 Hbi].
  assert (HK : 0 ≤ K) by (destruct Hr as (_ & ? & _); lia).
  assert (Hinv : elite_best v).
  { refine (reachable_rows_inv _ _ _ _ _ elite_best nr_seeds K cs (st, g) _ _ Hr seed v Hv).
    - intros u _ HN0 HB0 _. by apply elite_best_reset.
    - intros np u g1 u' g1'. by apply elite_best_keep. }
  pose proof (Hinv _ _ Hbi) as H. rewrite Z2Nat.id in H by lia. rewrite <- HN in H.
  pose proof (wf_Best _ _ Hm _ _ Hbi) as Hrange. rewrite Z2Nat.id in Hrange by lia.
  pose proof (wf_Fitness _ _ Hm) as HFl. pose proof (wf_Next _ _ Hm) as [Hn0 _].
  destruct (decide (5 * b < nxt)) as [Hlt'|]; [|done].
  destruct H as (H1 & H2 & H3 & Hmax). split; [lia|].
  destruct (lookup_lt_is_Some_2 (vFitness v) (Z.to_nat bi)) as [fb Hfb]; [lia|].
  exists fb. unfold rd2. rewrite HF. cbn [mbind option_bind].
  split; [apply rd_Some; split; [lia|done]|].
  intros j Hj.
  destruct (lookup_lt_is_Some_2 (vFitness v) (Z.to_nat j)) as [fj Hfj]; [lia|].
  exists fj. split; [apply rd_Some; split; [lia|done]|].
  destruct (Hmax (Z.to_nat j) fj fb) as [Hle Hs]; [lia|lia|lia|done|done|].
  split; [done|]. intros ?. apply Hs. lia.
Qed.

(** X11.  In the call that ends a generation, the elites that the
    probability update reads (those standing after the elite update of
    the call) are, bucket by bucket, the first individual of greatest
    recorded fitness among the five of the bucket. *)
Theorem X11_boundary_elites_are_bucket_best nr_seeds K cs st g seed numPaths :
  reachable rand_init rand RAND_MAX rand_32_int rand_32_double nr_seeds K cs (st, g) →
  rd (_nextToEvaluate st) seed = Some (M - 1) →
  ∃ st1, evaluate_candidate seed numPaths st = Some st1 ∧
    ∀ b, 0 ≤ b < N →
      ∃ bi fb, rd2 (_bestIndex st1) seed b = Some bi ∧ 5 * b ≤ bi < 5 * b + 5 ∧
        rd2 (_Fitness st1) seed bi = Some fb ∧
        ∀ j, 5 * b ≤ j < 5 * b + 5 →
          ∃ fj, rd2 (_Fitness st1) seed j = Some fj ∧ fj ≤ fb ∧ (j < bi → fj < fb).
Proof.
  intros Hr Hnxt.
  pose proof (reachable_reached _ _ _ _ _ _ _ _ _ Hr) as [Hwf HKst _ _ _].
  cbn [fst] in Hwf, HKst.
  destruct (wf_rows st seed Hwf) as (v & Hv & Hwv); [by do 2 right; left; eexists|].
  pose proof (get_seed_fields _ _ _ Hv) as (_ & _ & HN & _).
  rewrite Hnxt in HN. injection HN as HN.
  assert (HK : 0 ≤ K) by (destruct Hr as (_ & ? & _); lia).
  assert (Hinv : elite_best v).
  { refine (reachable_rows_inv _ _ _ _ _ elite_best nr_seeds K cs (st, g) _ _ Hr seed v Hv).
    - intros u _ HN0 HB0 _. by apply elite_best_reset.
    - intros np u g1 u' g1'. by apply elite_best_keep. }
  destruct (NotifyFeedback_closed rand_32_double st g seed numPaths v Hwf Hv)
    as (v1 & P' & Hev & Hev1 & Hm1 & Hn1 & _).
  pose proof (elite_best_evaluate _ numPaths v v1 Hwv Hinv Hev1) as Hinv1.
  exists (put_seed st seed v1). split; [exact Hev|].
  destruct (put_seed_fields st seed v1 (get_seed_ok _ _ _ Hv)) as (HF & HB & _).
  pose proof (wf_Fitness _ _ Hm1) as HFl. pose proof (wf_Best_len _ _ Hm1) as HBl.
  intros b Hb. unfold N in Hb.
  destruct (lookup_lt_is_Some_2 (vBest v1) (Z.to_nat b)) as [bi Hbi]; [lia|].
  pose proof (wf_Best _ _ Hm1 _ _ Hbi) as Hrange. rewrite Z2Nat.id in Hrange by lia.
  pose proof (Hinv1 _ _ Hbi) as H. rewrite Z2Nat.id in H by lia.
  rewrite Hn1, <- HN in H. rewrite decide_True in H by (unfold M; lia).
  destruct H as (H1 & H2 & H3 & Hmax).
  destruct (lookup_lt_is_Some_2 (vFitness v1) (Z.to_nat bi)) as [fb Hfb]; [lia|].
  exists bi, fb. unfold rd2. rewrite HF, HB. cbn [mbind option_bind].
  split; [apply rd_Some; split; [lia|done]|]. split; [lia|].
  split; [apply rd_Some; split; [lia|done]|].
  intros j Hj.
  destruct (lookup_lt_is_Some_2 (vFitness v1) (Z.to_nat j)) as [fj Hfj]; [lia|].
  exists fj. split; [apply rd_Some; split; [lia|done]|].
  destruct (Hmax (Z.to_nat j) fj fb) as [Hle Hs];
    [lia|unfold M; lia|lia|done|done|].
  split; [done|]. intros ?. apply Hs. lia.
Qed.

(** X12.  In every state reached from [DARWIN_init(nr_seeds, K)], for every
    seed the current candidate is the individual at the cursor, and it has
    [K] flags; the operator count is still [K] and the arrays still have
    [nr_seeds] rows. *)
Theorem X12_current_candidate_is_cursor_row nr_seeds K cs st g seed :
  reachable rand_init rand RAND_MAX rand_32_int rand_32_double nr_seeds K cs (st, g) →
  0 ≤ seed < nr_seeds →
  MutationOperatorsNum st = K ∧ length (_nextToEvaluate st) = Z.to_nat nr_seeds ∧
  ∃ nxt cur, rd (_nextToEvaluate st) seed = Some nxt ∧ 0 ≤ nxt < M ∧
    rd (_currentRelativeProb st) seed = Some nxt ∧
    rd2 (_individual st) seed nxt = Some cur ∧ length cur = Z.to_nat K.
Proof.
  intros Hr Hs.
  pose proof (reachable_reached _ _ _ _ _ _ _ _ _ Hr) as [_ _ Hlen _ _]. cbn [fst] in Hlen.
  destruct (reachable_get_seed _ _ _ _ _ _ _ _ _ _ _ Hr Hs)
    as (Hwf & HK & v & Hv & [Hm Hlt Hc]).
  split; [done|]. split; [done|].
  pose proof (get_seed_fields _ _ _ Hv) as (_ & _ & HN & HI & HC & _).
  pose proof (wf_Next _ _ Hm) as [Hn0 _].
  destruct (wf_mid_row _ v (vNext v) Hm) as (cur & Hcur & Hl); [lia|].
  exists (vNext v), cur. rewrite HC, Hc. split_and!; try done; try (unfold M; lia).
  unfold rd2. rewrite HI. done.
Qed.

(** X13.  [DARWIN_init] calls [rand_init] once and then, seed after seed,
    draws the first candidate of the seed with one [rand()] per operator:
    flag [i] of individual 0 is on exactly when the [i]-th draw is above
    [RAND_MAX / 2].  The generator it leaves has made [nr_seeds * K]
    draws. *)
Theorem X13_init_first_candidate junk nr_seeds K g st g' :
  0 ≤ nr_seeds < 2 ^ 31 → 0 ≤ K < 2 ^ 32 →
  DARWIN_init rand_init rand RAND_MAX junk nr_seeds K g = Some (st, g') →
  g' = init_generator rand_init rand RAND_MAX K g nr_seeds ∧
  ∀ seed, 0 ≤ seed < nr_seeds →
    rd2 (_individual st) seed 0
    = Some (init_flags rand RAND_MAX (Z.to_nat K)
              (init_generator rand_init rand RAND_MAX K g seed)).1.
Proof.
  intros Hn HK. unfold DARWIN_init. rewrite decide_True by lia.
  set (gen := init_generator rand_init rand RAND_MAX K g).
  assert (Hgen : ∀ j, 0 ≤ j →
            gen (j + 1) = (init_flags rand RAND_MAX (Z.to_nat K) (gen j)).2).
  { intros j Hj. unfold gen, init_generator.
    replace (Z.to_nat (j + 1)) with (S (Z.to_nat j)) by lia. done. }
  destruct (for_inv
    (λ j (w : world RNG), initialised junk nr_seeds K j w.1 ∧ w.2 = gen j ∧
       ∀ s, 0 ≤ s < j → ∃ v, get_seed w.1 s = Some v ∧
         vInd v !! 0%nat = Some (init_flags rand RAND_MAX (Z.to_nat K) (gen s)).1)
    (init_seed rand RAND_MAX junk) (Z.to_nat nr_seeds) 0
    ({| MutationOperatorsNum := K;
        _Fitness := malloc nr_seeds (λ _, []);
        _bestIndex := malloc nr_seeds (λ _, []);
        _nextToEvaluate := malloc nr_seeds (junk_nextToEvaluate junk);
        _individual := malloc nr_seeds (λ _, []);
        _currentRelativeProb := malloc nr_seeds (junk_currentRelativeProb junk);
        p := malloc nr_seeds (λ _, []) |}, rand_init g))
    as ([st1 g1] & Hex & Hinit & Hg & Hrows).
  - split; [|split; [done|intros; lia]].
    split; fields; [done|by rewrite !length_malloc|intros; lia].
  - intros j [st1 gj] Hj ([HKst Hlen Hseed] & Hg & Hrows). simpl in HKst, Hlen, Hseed, Hg, Hrows.
    assert (Hok : seed_ok st1 j) by (unfold seed_ok; lia).
    destruct (get_seed_is_Some st1 j Hok) as [v0 Hv0].
    rewrite <- (put_get_seed st1 j v0 Hv0).
    change (put_seed st1 j v0, gj) with (put_world st1 j (v0, gj)).
    rewrite lift_init_seed by done. rewrite HKst.
    destruct (v_init_seed_spec rand RAND_MAX junk K j v0 gj) as (v' & g2 & Hvi & Hv'); [lia|].
    destruct (v_init_seed_flags rand RAND_MAX junk K j v0 gj v' g2 ltac:(lia) Hvi) as [Hg2 Hfl].
    rewrite Hvi.
    eexists. split; [done|]. unfold put_world. cbn [fst snd].
    split; [|split].
    + split; fields; [done|by rewrite !length_insert|].
      intros seed Hs. destruct (decide (seed = j)) as [->|Hne].
      * exists v'. by rewrite get_put_seed_eq.
      * rewrite get_put_seed_ne by lia. apply Hseed. lia.
    + rewrite Hgen by lia. by rewrite <- Hg.
    + intros s Hs. destruct (decide (s = j)) as [->|Hne].
      * exists v'. rewrite get_put_seed_eq by done. split; [done|]. by rewrite <- Hg.
      * rewrite get_put_seed_ne by lia. apply Hrows. lia.
  - rewrite Hex. intros [= <- <-]. cbn [fst snd] in *.
    rewrite Z.add_0_l, Z2Nat.id in Hg, Hrows by lia. split; [done|].
    intros seed Hs. destruct (Hrows seed Hs) as (v & Hv & Hfl).
    pose proof (get_seed_fields _ _ _ Hv) as (_ & _ & _ & HI & _).
    unfold rd2. rewrite HI. cbn [mbind option_bind]. by apply rd_Some.
Qed.


End Extras.

(** ** The properties on concrete runs *)

Lemma demo_none_reachable :
  reachable Lcg.rand_init Lcg.rand Lcg.RAND_MAX Lcg.rand_32_int Lcg.rand_32_double
    1 0 [] demo_none.
Proof.
  apply (demo_reachable 1 0 1 demo_none); [lia|lia|by vm_compute|by vm_compute].
Qed.

Lemma X1_witness :
  0 ≤ 2 < 2 ^ 31 ∧ 0 ≤ 3 < 2 ^ 32 ∧
  ∃ st g', DARWIN_init Lcg.rand_init Lcg.rand Lcg.RAND_MAX demo_junk 2 3 1 = Some (st, g') ∧
    MutationOperatorsNum st = 3 ∧
    length (_nextToEvaluate st) = Z.to_nat 2 ∧
    ∀ seed, 0 ≤ seed < 2 →
      rd (_nextToEvaluate st) seed = Some 0 ∧
      rd (_currentRelativeProb st) seed = Some 0 ∧
      rd (_bestIndex st) seed = Some [0; 5; 10; 15] ∧
      rd (p st) seed = Some (replicate (Z.to_nat 3) (tenths 5)) ∧
      rd (_Fitness st) seed
        = Some (replicate 5 0 ++ drop 5 (malloc M (junk_Fitness demo_junk seed))) ∧
      ∃ rows, rd (_individual st) seed = Some rows ∧ length rows = Z.to_nat M ∧
              ∀ row, row ∈ rows → length row = Z.to_nat 3.
Proof.
  assert (Hn : 0 ≤ 2 < 2 ^ 31) by lia. assert (HK : 0 ≤ 3 < 2 ^ 32) by lia.
  split; [exact Hn|]. split; [exact HK|].
  exact (X1_init_state Lcg.rand_init Lcg.rand Lcg.RAND_MAX demo_junk 2 3 1 Hn HK).
Defined.

Lemma X2_witness :
  wf demo_w19.1 ∧
  DARWIN_NotifyFeedback Lcg.rand_32_double 0 1 (demo_w19.1, demo_w19.2)
    = Some (demo_w20.1, demo_w20.2) ∧
  MutationOperatorsNum demo_w20.1 = MutationOperatorsNum demo_w19.1 ∧
  length (_nextToEvaluate demo_w20.1) = length (_nextToEvaluate demo_w19.1) ∧
  ∀ s, s ≠ 0 →
    rd (_Fitness demo_w20.1) s = rd (_Fitness demo_w19.1) s ∧
    rd (_bestIndex demo_w20.1) s = rd (_bestIndex demo_w19.1) s ∧
    rd (_nextToEvaluate demo_w20.1) s = rd (_nextToEvaluate demo_w19.1) s ∧
    rd (_individual demo_w20.1) s = rd (_individual demo_w19.1) s ∧
    rd (_currentRelativeProb demo_w20.1) s = rd (_currentRelativeProb demo_w19.1) s ∧
    rd (p demo_w20.1) s = rd (p demo_w19.1) s.
Proof.
  assert (Hwf : wf demo_w19.1) by exact (reachable_wf _ _ _ _ _ _ _ _ _ demo_w19_reachable).
  assert (Hex : DARWIN_NotifyFeedback Lcg.rand_32_double 0 1 (demo_w19.1, demo_w19.2)
                = Some (demo_w20.1, demo_w20.2)) by (vm_compute; reflexivity).
  split; [exact Hwf|]. split; [exact Hex|].
  exact (X2_notify_other_seeds_unchanged Lcg.rand_32_double demo_w19.1 demo_w19.2 0 1
           demo_w20.1 demo_w20.2 Hwf Hex).
Defined.

Lemma X3_witness :
  reachable Lcg.rand_init Lcg.rand Lcg.RAND_MAX Lcg.rand_32_int Lcg.rand_32_double
    2 3 [] demo_w0 ∧
  (is_Some (DARWIN_NotifyFeedback Lcg.rand_32_double 1 5 demo_w0) ↔ 0 ≤ 1 < 2).
Proof.
  split; [exact demo_w0_reachable|].
  exact (X3_notify_defined_iff_seed_in_range Lcg.rand_init Lcg.rand Lcg.RAND_MAX
           Lcg.rand_32_int Lcg.rand_32_double 2 3 [] demo_w0 1 5 demo_w0_reachable).
Defined.

Lemma X4_witness :
  reachable Lcg.rand_init Lcg.rand Lcg.RAND_MAX Lcg.rand_32_int Lcg.rand_32_double
    1 0 [] demo_none ∧
  (0 = 0 ∨ ¬ (0 ≤ 0 < 1)) ∧
  DARWIN_SelectOperator Lcg.rand_32_int 5 0 demo_none = None.
Proof.
  assert (Hc : 0 = 0 ∨ ¬ (0 ≤ 0 < 1)) by (left; reflexivity).
  split; [exact demo_none_reachable|]. split; [exact Hc|].
  exact (X4_select_undefined Lcg.rand_init Lcg.rand Lcg.RAND_MAX Lcg.rand_32_int
           Lcg.rand_32_double 1 0 [] demo_none 0 5 demo_none_reachable Hc).
Defined.


Lemma X6_witness :
  wf demo_w3.1 ∧ rd (_nextToEvaluate demo_w3.1) 0 = Some 3 ∧ 3 + 1 ≠ M ∧
  rd (_Fitness demo_w3.1) 0 = Some ([1; 5; 2; 0; 0] ++ replicate 15 7) ∧
  rd (p demo_w3.1) 0 = Some (replicate 3 (tenths 5)) ∧
  ∃ w', DARWIN_NotifyFeedback Lcg.rand_32_double 0 9 (demo_w3.1, demo_w3.2) = Some w' ∧
    rd (_Fitness w'.1) 0
      = Some (<[Z.to_nat 3 := to_int 9]> ([1; 5; 2; 0; 0] ++ replicate 15 7)) ∧
    rd (p w'.1) 0 = Some (replicate 3 (tenths 5)) ∧
    rd (_nextToEvaluate w'.1) 0 = Some (3 + 1) ∧
    rd (_currentRelativeProb w'.1) 0 = Some (3 + 1).
Proof.
  assert (Hwf : wf demo_w3.1) by exact (reachable_wf _ _ _ _ _ _ _ _ _ demo_w3_reachable).
  assert (Hb : 3 + 1 ≠ M) by (unfold M; lia).
  split; [exact Hwf|]. split; [reflexivity|]. split; [exact Hb|].
  split; [reflexivity|]. split; [reflexivity|].
  exact (X6_notify_inside_generation Lcg.rand_32_double demo_w3.1 demo_w3.2 0 9 3
           ([1; 5; 2; 0; 0] ++ replicate 15 7) (replicate 3 (tenths 5))
           Hwf eq_refl Hb eq_refl eq_refl).
Defined.

Lemma X7_witness :
  wf demo_w19.1 ∧ rd (_nextToEvaluate demo_w19.1) 0 = Some (M - 1) ∧
  rd (_Fitness demo_w19.1) 0 = Some (replicate 19 1 ++ [7]) ∧
  ∃ w', DARWIN_NotifyFeedback Lcg.rand_32_double 0 9 (demo_w19.1, demo_w19.2) = Some w' ∧
    rd (_Fitness w'.1) 0
      = Some (replicate 5 0 ++ drop 5 (<[19%nat := to_int 9]> (replicate 19 1 ++ [7]))) ∧
    (∀ j, 0 ≤ j < 5 → rd2 (_Fitness w'.1) 0 j = Some 0) ∧
    (∀ j, 5 ≤ j < 19 → rd2 (_Fitness w'.1) 0 j = rd (replicate 19 1 ++ [7]) j) ∧
    rd2 (_Fitness w'.1) 0 19 = Some (to_int 9).
Proof.
  assert (Hwf : wf demo_w19.1) by exact (reachable_wf _ _ _ _ _ _ _ _ _ demo_w19_reachable).
  split; [exact Hwf|]. split; [reflexivity|]. split; [reflexivity|].
  exact (X7_notify_boundary_fitness Lcg.rand_32_double demo_w19.1 demo_w19.2 0 9
           (replicate 19 1 ++ [7]) Hwf eq_refl eq_refl).
Defined.

Lemma X8_witness :
  wf demo_w3.1 ∧ rd (_nextToEvaluate demo_w3.1) 0 = Some 3 ∧
  rd (_individual demo_w3.1) 0
    = Some ([[false; true; false]; [true; false; true]; [true; true; true];
             [true; true; false]] ++ replicate 16 [true; true; true]) ∧
  ∃ st' P', DARWIN_NotifyFeedback Lcg.rand_32_double 0 9 (demo_w3.1, demo_w3.2)
              = Some (st', (sample_row Lcg.rand_32_double P' demo_w3.2).2) ∧
    rd (p st') 0 = Some P' ∧ length P' = Z.to_nat (MutationOperatorsNum demo_w3.1) ∧
    rd (_currentRelativeProb st') 0 = Some ((3 + 1) mod M) ∧
    rd (_individual st') 0
      = Some (<[Z.to_nat ((3 + 1) mod M) := (sample_row Lcg.rand_32_double P' demo_w3.2).1]>
                ([[false; true; false]; [true; false; true]; [true; true; true];
                  [true; true; false]] ++ replicate 16 [true; true; true])) ∧
    rd2 (_individual st') 0 ((3 + 1) mod M)
      = Some (sample_row Lcg.rand_32_double P' demo_w3.2).1.
Proof.
  assert (Hwf : wf demo_w3.1) by exact (reachable_wf _ _ _ _ _ _ _ _ _ demo_w3_reachable).
  split; [exact Hwf|]. split; [reflexivity|]. split; [reflexivity|].
  exact (X8_notify_samples_next_candidate Lcg.rand_32_double demo_w3.1 demo_w3.2 0 9 3
           ([[false; true; false]; [true; false; true]; [true; true; true];
             [true; true; false]] ++ replicate 16 [true; true; true])
           Hwf eq_refl eq_refl).
Defined.

Lemma X9_witness :
  reachable Lcg.rand_init Lcg.rand Lcg.RAND_MAX Lcg.rand_32_int Lcg.rand_32_double
    2 3 demo_calls demo_w20 ∧
  rd2 (p demo_w20.1) 0 1 = Some (S754_finite false 7656119366529843 (-54)) ∧
  dle (tenths 2) (S754_finite false 7656119366529843 (-54)) = true ∧
  dle (S754_finite false 7656119366529843 (-54)) (tenths 8) = true.
Proof.
  split; [exact demo_w20_reachable|]. split; [reflexivity|].
  exact (X9_probability_within_02_08 Lcg.rand_init Lcg.rand Lcg.RAND_MAX Lcg.rand_32_int
           Lcg.rand_32_double 2 3 demo_calls demo_w20.1 demo_w20.2 0 1 _
           demo_w20_reachable eq_refl).
Defined.

Lemma X10_witness :
  reachable Lcg.rand_init Lcg.rand Lcg.RAND_MAX Lcg.rand_32_int Lcg.rand_32_double
    2 3 demo_calls3 demo_w3 ∧
  rd (_nextToEvaluate demo_w3.1) 0 = Some 3 ∧
  rd2 (_bestIndex demo_w3.1) 0 0 = Some 1 ∧
  if decide (5 * 0 < 3) then
    5 * 0 ≤ 1 < Z.min 3 (5 * 0 + 5) ∧
    ∃ fb, rd2 (_Fitness demo_w3.1) 0 1 = Some fb ∧
      ∀ j, 5 * 0 ≤ j < Z.min 3 (5 * 0 + 5) →
        ∃ fj, rd2 (_Fitness demo_w3.1) 0 j = Some fj ∧ fj ≤ fb ∧ (j < 1 → fj < fb)
  else 1 = 5 * 0.
Proof.
  split; [exact demo_w3_reachable|]. split; [reflexivity|]. split; [reflexivity|].
  exact (X10_elite_is_first_best_of_bucket Lcg.rand_init Lcg.rand Lcg.RAND_MAX
           Lcg.rand_32_int Lcg.rand_32_double 2 3 demo_calls3 demo_w3.1 demo_w3.2 0 3 0 1
           demo_w3_reachable eq_refl eq_refl).
Defined.

Lemma X11_witness :
  reachable Lcg.rand_init Lcg.rand Lcg.RAND_MAX Lcg.rand_32_int Lcg.rand_32_double
    2 3 demo_calls19 demo_w19 ∧
  rd (_nextToEvaluate demo_w19.1) 0 = Some (M - 1) ∧
  ∃ st1, evaluate_candidate 0 9 demo_w19.1 = Some st1 ∧
    ∀ b, 0 ≤ b < N →
      ∃ bi fb, rd2 (_bestIndex st1) 0 b = Some bi ∧ 5 * b ≤ bi < 5 * b + 5 ∧
        rd2 (_Fitness st1) 0 bi = Some fb ∧
        ∀ j, 5 * b ≤ j < 5 * b + 5 →
          ∃ fj, rd2 (_Fitness st1) 0 j = Some fj ∧ fj ≤ fb ∧ (j < bi → fj < fb).
Proof.
  split; [exact demo_w19_reachable|]. split; [reflexivity|].
  exact (X11_boundary_elites_are_bucket_best Lcg.rand_init Lcg.rand Lcg.RAND_MAX
           Lcg.rand_32_int Lcg.rand_32_double 2 3 demo_calls19 demo_w19.1 demo_w19.2 0 9
           demo_w19_reachable eq_refl).
Defined.

Lemma X12_witness :
  reachable Lcg.rand_init Lcg.rand Lcg.RAND_MAX Lcg.rand_32_int Lcg.rand_32_double
    2 3 demo_calls3 demo_w3 ∧
  0 ≤ 0 < 2 ∧
  MutationOperatorsNum demo_w3.1 = 3 ∧
  length (_nextToEvaluate demo_w3.1) = Z.to_nat 2 ∧
  ∃ nxt cur, rd (_nextToEvaluate demo_w3.1) 0 = Some nxt ∧ 0 ≤ nxt < M ∧
    rd (_currentRelativeProb demo_w3.1) 0 = Some nxt ∧
    rd2 (_individual demo_w3.1) 0 nxt = Some cur ∧ length cur = Z.to_nat 3.
Proof.
  assert (Hs : 0 ≤ 0 < 2) by lia.
  split; [exact demo_w3_reachable|]. split; [exact Hs|].
  exact (X12_current_candidate_is_cursor_row Lcg.rand_init Lcg.rand Lcg.RAND_MAX
           Lcg.rand_32_int Lcg.rand_32_double 2 3 demo_calls3 demo_w3.1 demo_w3.2 0
           demo_w3_reachable Hs).
Defined.

Lemma X13_witness :
  0 ≤ 2 < 2 ^ 31 ∧ 0 ≤ 3 < 2 ^ 32 ∧
  DARWIN_init Lcg.rand_init Lcg.rand Lcg.RAND_MAX demo_junk 2 3 1
    = Some (demo_w0.1, demo_w0.2) ∧
  demo_w0.2 = init_generator Lcg.rand_init Lcg.rand Lcg.RAND_MAX 3 1 2 ∧
  ∀ seed, 0 ≤ seed < 2 →
    rd2 (_individual demo_w0.1) seed 0
    = Some (init_flags Lcg.rand Lcg.RAND_MAX (Z.to_nat 3)
              (init_generator Lcg.rand_init Lcg.rand Lcg.RAND_MAX 3 1 seed)).1.
Proof.
  assert (Hn : 0 ≤ 2 < 2 ^ 31) by lia. assert (HK : 0 ≤ 3 < 2 ^ 32) by lia.
  assert (Hi : DARWIN_init Lcg.rand_init Lcg.rand Lcg.RAND_MAX demo_junk 2 3 1
               = Some (demo_w0.1, demo_w0.2)) by (vm_compute; reflexivity).
  split; [exact Hn|]. split; [exact HK|]. split; [exact Hi|].
  exact (X13_init_first_candidate Lcg.rand_init Lcg.rand Lcg.RAND_MAX demo_junk 2 3 1
           demo_w0.1 demo_w0.2 Hn HK Hi).
Defined.


(** ** Claims C3 and C7 on concrete runs *)

Lemma demo_off19_reachable :
  reachable Lcg.rand_init Lcg.rand Lcg.RAND_MAX Lcg.rand_32_int Lcg.rand_32_double
    1 1 demo_calls_off19 demo_off19.
Proof.
  apply (demo_reachable 1 1 1 demo_off); [lia|lia|by vm_compute|by vm_compute].
Qed.

(** The run of C2: [DARWIN_init(1, 1)], 19 calls
    [DARWIN_NotifyFeedback(0, 3)], and the twentieth, which ends the
    generation. *)
Lemma C7_witness :
  reachable Lcg.rand_init Lcg.rand Lcg.RAND_MAX Lcg.rand_32_int Lcg.rand_32_double
    1 1 demo_calls_off19 demo_off19 ∧
  0 ≤ 0 < 1 ∧
  rd (_nextToEvaluate demo_off19.1) 0 = Some (notified 0 demo_calls_off19 mod M) ∧
  0 ≤ notified 0 demo_calls_off19 mod M < M ∧
  ∃ st1 v1 w',
    evaluate_candidate 0 3 demo_off19.1 = Some st1 ∧
    get_seed st1 0 = Some v1 ∧ vNext v1 = notified 0 demo_calls_off19 mod M + 1 ∧
    (∃ F, rd (_Fitness demo_off19.1) 0 = Some F ∧
          vFitness v1 = <[Z.to_nat (notified 0 demo_calls_off19 mod M) := to_int 3]> F) ∧
    (notified 0 demo_calls_off19 mod M + 1 = M ↔
     (notified 0 demo_calls_off19 + 1) mod M = 0) ∧
    DARWIN_NotifyFeedback Lcg.rand_32_double 0 3 (demo_off19.1, demo_off19.2) = Some w' ∧
    rd (_nextToEvaluate w'.1) 0 = Some ((notified 0 demo_calls_off19 + 1) mod M) ∧
    if decide ((notified 0 demo_calls_off19 + 1) mod M = 0)
    then
      (∃ st2, generation_boundary 0 st1 = Some st2 ∧
              next_candidate Lcg.rand_32_double 0 (st2, demo_off19.2) = Some w') ∧
      (∀ i x, rd2 (p demo_off19.1) 0 i = Some x →
         let sum := elite_count v1 i in
         let clamped :=
           if decide (sum = N) then N - 1 else if decide (sum = 0) then 1 else sum in
         rd2 (p w'.1) 0 i
           = Some (dadd (dmul (dsub (Z2D 1) (tenths 3)) x)
                        (ddiv (dmul (tenths 3) (Z2D clamped)) (Z2D N)))) ∧
      rd (_bestIndex w'.1) 0 = Some [0; 5; 10; 15] ∧
      rd (_Fitness w'.1) 0 = Some (replicate 5 0 ++ drop 5 (vFitness v1))
    else
      next_candidate Lcg.rand_32_double 0 (st1, demo_off19.2) = Some w' ∧
      rd (p w'.1) 0 = rd (p demo_off19.1) 0 ∧
      rd (_bestIndex w'.1) 0 = Some (vBest v1) ∧
      rd (_Fitness w'.1) 0 = Some (vFitness v1).
Proof.
  assert (Hs : 0 ≤ 0 < 1) by lia.
  split; [exact demo_off19_reachable|]. split; [exact Hs|].
  exact (C7_generation_every_M_calls Lcg.rand_init Lcg.rand Lcg.RAND_MAX Lcg.rand_32_int
           Lcg.rand_32_double 1 1 demo_calls_off19 demo_off19.1 demo_off19.2 0 3
           demo_off19_reachable Hs).
Defined.

(** The twentieth call of that run on the state: the cursor is back at
    0, the elites are reset and the probability is updated, and the
    fitness entries 5 to 19 still hold the 3 recorded for them. *)
Example boundary_keeps_recorded_fitness :
  rd (_nextToEvaluate demo_off19.1) 0 = Some 19 ∧
  (λ w : world Z, (_nextToEvaluate w.1, _bestIndex w.1, _Fitness w.1, p w.1))
    <$> DARWIN_NotifyFeedback Lcg.rand_32_double 0 3 demo_off19
  = Some ([0], [[0; 5; 10; 15]], [replicate 5 0 ++ replicate 15 3],
          [[smooth (tenths 5) 1]]).
Proof. by vm_compute. Qed.

(** C3, as it is stated, fails without operators.  [DARWIN_init(1, 0)]
    returns the state [demo_none], whose candidate has no entry; there
    [DARWIN_SelectOperator] reads that candidate at the id it drew, out
    of bounds, whatever the generator and the fuel: no operator id is
    returned. *)
Lemma C3_no_operator_no_result :
  demo_init 1 0 1 = Some demo_none ∧
  MutationOperatorsNum demo_none.1 = 0 ∧
  rd (_currentRelativeProb demo_none.1) 0 = Some 0 ∧
  rd2 (_individual demo_none.1) 0 0 = Some [] ∧
  ∀ (rand_32_int : Z → Z → Z * Z) (fuel : nat),
    DARWIN_SelectOperator rand_32_int fuel 0 demo_none = None.
Proof.
  split; [by vm_compute|]. split; [reflexivity|]. split; [reflexivity|].
  split; [reflexivity|].
  intros rand_32_int fuel. unfold DARWIN_SelectOperator, demo_none.
  cbn [MutationOperatorsNum _currentRelativeProb _individual].
  destruct (rand_32_int 0 1) as [r g1].
  change (rd [0] 0) with (Some 0). cbn [mbind option_bind].
  change (rd2 [[[]; []; []; []; []; []; []; []; []; []; []; []; []; []; []; [];
               []; []; []; []]] 0 0) with (Some (@nil bool)).
  cbn [mbind option_bind].
  destruct fuel as [|fuel]; [reflexivity|]. cbn [select_loop].
  by rewrite rd_outside by (simpl; lia).
Qed.
